(** * ARB: liquidity filter, order-book store and opportunity detectors

    A shallow embedding of [src/main.py] (class [ArbitrageBot]) and the
    properties its specification states about it.

    Modelling conventions.
    - Python [float] is IEEE-754 binary64 and is modelled by Rocq's primitive
      [float], which is the same format with the same rounding; comparisons
      are the primitive ones ([NaN] compares false with everything).  Numeric
      values of tickers, books and configuration are floats, as ccxt's parsers
      produce them; the integer literals of the source ([0], [1], [100],
      [1_000_000]) are the floats of the same value.
    - A Python exception is an [exn]; a computation that can raise returns an
      [outcome].  [except Exception] catches the exceptions that are
      [Exception]s and lets the others ([asyncio.CancelledError],
      [KeyboardInterrupt]) pass.
    - Methods of the bot run in the monad [M]: they read and write the bot,
      emit log lines and calls of the execution layer as [event]s, and may
      raise.
    - A [dict] that is iterated is an insertion-ordered association list:
      [self.orderbooks], whose order decides which venue is "A" and which is
      "B", and the tickers, whose order decides which exception leaves the
      filter.  A [dict] holds no key twice; the theorems that need this of
      their input say so ([store_wf], [tickers_wf]).  [dict]s that are only
      read through lookups (the fields of a ticker, the fee table, the
      filtered pairs) are [gmap]s.  A [set] is a [gset], iterated in the
      order of [elements].
    - Strings are byte strings; their order is the lexicographic order of the
      bytes, which on UTF-8 text is Python's order of code points.
    - A coroutine is run from its call to its return without interleaving:
      what other tasks do to the bot while [execute_arbitrage] sleeps is
      outside the model, and so are the pauses themselves (an
      [asyncio.sleep] returns).  What a venue's handle answers at an [await]
      is an input: a value, an [Exception], or the [CancelledError] of a
      cancellation delivered there.  A turn of a loop that waits is run on
      the bot as the other tasks left it during the wait. *)

From Stdlib Require Import Floats ZArith Ascii.
From stdpp Require Import gmap strings list fin_maps sorting.

#[local] Set Warnings "-inexact-float,-clear-no-such-hyp".
#[local] Open Scope string_scope.
#[local] Open Scope list_scope.

(** ** Exceptions and outcomes *)

Inductive exn : Type :=
  | ValueError          (* unpacking [symbol.split('/')] into two names *)
  | TypeError           (* ordering a non-number against [0] *)
  | ZeroDivisionError   (* float division by zero *)
  | StreamError         (* an [Exception] of a venue's handle: network, protocol *)
  | CancelledError      (* [asyncio.CancelledError], raised at an [await] *)
  | KeyboardInterrupt.

(** [isinstance(e, Exception)]: [CancelledError] and [KeyboardInterrupt]
    derive from [BaseException] only. *)
Definition is_Exception (e : exn) : bool :=
  match e with
  | CancelledError | KeyboardInterrupt => false
  | _ => true
  end.

Inductive outcome (A : Type) : Type :=
  | Return (a : A)
  | Raise (e : exn).
Arguments Return {A} a.
Arguments Raise {A} e.

Definition obind {A B : Type} (m : outcome A) (f : A → outcome B) : outcome B :=
  match m with
  | Return a => f a
  | Raise e => Raise e
  end.

Notation "x <-? m ;; k" := (obind m (fun x => k))
  (at level 20, m at level 99, k at level 200, only parsing).
Notation "' p <-? m ;; k" := (obind m (fun x => match x with p => k end))
  (at level 20, p pattern, m at level 99, k at level 200, only parsing).

(** [try: m except Exception as e: h e] where nothing but the result is at
    stake. *)
Definition otry {A : Type} (m : outcome A) (h : exn → outcome A) : outcome A :=
  match m with
  | Return a => Return a
  | Raise e => if is_Exception e then h e else Raise e
  end.

(** ** Python numbers *)

(** [x / y] on floats: raises on a zero divisor, IEEE otherwise. *)
Definition py_div (x y : float) : outcome float :=
  if PrimFloat.eqb y 0%float then Raise ZeroDivisionError
  else Return (x / y)%float.

(** ** Python strings *)

(** [c in s] for a one-character [c]. *)
Fixpoint str_contains (c : ascii) (s : string) : bool :=
  match s with
  | "" => false
  | String a s' => if Ascii.eqb a c then true else str_contains c s'
  end.

(** [s.split(sep)] for a one-character separator: one more part than there
    are separators, [''.split('/') == ['']]. *)
Fixpoint str_split (sep : ascii) (s : string) : list string :=
  match s with
  | "" => [""]
  | String a s' =>
      if Ascii.eqb a sep then "" :: str_split sep s'
      else match str_split sep s' with
           | [] => [String a ""]
           | w :: ws => String a w :: ws
           end
  end.

Definition slash : ascii := "/"%char.

(** [base, quote = symbol.split('/')]: unpacking raises unless there are
    exactly two parts. *)
Definition split_pair (symbol : string) : outcome (string * string) :=
  match str_split slash symbol with
  | [base; quote] => Return (base, quote)
  | _ => Raise ValueError
  end.

(** ** Insertion-ordered dictionaries *)

Section pydict.
Context {V : Type}.

Definition pydict_keys (d : list (string * V)) : list string := d.*1.

Fixpoint pydict_get (k : string) (d : list (string * V)) : option V :=
  match d with
  | [] => None
  | (k', v) :: d' => if String.eqb k' k then Some v else pydict_get k d'
  end.

(** [d[k] = v]: an existing key keeps its place, a new key goes last. *)
Fixpoint pydict_set (k : string) (v : V) (d : list (string * V)) : list (string * V) :=
  match d with
  | [] => [(k, v)]
  | (k', v') :: d' =>
      if String.eqb k' k then (k', v) :: d' else (k', v') :: pydict_set k v d'
  end.
End pydict.

(** ** Data *)

(** A value of a ticker field as the exchange library hands it over. *)
Inductive pyval : Type :=
  | PyNone
  | PyNum (x : float)
  | PyStr (s : string).

(** A ticker is a [dict] from field names to values, read through [get]
    only; [all_tickers] is [exchange -> symbol -> ticker], two [dict]s that
    are iterated. *)
Abbreviation ticker := (gmap string pyval).

(** An order book: price levels [(price, amount)], best first, and the
    age stamps the feed attaches (milliseconds, update counter). *)
Record orderbook : Type := {
  bids : list (float * float);
  asks : list (float * float);
  timestamp : option Z;
  nonce : option Z;
}.

Record Config : Type := {
  exchanges : list string;
  quote_currencies : list string;
  min_volume_usd : float;
  max_spread_percent : float;
  refresh_filter_minutes : float;
  arbitrage_min_profit_percent : float;
  trade_amount_btc : float;
  log_level : string;
}.

Definition CONFIG : Config := {|
  exchanges := ["binance"; "kraken"; "coinbase"];
  quote_currencies := ["USDT"; "USD"; "BTC"];
  min_volume_usd := 1000000%float;
  max_spread_percent := 0.5%float;
  refresh_filter_minutes := 30%float;
  arbitrage_min_profit_percent := 0.2%float;
  trade_amount_btc := 0.01%float;
  log_level := "INFO";
|}.

Definition FEES : gmap string float :=
  {[ "binance" := 0.001%float; "kraken" := 0.002%float; "coinbase" := 0.005%float ]}.

(** [FEES.get(name, 0.001)] *)
Definition fee_of (name : string) : float := default 0.001%float (FEES !! name).

Record ArbitrageBot : Type := {
  config : Config;
  filtered_pairs : gmap string (gset string);
  orderbooks : list (string * list (string * orderbook));
  tickers : gmap string (gmap string ticker);
  last_filter_time : float;
  running : bool;
}.

Definition set_orderbooks (obs : list (string * list (string * orderbook)))
    (self : ArbitrageBot) : ArbitrageBot :=
  {| config := config self; filtered_pairs := filtered_pairs self;
     orderbooks := obs; tickers := tickers self;
     last_filter_time := last_filter_time self; running := running self |}.

(** What a method does that can be seen from outside: the log lines of the
    detectors and of the filter, and the call of the execution layer.  Of
    the line of the filter the counts per venue are kept, not the order in
    which the line lists the venues. *)
Inductive event : Type :=
  | LogFiltered (counts : gmap string nat)
  | LogOpportunity (symbol ex_b : string) (ask_b : float) (ex_a : string)
      (bid_a profit_net_pct profit_pct : float)
  | ExecuteArbitrage (exchange_buy exchange_sell symbol side_buy side_sell : string)
      (price_buy price_sell amount : float)
  | LogTriangle (exchange a b c pair_ab pair_bc pair_ca : string)
  | LogWatchError (exchange_name symbol : string) (e : exn).

(** ** The monad of bot methods *)

Definition M (A : Type) : Type := ArbitrageBot → outcome A * ArbitrageBot * list event.

Definition ret {A : Type} (a : A) : M A := fun self => (Return a, self, []).

Definition bind {A B : Type} (m : M A) (f : A → M B) : M B :=
  fun self =>
    match m self with
    | (Return a, self', log) =>
        let '(r, self'', log') := f a self' in (r, self'', log ++ log')
    | (Raise e, self', log) => (Raise e, self', log)
    end.

Definition get_self : M ArbitrageBot := fun self => (Return self, self, []).
Definition put_self (self' : ArbitrageBot) : M unit := fun _ => (Return tt, self', []).
Definition emit (ev : event) : M unit := fun self => (Return tt, self, [ev]).
Definition lift {A : Type} (o : outcome A) : M A := fun self => (o, self, []).

(** [try: m except Exception as e: h e]: an exception that is not an
    [Exception] is not caught. *)
Definition try_except {A : Type} (m : M A) (h : exn → M A) : M A :=
  fun self =>
    match m self with
    | (Return a, self', log) => (Return a, self', log)
    | (Raise e, self', log) =>
        if is_Exception e
        then let '(r, self'', log') := h e self' in (r, self'', log ++ log')
        else (Raise e, self', log)
    end.

Notation "x <- m ;; k" := (bind m (fun x => k))
  (at level 20, m at level 99, k at level 200, only parsing).
Notation "' p <- m ;; k" := (bind m (fun x => match x with p => k end))
  (at level 20, p pattern, m at level 99, k at level 200, only parsing).

(** [for x in xs: body x] *)
Fixpoint for_ {A : Type} (xs : list A) (body : A → M unit) : M unit :=
  match xs with
  | [] => ret tt
  | x :: xs' => ' tt <- body x ;; for_ xs' body
  end.

(** The parts of a run. *)
Definition result_of {A : Type} (r : outcome A * ArbitrageBot * list event) : outcome A := r.1.1.
Definition state_of {A : Type} (r : outcome A * ArbitrageBot * list event) : ArbitrageBot := r.1.2.
Definition trace_of {A : Type} (r : outcome A * ArbitrageBot * list event) : list event := r.2.

(** [self.orderbooks[name]] on the [defaultdict(dict)]: a missing key is
    created with an empty dictionary. *)
Definition orderbooks_getitem (name : string) : M (list (string * orderbook)) :=
  self <- get_self ;;
  match pydict_get name (orderbooks self) with
  | Some ex_books => ret ex_books
  | None =>
      ' tt <- put_self (set_orderbooks (pydict_set name [] (orderbooks self)) self) ;;
      ret []
  end.

(** ** Layer 1: liquidity filter *)

(** [t.get(key)]: a missing key reads as [None]. *)
Definition ticker_get (key : string) (t : ticker) : pyval :=
  default PyNone (t !! key).

(** The operand of [v <= 0]: ordering anything but a number raises. *)
Definition as_number (v : pyval) : outcome float :=
  match v with
  | PyNum x => Return x
  | _ => Raise TypeError
  end.

(** [filtered[exchange]] on a [defaultdict(set)], read without creating the
    key: a missing venue has no symbols. *)
Definition filtered_get (exchange : string) (filtered : gmap string (gset string))
    : gset string :=
  default ∅ (filtered !! exchange).

(** [filtered[exchange].add(symbol)] on a [defaultdict(set)]. *)
Definition add_pair (exchange symbol : string) (filtered : gmap string (gset string))
    : gmap string (gset string) :=
  <[exchange := {[symbol]} ∪ filtered_get exchange filtered]> filtered.

(** [for k, v in d.items(): acc = body k v acc], in the order in which the
    keys were inserted, stopping at the first exception. *)
Fixpoint fold_items {V A : Type} (d : list (string * V)) (acc : A)
    (body : string → V → A → outcome A) : outcome A :=
  match d with
  | [] => Return acc
  | (k, v) :: d' => acc' <-? body k v acc ;; fold_items d' acc' body
  end.

(** The body of the inner loop of [filter_pairs_by_liquidity] up to the
    [add]: [Return false] is a [continue], [Return true] reaches the [add]. *)
Definition passes_filters (cfg : Config) (symbol : string) (t : ticker) : outcome bool :=
  if Nat.eqb (size t) 0 then Return false else
  match ticker_get "quoteVolume" t with
  | PyNum quote_vol =>
      if negb (str_contains slash symbol) then Return false else
      ' (base, quote) <-? split_pair symbol ;;
      if negb (bool_decide (quote ∈ quote_currencies cfg)) then Return false else
      if PrimFloat.ltb quote_vol (min_volume_usd cfg) then Return false else
      let bid := ticker_get "bid" t in
      let ask := ticker_get "ask" t in
      match bid, ask with
      | PyNone, _ | _, PyNone => Return false
      | _, _ =>
          bid <-? as_number bid ;;
          if PrimFloat.leb bid 0 then Return false else
          ask <-? as_number ask ;;
          if PrimFloat.leb ask 0 then Return false else
          q <-? py_div (ask - bid) bid ;;
          let spread_pct := (q * 100)%float in
          if PrimFloat.ltb (max_spread_percent cfg) spread_pct then Return false else
          Return true
      end
  | _ => Return false
  end.

Definition filter_pairs_by_liquidity (all_tickers : list (string * list (string * ticker)))
    : M (gmap string (gset string)) :=
  self <- get_self ;;
  filtered <- lift (
    fold_items all_tickers ∅ (λ exchange tickers filtered,
      fold_items tickers filtered (λ symbol t filtered,
        pass <-? passes_filters (config self) symbol t ;;
        Return (if pass then add_pair exchange symbol filtered else filtered)))) ;;
  ' tt <- emit (LogFiltered (size <$> filtered)) ;;
  ret filtered.

(** Tickers on which the filter cannot raise: the symbol has at most one
    slash, and [bid] and [ask] are numbers or missing. *)
Definition is_str (v : pyval) : bool :=
  match v with
  | PyStr _ => true
  | _ => false
  end.

Definition well_formed_ticker (symbol : string) (t : ticker) : bool :=
  Nat.leb (length (str_split slash symbol)) 2
  && negb (is_str (ticker_get "bid" t))
  && negb (is_str (ticker_get "ask" t)).

(** Tickers as a [dict] of [dict]s has them: no venue twice, no symbol
    twice under a venue. *)
Definition tickers_wf (all_tickers : list (string * list (string * ticker))) : Prop :=
  NoDup (pydict_keys all_tickers) ∧
  Forall (λ entry, NoDup (pydict_keys entry.2)) all_tickers.

Definition well_formed_tickers (all_tickers : list (string * list (string * ticker))) : Prop :=
  tickers_wf all_tickers ∧
  Forall (λ entry,
    Forall (λ item, well_formed_ticker item.1 item.2 = true) entry.2) all_tickers.

(** [d1 == d2] on [dict]s whose values are compared by [eqv]: the same keys
    with equal values, in whatever order they were inserted. *)
Definition same_dict {V : Type} (eqv : V → V → Prop) (d1 d2 : list (string * V)) : Prop :=
  ∀ k, option_Forall2 eqv (pydict_get k d1) (pydict_get k d2).

(** [all_tickers1 == all_tickers2] *)
Definition same_tickers (all_tickers1 all_tickers2 : list (string * list (string * ticker)))
    : Prop :=
  same_dict (same_dict eq) all_tickers1 all_tickers2.

(** ** Layer 4: execution (simulated): one log line and a pause. *)

Definition execute_arbitrage (exchange_buy exchange_sell symbol side_buy side_sell : string)
    (price_buy price_sell amount : float) : M unit :=
  emit (ExecuteArbitrage exchange_buy exchange_sell symbol side_buy side_sell
          price_buy price_sell amount).

(** ** Layer 3: detection between venues *)

(** The simulated trade of fixed size: [cost], [revenue], [profit_net] and
    [profit_net_pct] of [detect_opportunities_for_symbol]. *)
Definition profit_net_pct (ask_b bid_a fee_buy fee_sell amount : float) : outcome float :=
  let cost := (ask_b * amount * (1 + fee_buy))%float in
  let revenue := (bid_a * amount * (1 - fee_sell))%float in
  let profit_net := (revenue - cost)%float in
  if PrimFloat.ltb 0 cost
  then q <-? py_div profit_net cost ;; Return (q * 100)%float
  else Return 0%float.

(** The body of the two loops of [detect_opportunities_for_symbol]. *)
Definition compare_books (symbol : string) (a b : string * orderbook) : M unit :=
  let '(ex_a, book_a) := a in
  let '(ex_b, book_b) := b in
  match bids book_a, asks book_b with
  | [], _ | _, [] => ret tt
  | (bid_a, _) :: _, (ask_b, _) :: _ =>
      if PrimFloat.ltb ask_b bid_a then
        profit_pct <- lift (q <-? py_div (bid_a - ask_b) ask_b ;; Return (q * 100)%float) ;;
        let fee_buy := fee_of ex_b in
        let fee_sell := fee_of ex_a in
        self <- get_self ;;
        let amount := trade_amount_btc (config self) in
        profit_net_pct <- lift (profit_net_pct ask_b bid_a fee_buy fee_sell amount) ;;
        if PrimFloat.leb (arbitrage_min_profit_percent (config self)) profit_net_pct then
          ' tt <- emit (LogOpportunity symbol ex_b ask_b ex_a bid_a profit_net_pct profit_pct) ;;
          execute_arbitrage ex_b ex_a symbol "buy" "sell" ask_b bid_a amount
        else ret tt
      else ret tt
  end.

(** [books]: the venues holding a book for [symbol], in the order of
    [self.orderbooks]. *)
Definition books_for (symbol : string)
    (obs : list (string * list (string * orderbook))) : list (string * orderbook) :=
  omap (λ '(ex_name, ex_books), (λ book, (ex_name, book)) <$> pydict_get symbol ex_books) obs.

(** [enumerate(books)] against [books[i+1:]]: every venue with every venue
    stored after it, once. *)
Definition detect_opportunities_for_symbol (symbol : string) : M unit :=
  self <- get_self ;;
  let books := books_for symbol (orderbooks self) in
  if Nat.ltb (length books) 2 then ret tt else
  for_ (imap (λ i a, (i, a)) books) (λ '(i, a),
    for_ (drop (S i) books) (λ b,
      compare_books symbol a b)).

(** ** Layer 2: one turn of the loop of [_watch_book], fed with what
    [watch_order_book] returned or raised, from the end of the wait for it;
    then the loop over a feed. *)

Definition _watch_book_turn (exchange_name symbol : string)
    (received : outcome orderbook) : M unit :=
  try_except
    (book <- lift received ;;
     ex_books <- orderbooks_getitem exchange_name ;;
     self <- get_self ;;
     ' tt <- put_self (set_orderbooks
               (pydict_set exchange_name (pydict_set symbol book ex_books) (orderbooks self))
               self) ;;
     detect_opportunities_for_symbol symbol)
    (λ e, emit (LogWatchError exchange_name symbol e)).

(** [while self.running: ...] over what the feed delivers. *)
Definition _watch_book (exchange_name symbol : string)
    (feed : list (outcome orderbook)) : M unit :=
  for_ feed (λ received,
    self <- get_self ;;
    if running self then _watch_book_turn exchange_name symbol received else ret tt).

(** ** Layer 3: triangles on one venue *)

Definition common_coins : gset string :=
  {[ "BTC"; "ETH"; "USDT"; "USD"; "BNB"; "SOL"; "ADA" ]}.

(** The loop of [_find_pair] over the symbols of the venue: the first
    symbol whose base and quote are the two coins, in either order. *)
Fixpoint _find_pair_loop (coin1 coin2 : string) (symbols : list string)
    : outcome (option string) :=
  match symbols with
  | [] => Return None
  | sym :: rest =>
      if str_contains slash sym then
        ' (b, q) <-? split_pair sym ;;
        if (String.eqb b coin1 && String.eqb q coin2)
           || (String.eqb b coin2 && String.eqb q coin1)
        then Return (Some sym)
        else _find_pair_loop coin1 coin2 rest
      else _find_pair_loop coin1 coin2 rest
  end.

Definition _find_pair (exchange_name coin1 coin2 : string) : M (option string) :=
  ex_books <- orderbooks_getitem exchange_name ;;
  lift (_find_pair_loop coin1 coin2 (pydict_keys ex_books)).

(** Only the presence of the three books is looked at; nothing is priced.
    A book that is present is a non-empty [dict], hence true. *)
Definition _evaluate_triangle (exchange a b c pair_ab pair_bc pair_ca : string) : M unit :=
  ex_books <- orderbooks_getitem exchange ;;
  let book_ab := pydict_get pair_ab ex_books in
  ex_books <- orderbooks_getitem exchange ;;
  let book_bc := pydict_get pair_bc ex_books in
  ex_books <- orderbooks_getitem exchange ;;
  let book_ca := pydict_get pair_ca ex_books in
  match book_ab, book_bc, book_ca with
  | Some _, Some _, Some _ => emit (LogTriangle exchange a b c pair_ab pair_bc pair_ca)
  | _, _, _ => ret tt
  end.

(** The coins named by the symbols of a venue (first loop of
    [detect_triangular_opportunities]; [pair_to_coin] and [coin_to_pairs] are
    filled there and never read). *)
Fixpoint coins_of (symbols : list string) (coins : gset string) : outcome (gset string) :=
  match symbols with
  | [] => Return coins
  | symbol :: rest =>
      if str_contains slash symbol then
        ' (base, quote) <-? split_pair symbol ;;
        coins_of rest ({[quote]} ∪ ({[base]} ∪ coins))
      else coins_of rest coins
  end.

(** Truth value of what [_find_pair] returns. *)
Definition found (pair : option string) : bool :=
  match pair with
  | Some sym => negb (String.eqb sym "")
  | None => false
  end.

(** The body of the innermost loop of [detect_triangular_opportunities],
    past its two [continue]s. *)
Definition visit_triple (exchange_name coin_a coin_b coin_c : string) : M unit :=
  pair_ab <- _find_pair exchange_name coin_a coin_b ;;
  pair_bc <- _find_pair exchange_name coin_b coin_c ;;
  pair_ca <- _find_pair exchange_name coin_c coin_a ;;
  if found pair_ab && found pair_bc && found pair_ca then
    _evaluate_triangle exchange_name coin_a coin_b coin_c
      (default "" pair_ab) (default "" pair_bc) (default "" pair_ca)
  else ret tt.

(** [coins] is a [set]: it is iterated in some fixed order, the same in the
    three loops; [coin_a >= coin_b] on strings is [coin_b <= coin_a]. *)
Definition detect_triangular_opportunities (exchange_name : string) : M unit :=
  self <- get_self ;;
  let ex_books := default [] (pydict_get exchange_name (orderbooks self)) in
  if Nat.ltb (length ex_books) 3 then ret tt else
  coins <- lift (coins_of (pydict_keys ex_books) ∅) ;;
  let coins := elements (coins ∩ common_coins) in
  for_ coins (λ coin_a,
    for_ coins (λ coin_b,
      if String.leb coin_b coin_a then ret tt else
      for_ coins (λ coin_c,
        if String.leb coin_c coin_b then ret tt else
        visit_triple exchange_name coin_a coin_b coin_c))).

(** The triples the three loops of [detect_triangular_opportunities] reach,
    in the order they reach them. *)
Definition coin_triples (coins : list string) : list (string * string * string) :=
  coin_a ← coins;
  coin_b ← coins;
  if String.leb coin_b coin_a then [] else
  coin_c ← coins;
  if String.leb coin_c coin_b then [] else [(coin_a, coin_b, coin_c)].

(** The coins of a venue that the triangle scan iterates over: those named
    by its symbols and on the list of common coins. *)
Definition scanned_coins (exchange_name : string) (self : ArbitrageBot) : gset string :=
  match coins_of (pydict_keys (default [] (pydict_get exchange_name (orderbooks self)))) ∅ with
  | Return coins => coins ∩ common_coins
  | Raise _ => ∅
  end.

(** [x] is the base or the quote of one of the symbols. *)
Definition names_coin (symbols : list string) (x : string) : Prop :=
  ∃ symbol base quote,
    symbol ∈ symbols ∧ str_split slash symbol = [base; quote] ∧ (x = base ∨ x = quote).

(** The snapshots a watcher receives from a feed: those the feed delivers
    until it raises what the watcher does not catch, without the failures. *)
Fixpoint received_books (feed : list (outcome orderbook)) : list orderbook :=
  match feed with
  | [] => []
  | Return book :: feed' => book :: received_books feed'
  | Raise e :: feed' => if is_Exception e then received_books feed' else []
  end.


(** ** Reading the store *)

(** The snapshot held for a (venue, symbol) key. *)
Definition get_book (exchange symbol : string)
    (obs : list (string * list (string * orderbook))) : option orderbook :=
  ex_books ← pydict_get exchange obs; pydict_get symbol ex_books.

(** [book['bids'][0][0]] and [book['asks'][0][0]], when the side is not empty. *)
Definition best_bid (book : orderbook) : option float := fst <$> head (bids book).
Definition best_ask (book : orderbook) : option float := fst <$> head (asks book).

(** The triples a log of a triangle scan names, in order. *)
Definition triangles (log : list event) : list (string * string * string) :=
  omap (λ ev, match ev with
              | LogTriangle _ a b c _ _ _ => Some (a, b, c)
              | _ => None
              end) log.

(** An event that reports or dispatches an opportunity. *)
Definition is_opportunity (ev : event) : bool :=
  match ev with
  | LogOpportunity _ _ _ _ _ _ _ | ExecuteArbitrage _ _ _ _ _ _ _ _ => true
  | _ => false
  end.

(** ** What the specification asks for, in its own words

    These definitions follow the text of the specification, not the source;
    they are what the source is compared with. *)

(** Spec 4.4: "the conversion factor from X to Y is bestBid(edge) if X is
    the edge's base currency (selling X), or 1/bestAsk(edge) if X is the
    quote currency (buying X with Y)". *)
Definition spec_conversion_factor (x symbol : string) (book : orderbook) : option float :=
  match str_split slash symbol with
  | [base; quote] =>
      if String.eqb x base then best_bid book
      else if String.eqb x quote then (λ ask, 1 / ask)%float <$> best_ask book
      else None
  | _ => None
  end.

(** Spec 4.4: "The round-trip multiplier is the product of the three
    conversion factors, reduced by the three applicable trading fees;
    net% = (multiplier-1)x100 minus cumulative fee%". *)
Definition spec_triangle_net_pct (fee f_ab f_bc f_ca : float) : float :=
  let multiplier := (f_ab * f_bc * f_ca * (1 - fee) * (1 - fee) * (1 - fee))%float in
  ((multiplier - 1) * 100 - (fee + fee + fee) * 100)%float.

(** Spec 3: "a snapshot is applied only if not older than the currently
    stored one": the age of a snapshot is its timestamp. *)
Definition spec_not_older (incoming stored : orderbook) : Prop :=
  match timestamp incoming, timestamp stored with
  | Some t_in, Some t_st => (t_st ≤ t_in)%Z
  | _, _ => True
  end.

(** ** Concrete stores used below *)

Definition bot_of (cfg : Config) (obs : list (string * list (string * orderbook)))
    : ArbitrageBot :=
  {| config := cfg; filtered_pairs := ∅; orderbooks := obs; tickers := ∅;
     last_filter_time := 0%float; running := true |}.

(** A book with one level on each side. *)
Definition book_of (bid ask : float) (t : Z) : orderbook :=
  {| bids := [(bid, 1%float)]; asks := [(ask, 1%float)];
     timestamp := Some t; nonce := None |}.

(** The configuration with another profit threshold. *)
Definition with_min_profit (p : float) (cfg : Config) : Config :=
  {| exchanges := exchanges cfg; quote_currencies := quote_currencies cfg;
     min_volume_usd := min_volume_usd cfg; max_spread_percent := max_spread_percent cfg;
     refresh_filter_minutes := refresh_filter_minutes cfg;
     arbitrage_min_profit_percent := p; trade_amount_btc := trade_amount_btc cfg;
     log_level := log_level cfg |}.

(** Kraken bids far above Binance's ask; Binance was stored first. *)
Definition store_binance_then_kraken : list (string * list (string * orderbook)) :=
  [("binance", [("BTC/USDT", book_of 100 100.5 1)]);
   ("kraken", [("BTC/USDT", book_of 110 111 1)])].

(** The same two books, Kraken stored first. *)
Definition store_kraken_then_binance : list (string * list (string * orderbook)) :=
  [("kraken", [("BTC/USDT", book_of 110 111 1)]);
   ("binance", [("BTC/USDT", book_of 100 100.5 1)])].

(** The worked example of the specification: venue A bids 101, venue B asks
    100, both charge 0.1% (Binance by the table, Bybit by the default). *)
Definition store_example : list (string * list (string * orderbook)) :=
  [("binance", [("BTC/USDT", book_of 101 102 1)]);
   ("bybit", [("BTC/USDT", book_of 99 100 1)])].

(** One venue with the three edges of BTC-ETH-USDT, priced so that
    BTC -> ETH -> USDT -> BTC returns 10% before fees. *)
Definition store_triangle : list (string * list (string * orderbook)) :=
  [("binance", [("BTC/USDT", book_of 39990 40000 1);
                ("ETH/BTC", book_of 0.0499 0.05 1);
                ("ETH/USDT", book_of 2200 2201 1)])].

(** A store whose only snapshot carries the timestamp 2000. *)
Definition store_stamped : list (string * list (string * orderbook)) :=
  [("binance", [("BTC/USDT", book_of 100 101 2000)])].

(** Tickers of one venue: fields present and numeric. *)
Definition ticker_of (quote_volume bid ask : float) : ticker :=
  {[ "quoteVolume" := PyNum quote_volume; "bid" := PyNum bid; "ask" := PyNum ask ]}.

(** BTC/USDT has a spread of exactly 0.5%, ETH/USDT too little volume,
    SOL/USDT a spread of 1%. *)
Definition tickers_binance : list (string * ticker) :=
  [("BTC/USDT", ticker_of 2000000 100 100.5);
   ("ETH/USDT", ticker_of 500000 100 100.1);
   ("SOL/USDT", ticker_of 2000000 100 101)].

Definition tickers_example : list (string * list (string * ticker)) :=
  [("binance", tickers_binance)].

Definition filtered_example : gmap string (gset string) :=
  {[ "binance" := {[ "BTC/USDT" ]} ]}.

(** ** The rest of the bot: fetching, refreshing, subscribing, stopping

    The handles of the venues ([self.exchanges_rest], [self.exchanges_pro])
    are not part of the bot record: what a handle answers, or the markets it
    lists, is an argument of the method that asks. *)

(** [__init__]: nothing filtered, no book, no ticker, running. *)
Definition new_bot (cfg : Config) : ArbitrageBot :=
  {| config := cfg; filtered_pairs := ∅; orderbooks := []; tickers := ∅;
     last_filter_time := 0%float; running := true |}.

Definition set_filtered_pairs (filtered : gmap string (gset string)) (now : float)
    (self : ArbitrageBot) : ArbitrageBot :=
  {| config := config self; filtered_pairs := filtered;
     orderbooks := orderbooks self; tickers := tickers self;
     last_filter_time := now; running := running self |}.

Definition set_running (r : bool) (self : ArbitrageBot) : ArbitrageBot :=
  {| config := config self; filtered_pairs := filtered_pairs self;
     orderbooks := orderbooks self; tickers := tickers self;
     last_filter_time := last_filter_time self; running := r |}.

(** [_safe_fetch_tickers], given what [ex.fetch_tickers()] answered: the
    tickers, or an empty dictionary when the call raised an [Exception] (one
    log line either way, not kept here). *)
Definition _safe_fetch_tickers (answer : outcome (list (string * ticker)))
    : outcome (list (string * ticker)) :=
  otry answer (λ _, Return []).

(** [fetch_all_tickers]: a task per venue of [self.exchanges_rest], then
    [results[name]] for every task, in their order. *)
Definition fetch_all_tickers
    (exchanges_rest : list (string * outcome (list (string * ticker))))
    : outcome (list (string * list (string * ticker))) :=
  let tasks :=
    foldl (λ tasks '(name, answer), pydict_set name (_safe_fetch_tickers answer) tasks)
          [] exchanges_rest in
  fold_items tasks [] (λ name task results,
    otry (tickers <-? task ;; Return (pydict_set name tickers results))
         (λ _, Return (pydict_set name [] results))).

(** One round of [refresh_filtered_pairs]: fetch, filter, replace
    [self.filtered_pairs], note the time ([now] is what [time.time()]
    answers).  An exception of the fetch or of the filter leaves the round
    before the two assignments.  Of the log lines only the one of the filter
    is kept. *)
Definition refresh_filtered_pairs_turn
    (exchanges_rest : list (string * outcome (list (string * ticker)))) (now : float)
    : M unit :=
  tickers <- lift (fetch_all_tickers exchanges_rest) ;;
  filtered <- filter_pairs_by_liquidity tickers ;;
  self <- get_self ;;
  put_self (set_filtered_pairs filtered now self).

(** The warnings of [watch_order_books]. *)
Inductive watch_log : Type :=
  | LogNoPairs (exchange_name : string)
  | LogNotInMarkets (symbol exchange_name : string)
  | LogNoTasks.

(** The inner loop of [watch_order_books] over the filtered pairs of one
    venue, [markets] being the symbols of [pro_ex.markets]. *)
Fixpoint watch_pairs (exchange_name : string) (markets : gset string) (pairs : list string)
    : list (string * string) * list watch_log :=
  match pairs with
  | [] => ([], [])
  | symbol :: rest =>
      let '(tasks, log) := watch_pairs exchange_name markets rest in
      if bool_decide (symbol ∈ markets)
      then ((exchange_name, symbol) :: tasks, log)
      else (tasks, LogNotInMarkets symbol exchange_name :: log)
  end.

(** The outer loop of [watch_order_books]. *)
Fixpoint watch_exchanges (exchanges_pro : list (string * gset string)) (self : ArbitrageBot)
    : list (string * string) * list watch_log :=
  match exchanges_pro with
  | [] => ([], [])
  | (exchange_name, markets) :: rest =>
      let pairs := filtered_get exchange_name (filtered_pairs self) in
      let '(tasks, log) := watch_exchanges rest self in
      if bool_decide (pairs = ∅)
      then (tasks, LogNoPairs exchange_name :: log)
      else
        let '(tasks', log') := watch_pairs exchange_name markets (elements pairs) in
        (tasks' ++ tasks, log' ++ log)
  end.

(** [watch_order_books] up to [asyncio.gather]: the [_watch_book] tasks it
    builds, as (venue, symbol), and what it logs. *)
Definition watch_order_books (exchanges_pro : list (string * gset string))
    (self : ArbitrageBot) : list (string * string) * list watch_log :=
  let '(tasks, log) := watch_exchanges exchanges_pro self in
  match tasks with
  | [] => (tasks, log ++ [LogNoTasks])
  | _ => (tasks, log)
  end.

(** One round of [triangle_loop] over the venues of [self.exchanges_pro]. *)
Definition triangle_loop_turn (exchanges_pro : list string) : M unit :=
  for_ exchanges_pro detect_triangular_opportunities.

(** [shutdown], up to the closing of the handles. *)
Definition shutdown : M unit :=
  self <- get_self ;;
  put_self (set_running false self).

(** A store as a [dict] of [dict]s has it: no venue twice, no symbol twice
    under a venue. *)
Definition store_wf (obs : list (string * list (string * orderbook))) : Prop :=
  NoDup (pydict_keys obs) ∧ Forall (λ entry, NoDup (pydict_keys entry.2)) obs.

(** ** More concrete inputs *)

(** Kraken's handle raised; Binance answered. *)
Definition answers_example : list (string * outcome (list (string * ticker))) :=
  [("binance", Return [("BTC/USDT", ticker_of 2000000 100 100.5);
                       ("ETH/USDT", ticker_of 500000 100 100.1)]);
   ("kraken", Raise StreamError)].

(** The tickers of the example for Binance, and tickers of Kraken. *)
Definition tickers_two_venues : list (string * list (string * ticker)) :=
  [("binance", tickers_binance);
   ("kraken", [("BTC/USD", ticker_of 3000000 100 100.2)])].

(** The same tickers, the venues and the symbols of Binance inserted in
    another order. *)
Definition tickers_two_venues_reordered : list (string * list (string * ticker)) :=
  [("kraken", [("BTC/USD", ticker_of 3000000 100 100.2)]);
   ("binance", [("SOL/USDT", ticker_of 2000000 100 101);
                ("BTC/USDT", ticker_of 2000000 100 100.5);
                ("ETH/USDT", ticker_of 500000 100 100.1)])].

Definition filtered_two_venues : gmap string (gset string) :=
  {[ "binance" := {[ "BTC/USDT" ]}; "kraken" := {[ "BTC/USD" ]} ]}.

(** Two venues with the symbols of their markets, and a bot whose filtered
    pairs are those of the two venues. *)
Definition exchanges_pro_example : list (string * gset string) :=
  [("binance", {[ "BTC/USDT"; "ETH/USDT" ]}); ("kraken", {[ "ETH/USD" ]})].

Definition bot_filtered : ArbitrageBot :=
  set_filtered_pairs filtered_two_venues 0%float (bot_of CONFIG []).

(** Binance answers with a symbol that does not unpack. *)
Definition answers_malformed : list (string * outcome (list (string * ticker))) :=
  [("binance", Return [("A/B/C", ticker_of 2000000 100 100.5)]);
   ("kraken", Return [("BTC/USD", ticker_of 3000000 100 100.2)])].

(** A symbol that does not unpack, with a numeric volume. *)
Definition tickers_malformed : list (string * list (string * ticker)) :=
  [("binance", [("BTC/USDT", ticker_of 2000000 100 100.5);
                ("A/B/C", ticker_of 2000000 100 100.5)])].

(** A symbol that does not unpack and a bid that is not a number, in the
    two orders of insertion. *)
Definition tickers_two_faults : list (string * list (string * ticker)) :=
  [("binance", [("A/B/C", ticker_of 2000000 100 100.5);
                ("ZZZ/USDT", {[ "quoteVolume" := PyNum 2000000; "bid" := PyStr "x";
                                "ask" := PyNum 100.5 ]})])].

Definition tickers_two_faults_reordered : list (string * list (string * ticker)) :=
  [("binance", [("ZZZ/USDT", {[ "quoteVolume" := PyNum 2000000; "bid" := PyStr "x";
                                "ask" := PyNum 100.5 ]});
                ("A/B/C", ticker_of 2000000 100 100.5)])].

(** A venue holding three books, one under a symbol that does not unpack. *)
Definition store_malformed : list (string * list (string * orderbook)) :=
  [("binance", [("BTC/USDT", book_of 39990 40000 1);
                ("ETH/BTC", book_of 0.0499 0.05 1);
                ("A/B/C", book_of 1 2 1)])].

(** The later venue asks 0. *)
Definition store_zero_ask : list (string * list (string * orderbook)) :=
  [("binance", [("BTC/USDT", book_of 101 102 1)]);
   ("kraken", [("BTC/USDT", book_of 0 0 1)])].

(** * Properties *)

(** ** Comparisons of floats *)

Section float_order.

Lemma SFcompare_swap (x y : spec_float) :
  SFcompare y x = CompOpp <$> SFcompare x y.
Proof.
  destruct x as [sx|sx| |sx mx ex], y as [sy|sy| |sy my ey]; simpl;
    try reflexivity;
    try (destruct sx; reflexivity); try (destruct sy; reflexivity);
    try (destruct sx, sy; reflexivity).
  pose proof (Pos.compare_cont_antisym mx my Eq) as Hm. simpl in Hm.
  destruct sx, sy; simpl; try reflexivity;
    rewrite (Z.compare_antisym ex ey); destruct (ex ?= ey)%Z; simpl;
    try reflexivity; by rewrite <- Hm.
Qed.

(** [x == y] rules out [y > x]. *)
Lemma float_eqb_not_gt (x y : float) :
  PrimFloat.eqb x y = true → PrimFloat.ltb y x = false.
Proof.
  rewrite FloatAxioms.eqb_spec, FloatAxioms.ltb_spec. unfold SFeqb, SFltb.
  rewrite (SFcompare_swap (Prim2SF x) (Prim2SF y)).
  by destruct (SFcompare (Prim2SF x) (Prim2SF y)) as [[]|].
Qed.

(** [x <= y] rules out [y < x]. *)
Lemma float_leb_not_gt (x y : float) :
  PrimFloat.leb x y = true → PrimFloat.ltb y x = false.
Proof.
  rewrite FloatAxioms.leb_spec, FloatAxioms.ltb_spec. unfold SFleb, SFltb.
  rewrite (SFcompare_swap (Prim2SF x) (Prim2SF y)).
  by destruct (SFcompare (Prim2SF x) (Prim2SF y)) as [[]|].
Qed.

(** [x == y] gives [x <= y]. *)
Lemma float_eqb_leb (x y : float) :
  PrimFloat.eqb x y = true → PrimFloat.leb x y = true.
Proof.
  rewrite FloatAxioms.eqb_spec, FloatAxioms.leb_spec. unfold SFeqb, SFleb.
  by destruct (SFcompare (Prim2SF x) (Prim2SF y)) as [[]|].
Qed.

(** [y < x] rules out [x == y]. *)
Lemma float_ltb_not_eqb (x y : float) :
  PrimFloat.ltb y x = true → PrimFloat.eqb x y = false.
Proof.
  intros H. destruct (PrimFloat.eqb x y) eqn:E; [|done].
  apply float_eqb_not_gt in E. congruence.
Qed.

(** Division by a number that is not [<= 0] does not raise. *)
Lemma py_div_pos (x y : float) :
  PrimFloat.leb y 0 = false → py_div x y = Return (x / y)%float.
Proof.
  intros H. unfold py_div.
  destruct (PrimFloat.eqb y 0) eqn:E; [|done].
  apply float_eqb_leb in E. congruence.
Qed.

Lemma py_div_gt (x y : float) :
  PrimFloat.ltb 0 y = true → py_div x y = Return (x / y)%float.
Proof.
  intros H. unfold py_div. by rewrite (float_ltb_not_eqb _ _ H).
Qed.

End float_order.

(** ** Runs of loops *)

Section loops.
Context {A : Type}.
Implicit Types (xs : list A) (body : A → M unit) (s : ArbitrageBot).

Lemma for_cons x xs body s :
  for_ (x :: xs) body s =
    match body x s with
    | (Return _, s', log) =>
        let '(r, s'', log') := for_ xs body s' in (r, s'', log ++ log')
    | (Raise e, s', log) => (Raise e, s', log)
    end.
Proof.
  simpl. unfold bind. by destruct (body x s) as [[[[]|e] s'] log].
Qed.

(** An invariant of every turn is an invariant of the loop. *)
Lemma for_state_inv (I : ArbitrageBot → Prop) xs body :
  (∀ x s, x ∈ xs → I s → I (state_of (body x s))) →
  ∀ s, I s → I (state_of (for_ xs body s)).
Proof.
  induction xs as [|x xs IH]; intros Hbody s Hs; [done|].
  rewrite for_cons.
  pose proof (Hbody x s ltac:(left) Hs) as Hx.
  destruct (body x s) as [[[[]|e] s'] log]; [|done].
  unfold state_of in Hx; simpl in Hx.
  assert (I (state_of (for_ xs body s'))) as Hrest.
  { apply IH; [|done]. intros y t Hy. apply Hbody. by right. }
  by destruct (for_ xs body s') as [[r s''] log'].
Qed.

(** A loop raises only what one of its turns raises. *)
Lemma for_raises (P : exn → Prop) xs body :
  (∀ x s e, x ∈ xs → result_of (body x s) = Raise e → P e) →
  ∀ s e, result_of (for_ xs body s) = Raise e → P e.
Proof.
  induction xs as [|x xs IH]; intros Hbody s e; [done|].
  rewrite for_cons.
  pose proof (Hbody x s) as Hx.
  destruct (body x s) as [[[[]|e'] s'] log].
  - intros Hres.
    apply (IH (λ y t e0 Hy, Hbody y t e0 (list_elem_of_further _ _ _ Hy)) s' e).
    by destruct (for_ xs body s') as [[r s''] log'].
  - intros [= <-]. by apply Hx; [left|].
Qed.

(** Every event of a loop is an event of one of its turns. *)
Lemma for_elem_inv (I : ArbitrageBot → Prop) xs body :
  (∀ x s, x ∈ xs → I s → I (state_of (body x s))) →
  ∀ s ev, I s → ev ∈ trace_of (for_ xs body s) →
  ∃ x s', x ∈ xs ∧ I s' ∧ ev ∈ trace_of (body x s').
Proof.
  induction xs as [|x xs IH]; intros Hbody s ev Hs Hev.
  { by apply elem_of_nil in Hev. }
  rewrite for_cons in Hev.
  pose proof (Hbody x s ltac:(left) Hs) as Hx.
  destruct (body x s) as [[[[]|e] s'] log] eqn:Hrun.
  - unfold state_of in Hx; simpl in Hx.
    destruct (for_ xs body s') as [[r s''] log'] eqn:Hrest.
    unfold trace_of in Hev; simpl in Hev.
    apply elem_of_app in Hev as [Hev|Hev].
    + exists x, s. rewrite Hrun. split_and!; [left|done..].
    + destruct (IH (λ y t Hy, Hbody y t (list_elem_of_further _ _ _ Hy)) s' ev Hx)
        as (y & t & Hy & Ht & Hin).
      { by rewrite Hrest. }
      exists y, t. split_and!; [by right|done..].
  - exists x, s. rewrite Hrun. split_and!; [left|done..].
Qed.

(** The events of a loop, read through [g], come turn by turn. *)
Lemma for_trace_sublist {T : Type} (g : event → option T) (F : A → list T) xs body :
  (∀ x s, x ∈ xs → omap g (trace_of (body x s)) `sublist_of` F x) →
  ∀ s, omap g (trace_of (for_ xs body s)) `sublist_of` xs ≫= F.
Proof.
  induction xs as [|x xs IH]; intros Hbody s; [done|].
  rewrite for_cons.
  pose proof (Hbody x s ltac:(left)) as Hx.
  destruct (body x s) as [[[[]|e] s'] log].
  - pose proof (IH (λ y t Hy, Hbody y t (list_elem_of_further _ _ _ Hy)) s') as Hrest.
    destruct (for_ xs body s') as [[r s''] log'].
    unfold trace_of in *; simpl in *. rewrite omap_app. by apply sublist_app.
  - unfold trace_of in *; simpl in *.
    rewrite <- (app_nil_r (omap g log)). apply sublist_app; [done|apply sublist_nil_l].
Qed.
End loops.

(** ** The pairwise detector *)

Section pairwise.
Implicit Types (self s : ArbitrageBot) (symbol : string).

(** The simulated trade never raises: its one division is guarded. *)
Lemma profit_net_pct_returns (ask_b bid_a fee_buy fee_sell amount : float) :
  ∃ net, profit_net_pct ask_b bid_a fee_buy fee_sell amount = Return net.
Proof.
  unfold profit_net_pct.
  destruct (PrimFloat.ltb 0 _) eqn:Hcost; [|by eexists].
  rewrite (py_div_gt _ _ Hcost). by eexists.
Qed.

Lemma profit_net_pct_formula (ask_b bid_a fee_buy fee_sell amount net : float) :
  profit_net_pct ask_b bid_a fee_buy fee_sell amount = Return net →
  let cost := (ask_b * amount * (1 + fee_buy))%float in
  let revenue := (bid_a * amount * (1 - fee_sell))%float in
  (PrimFloat.ltb 0 cost = true → net = ((revenue - cost) / cost * 100)%float) ∧
  (PrimFloat.leb cost 0 = true → net = 0%float).
Proof.
  unfold profit_net_pct. cbv zeta. intros Hnet. split.
  - intros Hcost. rewrite Hcost, (py_div_gt _ _ Hcost) in Hnet.
    simpl in Hnet. congruence.
  - intros Hcost. rewrite (float_leb_not_gt _ _ Hcost) in Hnet. congruence.
Qed.

(** A comparison of two books never changes the bot. *)
Lemma compare_books_state symbol a b s :
  state_of (compare_books symbol a b s) = s.
Proof.
  destruct a as [ex_a book_a], b as [ex_b book_b]. unfold compare_books.
  destruct (bids book_a) as [|[bid_a ?] ?]; [done|].
  destruct (asks book_b) as [|[ask_b ?] ?]; [done|].
  destruct (PrimFloat.ltb ask_b bid_a); [|done].
  unfold bind, lift, get_self, emit, execute_arbitrage, ret, state_of; simpl.
  destruct (py_div _ ask_b); simpl; [|done].
  destruct (profit_net_pct _ _ _ _ _); simpl; [|done].
  by destruct (PrimFloat.leb _ _).
Qed.

(** A comparison raises nothing but the division by an ask of zero. *)
Lemma compare_books_raises symbol a b s e :
  result_of (compare_books symbol a b s) = Raise e → e = ZeroDivisionError.
Proof.
  destruct a as [ex_a book_a], b as [ex_b book_b]. unfold compare_books.
  destruct (bids book_a) as [|[bid_a ?] ?]; [done|].
  destruct (asks book_b) as [|[ask_b ?] ?]; [done|].
  destruct (PrimFloat.ltb ask_b bid_a); [|done].
  unfold bind, lift, get_self, emit, execute_arbitrage, ret, result_of, py_div; simpl.
  destruct (PrimFloat.eqb ask_b 0); simpl; [by intros [= <-]|].
  destruct (profit_net_pct_returns ask_b bid_a (fee_of ex_b) (fee_of ex_a)
              (trade_amount_btc (config s))) as [net ->]. simpl.
  by destruct (PrimFloat.leb _ net).
Qed.

(** What a comparison of two books can emit, and when. *)
Lemma compare_books_events symbol ex_a book_a ex_b book_b s ev :
  ev ∈ trace_of (compare_books symbol (ex_a, book_a) (ex_b, book_b) s) →
  ∃ bid_a ask_b net gross,
    best_bid book_a = Some bid_a ∧ best_ask book_b = Some ask_b ∧
    PrimFloat.ltb ask_b bid_a = true ∧
    profit_net_pct ask_b bid_a (fee_of ex_b) (fee_of ex_a)
      (trade_amount_btc (config s)) = Return net ∧
    PrimFloat.leb (arbitrage_min_profit_percent (config s)) net = true ∧
    trace_of (compare_books symbol (ex_a, book_a) (ex_b, book_b) s) =
      [LogOpportunity symbol ex_b ask_b ex_a bid_a net gross;
       ExecuteArbitrage ex_b ex_a symbol "buy" "sell" ask_b bid_a
         (trade_amount_btc (config s))].
Proof.
  unfold compare_books, best_bid, best_ask.
  destruct (bids book_a) as [|[bid_a ?] ?]; [by intros ?%elem_of_nil|].
  destruct (asks book_b) as [|[ask_b ?] ?]; [by intros ?%elem_of_nil|].
  destruct (PrimFloat.ltb ask_b bid_a) eqn:Hgt; [|by intros ?%elem_of_nil].
  unfold bind, lift, get_self, emit, execute_arbitrage, ret, trace_of; simpl.
  destruct (py_div _ ask_b) as [q|e]; simpl; [|by intros ?%elem_of_nil].
  destruct (profit_net_pct _ _ _ _ _) as [net|e] eqn:Hnet; simpl;
    [|by intros ?%elem_of_nil].
  destruct (PrimFloat.leb _ net) eqn:Hmin; simpl; [|by intros ?%elem_of_nil].
  intros _. by exists bid_a, ask_b, net, (q * 100)%float.
Qed.
End pairwise.

(** ** Equations of the monad *)

Section monad_equations.
Context {A B : Type}.

Lemma bind_get_self (f : ArbitrageBot → M B) s : bind get_self f s = f s s.
Proof. unfold bind, get_self. by destruct (f s s) as [[r s'] log]. Qed.

Lemma bind_ret (a : A) (f : A → M B) s : bind (ret a) f s = f a s.
Proof. unfold bind, ret. by destruct (f a s) as [[r s'] log]. Qed.

Lemma bind_lift_return (a : A) (f : A → M B) s : bind (lift (Return a)) f s = f a s.
Proof. unfold bind, lift. by destruct (f a s) as [[r s'] log]. Qed.

Lemma bind_lift_raise (e : exn) (f : A → M B) s :
  bind (lift (Raise e)) f s = (Raise e, s, []).
Proof. done. Qed.

Lemma bind_put_self (s' : ArbitrageBot) (f : unit → M B) s :
  bind (put_self s') f s = f tt s'.
Proof. unfold bind, put_self. by destruct (f tt s') as [[r s''] log]. Qed.
End monad_equations.

Section pairwise_detector.
Implicit Types (self s : ArbitrageBot) (symbol : string).

Lemma books_for_spec symbol obs ex book :
  (ex, book) ∈ books_for symbol obs ↔
  ∃ ex_books, (ex, ex_books) ∈ obs ∧ pydict_get symbol ex_books = Some book.
Proof.
  unfold books_for. rewrite list_elem_of_omap. split.
  - intros ([ex' ex_books] & Hin & Hget).
    destruct (pydict_get symbol ex_books) as [book'|] eqn:Hbook; simplify_eq/=.
    by exists ex_books.
  - intros (ex_books & Hin & Hget). exists (ex, ex_books). by rewrite Hget.
Qed.

Lemma books_for_length symbol obs :
  length (books_for symbol obs) =
  length (filter (λ entry, is_Some (pydict_get symbol entry.2)) obs).
Proof.
  unfold books_for. induction obs as [|[ex ex_books] obs IH]; [done|].
  rewrite filter_cons. simpl.
  destruct (pydict_get symbol ex_books) as [book|] eqn:Hbook; simpl.
  - f_equal. exact IH.
  - exact IH.
Qed.

(** Detection reads the bot and leaves it as it is. *)
Lemma detect_opportunities_state symbol s :
  state_of (detect_opportunities_for_symbol symbol s) = s.
Proof.
  unfold detect_opportunities_for_symbol. rewrite bind_get_self.
  destruct (Nat.ltb _ 2); [done|].
  apply (for_state_inv (λ s', s' = s)); [|done].
  intros [i a] s' _ ->.
  apply (for_state_inv (λ s', s' = s)); [|done].
  intros b s' _ ->. apply compare_books_state.
Qed.

(** A detection raises nothing but [ZeroDivisionError], which is an
    [Exception]. *)
Lemma detect_opportunities_raises symbol s e :
  result_of (detect_opportunities_for_symbol symbol s) = Raise e → e = ZeroDivisionError.
Proof.
  unfold detect_opportunities_for_symbol. rewrite bind_get_self.
  destruct (Nat.ltb _ 2); [done|].
  apply (for_raises (λ e, e = ZeroDivisionError)).
  intros [i a] s' e' _. apply (for_raises (λ e, e = ZeroDivisionError)).
  intros b s'' e'' _. apply compare_books_raises.
Qed.

(** Every event of a detection comes from comparing the book of a venue
    with the book of a venue stored after it. *)
Lemma detect_opportunities_events symbol s ev :
  ev ∈ trace_of (detect_opportunities_for_symbol symbol s) →
  ∃ i j a b,
    books_for symbol (orderbooks s) !! i = Some a ∧
    books_for symbol (orderbooks s) !! j = Some b ∧ i < j ∧
    ev ∈ trace_of (compare_books symbol a b s).
Proof.
  unfold detect_opportunities_for_symbol. rewrite bind_get_self.
  destruct (Nat.ltb _ 2); [by intros ?%elem_of_nil|].
  intros Hev.
  apply (for_elem_inv (λ s', s' = s)) in Hev as ([i a] & ? & Hia & -> & Hev);
    [|intros [i a] s' _ ->;
      apply (for_state_inv (λ s', s' = s)); [|done];
      intros b s' _ ->; apply compare_books_state
     |done].
  apply (for_elem_inv (λ s', s' = s)) in Hev as (b & ? & Hb & -> & Hev);
    [|intros b' s' _ ->; apply compare_books_state|done].
  apply elem_of_lookup_imap in Hia as (i' & a' & [= <- <-] & Hi).
  apply list_elem_of_lookup in Hb as [k Hk]. rewrite lookup_drop in Hk.
  exists i, (S i + k), a, b. split_and!; [done..|lia|done].
Qed.
End pairwise_detector.

(** * The claims *)

(** C9. When fewer than two venues hold an order book for the symbol, the
    pairwise detector returns at once: it emits nothing, dispatches nothing
    and leaves the whole bot (order books, filtered pairs, everything else)
    as it was. *)
Theorem detect_no_effect_below_two_venues (self : ArbitrageBot) (symbol : string) :
  length (filter (λ entry, is_Some (pydict_get symbol entry.2)) (orderbooks self)) < 2 →
  detect_opportunities_for_symbol symbol self = (Return tt, self, []).
Proof.
  intros Hfew. unfold detect_opportunities_for_symbol. rewrite bind_get_self.
  rewrite <- books_for_length in Hfew.
  by apply Nat.ltb_lt in Hfew as ->.
Qed.

Lemma detect_no_effect_below_two_venues_witness :
  detect_opportunities_for_symbol "BTC/USDT" (bot_of CONFIG store_triangle)
  = (Return tt, bot_of CONFIG store_triangle, []).
Proof.
  apply (detect_no_effect_below_two_venues (bot_of CONFIG store_triangle) "BTC/USDT").
  vm_compute. lia.
Defined.

(** C10. Whenever the pairwise detector calls [execute_arbitrage], the venue
    sold on and the venue bought on both hold a book for the symbol, the
    bid side of the first and the ask side of the second are not empty, the
    best bid sold at is strictly above the best ask bought at, and the net
    profit computed for the trade is at least the configured minimum. *)
Theorem dispatched_trade_is_profitable (self : ArbitrageBot)
    (symbol exchange_buy exchange_sell sym side_buy side_sell : string)
    (price_buy price_sell amount : float) :
  ExecuteArbitrage exchange_buy exchange_sell sym side_buy side_sell
      price_buy price_sell amount
    ∈ trace_of (detect_opportunities_for_symbol symbol self) →
  ∃ books_buy books_sell book_buy book_sell net,
    (exchange_buy, books_buy) ∈ orderbooks self ∧
    pydict_get symbol books_buy = Some book_buy ∧
    (exchange_sell, books_sell) ∈ orderbooks self ∧
    pydict_get symbol books_sell = Some book_sell ∧
    best_ask book_buy = Some price_buy ∧
    best_bid book_sell = Some price_sell ∧
    PrimFloat.ltb price_buy price_sell = true ∧
    profit_net_pct price_buy price_sell (fee_of exchange_buy) (fee_of exchange_sell)
      (trade_amount_btc (config self)) = Return net ∧
    PrimFloat.leb (arbitrage_min_profit_percent (config self)) net = true.
Proof.
  intros Hev.
  apply detect_opportunities_events in Hev
    as (i & j & [ex_a book_a] & [ex_b book_b] & Ha & Hb & _ & Hev).
  pose proof Hev as Hin.
  apply compare_books_events in Hev
    as (bid_a & ask_b & net & gross & Hbid & Hask & Hgt & Hnet & Hmin & Htrace).
  rewrite Htrace in Hin.
  apply elem_of_cons in Hin as [?|Hin]; [done|].
  apply list_elem_of_singleton in Hin.
  injection Hin as -> -> -> -> -> -> -> ->.
  apply list_elem_of_lookup_2, books_for_spec in Ha as (books_a & ? & ?).
  apply list_elem_of_lookup_2, books_for_spec in Hb as (books_b & ? & ?).
  by exists books_b, books_a, book_b, book_a, net.
Qed.

Lemma dispatched_trade_is_profitable_witness :
  ∃ books_buy books_sell book_buy book_sell net,
    ("bybit", books_buy) ∈ store_example ∧
    pydict_get "BTC/USDT" books_buy = Some book_buy ∧
    ("binance", books_sell) ∈ store_example ∧
    pydict_get "BTC/USDT" books_sell = Some book_sell ∧
    best_ask book_buy = Some 100%float ∧
    best_bid book_sell = Some 101%float ∧
    PrimFloat.ltb 100 101 = true ∧
    profit_net_pct 100 101 (fee_of "bybit") (fee_of "binance") 0.01 = Return net ∧
    PrimFloat.leb 0.2 net = true.
Proof.
  apply (dispatched_trade_is_profitable (bot_of CONFIG store_example)
           "BTC/USDT" "bybit" "binance" "BTC/USDT" "buy" "sell" 100 101 0.01).
  vm_compute. right. left.
Defined.

(** C4. The net profit in percent of the pairwise detector is computed,
    without raising, from cost = ask x amount x (1 + fee of the buying
    venue) and revenue = bid x amount x (1 - fee of the selling venue) as
    (revenue - cost) / cost x 100, and is 0 when cost <= 0; the value the
    detector reports with an opportunity is that one.  On the worked
    example (bid 101 on A, ask 100 on B, 0.1% on both, amount 0.01) the cost
    is 1.001, the revenue 1.00899 and the net profit 0.7982...%, within
    0.001 of 0.799; with a minimum of 0.2% the opportunity is reported and
    dispatched, with a minimum of 1% nothing is. *)
Theorem pairwise_net_profit :
  (∀ ask_b bid_a fee_buy fee_sell amount : float,
     let cost := (ask_b * amount * (1 + fee_buy))%float in
     let revenue := (bid_a * amount * (1 - fee_sell))%float in
     ∃ net, profit_net_pct ask_b bid_a fee_buy fee_sell amount = Return net ∧
       (PrimFloat.ltb 0 cost = true → net = ((revenue - cost) / cost * 100)%float) ∧
       (PrimFloat.leb cost 0 = true → net = 0%float)) ∧
  (∀ (self : ArbitrageBot) (symbol sym ex_b ex_a : string)
     (ask_b bid_a net gross : float),
     LogOpportunity sym ex_b ask_b ex_a bid_a net gross
       ∈ trace_of (detect_opportunities_for_symbol symbol self) →
     let amount := trade_amount_btc (config self) in
     let cost := (ask_b * amount * (1 + fee_of ex_b))%float in
     let revenue := (bid_a * amount * (1 - fee_of ex_a))%float in
     (PrimFloat.ltb 0 cost = true → net = ((revenue - cost) / cost * 100)%float) ∧
     (PrimFloat.leb cost 0 = true → net = 0%float)) ∧
  (let net := ((1.00899 - 1.001) / 1.001 * 100)%float in
   fee_of "binance" = 0.001%float ∧ fee_of "bybit" = 0.001%float ∧
   (100 * 0.01 * (1 + fee_of "bybit"))%float = 1.001%float ∧
   (101 * 0.01 * (1 - fee_of "binance"))%float = 1.00899%float ∧
   profit_net_pct 100 101 (fee_of "bybit") (fee_of "binance") 0.01 = Return net ∧
   PrimFloat.ltb (abs (net - 0.799)) 0.001 = true ∧
   trace_of (detect_opportunities_for_symbol "BTC/USDT"
               (bot_of (with_min_profit 0.2 CONFIG) store_example))
   = [LogOpportunity "BTC/USDT" "bybit" 100 "binance" 101 net 1;
      ExecuteArbitrage "bybit" "binance" "BTC/USDT" "buy" "sell" 100 101 0.01] ∧
   trace_of (detect_opportunities_for_symbol "BTC/USDT"
               (bot_of (with_min_profit 1 CONFIG) store_example))
   = []).
Proof.
  split_and!.
  - intros ask_b bid_a fee_buy fee_sell amount.
    destruct (profit_net_pct_returns ask_b bid_a fee_buy fee_sell amount) as [net Hnet].
    exists net. split; [done|]. by apply profit_net_pct_formula.
  - intros self symbol sym ex_b ex_a ask_b bid_a net gross Hev.
    apply detect_opportunities_events in Hev
      as (i & j & [ex_a' book_a] & [ex_b' book_b] & _ & _ & _ & Hev).
    pose proof Hev as Hin.
    apply compare_books_events in Hev
      as (bid_a' & ask_b' & net' & gross' & _ & _ & _ & Hnet & _ & Htrace).
    rewrite Htrace in Hin.
    apply elem_of_cons in Hin as [H|Hin];
      [|by apply list_elem_of_singleton in Hin].
    injection H as -> -> -> -> -> -> ->. by apply profit_net_pct_formula.
  - vm_compute. by repeat split.
Qed.

Lemma pairwise_net_profit_witness :
  let cost := (100 * 0.01 * (1 + fee_of "bybit"))%float in
  let revenue := (101 * 0.01 * (1 - fee_of "binance"))%float in
  (PrimFloat.ltb 0 cost = true →
   0.79820179820181469%float = ((revenue - cost) / cost * 100)%float) ∧
  (PrimFloat.leb cost 0 = true → 0.79820179820181469%float = 0%float).
Proof.
  apply (proj1 (proj2 pairwise_net_profit) (bot_of CONFIG store_example)
           "BTC/USDT" "BTC/USDT" "bybit" "binance" 100 101
           0.79820179820181469 1)%float.
  vm_compute. left.
Defined.

(** C2 (the source does not do this).  With Binance stored before Kraken,
    Kraken's best bid 110 is above Binance's best ask 100.5 and buying on
    Binance to sell on Kraken nets about 9.1%, far above the 0.2% minimum;
    the detector emits nothing, because it only compares the bid of the
    venue stored first with the ask of the venue stored later.  With the
    same books stored in the other order the opportunity is reported. *)
Theorem reverse_direction_is_not_tested :
  let self := bot_of CONFIG store_binance_then_kraken in
  let net := 9.1247061396315186%float in
  (get_book "kraken" "BTC/USDT" (orderbooks self) ≫= best_bid) = Some 110%float ∧
  (get_book "binance" "BTC/USDT" (orderbooks self) ≫= best_ask) = Some 100.5%float ∧
  PrimFloat.ltb 100.5 110 = true ∧
  profit_net_pct 100.5 110 (fee_of "binance") (fee_of "kraken")
    (trade_amount_btc (config self)) = Return net ∧
  PrimFloat.leb (arbitrage_min_profit_percent (config self)) net = true ∧
  detect_opportunities_for_symbol "BTC/USDT" self = (Return tt, self, []) ∧
  trace_of (detect_opportunities_for_symbol "BTC/USDT"
              (bot_of CONFIG store_kraken_then_binance))
  = [LogOpportunity "BTC/USDT" "binance" 100.5 "kraken" 110 net
       ((110 - 100.5) / 100.5 * 100)%float;
     ExecuteArbitrage "binance" "kraken" "BTC/USDT" "buy" "sell" 100.5 110 0.01].
Proof. vm_compute. by repeat split. Qed.

(** ** Splitting symbols *)

Section strings.
Implicit Types (sep : ascii) (s : string).

Lemma str_split_not_nil sep s : str_split sep s ≠ [].
Proof.
  destruct s as [|a s]; simpl; [done|].
  destruct (Ascii.eqb a sep); [done|]. by destruct (str_split sep s).
Qed.

(** Without separator there is one part, the string itself. *)
Lemma str_split_no_sep sep s :
  str_contains sep s = false → str_split sep s = [s].
Proof.
  induction s as [|a s IH]; simpl; [done|].
  destruct (Ascii.eqb a sep); [done|]. intros Hs. by rewrite IH.
Qed.

(** With a separator there are at least two parts. *)
Lemma str_split_sep sep s :
  str_contains sep s = true → (2 ≤ length (str_split sep s))%nat.
Proof.
  induction s as [|a s IH]; simpl; [done|].
  destruct (Ascii.eqb a sep).
  - intros _. pose proof (str_split_not_nil sep s).
    destruct (str_split sep s); simpl; [done|lia].
  - intros Hs. specialize (IH Hs). destruct (str_split sep s); simpl in *; lia.
Qed.

Lemma split_pair_Return symbol base quote :
  split_pair symbol = Return (base, quote) ↔ str_split slash symbol = [base; quote].
Proof.
  unfold split_pair.
  destruct (str_split slash symbol) as [|b [|q [|??]]]; split; intros; by simplify_eq.
Qed.

Lemma str_split_pair_contains symbol base quote :
  str_split slash symbol = [base; quote] → str_contains slash symbol = true.
Proof.
  intros Hsplit. destruct (str_contains slash symbol) eqn:Hc; [done|].
  apply str_split_no_sep in Hc. congruence.
Qed.

(** A symbol with a slash and at most two parts unpacks. *)
Lemma split_pair_returns symbol :
  str_contains slash symbol = true →
  (length (str_split slash symbol) ≤ 2)%nat →
  ∃ base quote, split_pair symbol = Return (base, quote).
Proof.
  intros Hc%str_split_sep Hlen. unfold split_pair.
  destruct (str_split slash symbol) as [|b [|q [|??]]]; simpl in *; try lia.
  by exists b, q.
Qed.
End strings.

(** ** Dictionaries *)

Section dictionaries.
Context {V : Type}.
Implicit Types (d : list (string * V)) (k : string) (v : V).

Lemma pydict_get_None_keys k d : pydict_get k d = None → k ∉ pydict_keys d.
Proof.
  unfold pydict_keys. induction d as [|[k' v] d IH]; simpl.
  - intros _. apply not_elem_of_nil.
  - destruct (String.eqb k' k) eqn:Hk; [done|].
    apply String.eqb_neq in Hk. intros Hget. apply not_elem_of_cons. auto.
Qed.

Lemma pydict_get_elem k v d : pydict_get k d = Some v → (k, v) ∈ d.
Proof.
  induction d as [|[k' v'] d IH]; simpl; [done|].
  destruct (String.eqb k' k) eqn:Hk.
  - apply String.eqb_eq in Hk as ->. intros [= ->]. left.
  - intros Hget. right. auto.
Qed.

(** In a [dict] an item is what the lookup of its key gives. *)
Lemma pydict_elem_get k v d :
  NoDup (pydict_keys d) → (k, v) ∈ d → pydict_get k d = Some v.
Proof.
  unfold pydict_keys. induction d as [|[k' v'] d IH]; intros Hnodup Hin.
  { by apply elem_of_nil in Hin. }
  rewrite fmap_cons in Hnodup. apply NoDup_cons in Hnodup as [Hfresh Hnodup]. simpl.
  apply elem_of_cons in Hin as [[= <- <-]|Hin].
  - by rewrite String.eqb_refl.
  - destruct (String.eqb k' k) eqn:Hk; [|by apply IH].
    apply String.eqb_eq in Hk as ->. exfalso. apply Hfresh.
    apply list_elem_of_fmap. by exists (k, v).
Qed.

(** Writing a key that is not there puts it last. *)
Lemma pydict_set_fresh k v d :
  k ∉ pydict_keys d → pydict_set k v d = d ++ [(k, v)].
Proof.
  unfold pydict_keys. induction d as [|[k' v'] d IH]; intros Hfresh; [done|].
  rewrite fmap_cons in Hfresh. apply not_elem_of_cons in Hfresh as [Hne Hfresh].
  simpl in *. apply not_eq_sym, String.eqb_neq in Hne. rewrite Hne. by rewrite IH.
Qed.

Lemma same_dict_sym (eqv : V → V → Prop) d1 d2 :
  (∀ v1 v2, eqv v1 v2 → eqv v2 v1) → same_dict eqv d1 d2 → same_dict eqv d2 d1.
Proof. intros Hsym Hsame k. destruct (Hsame k); constructor; auto. Qed.
End dictionaries.

(** Lookups of the key [k] in concrete [dict]s, one key of theirs at a
    time. *)
Ltac lookup_cases k :=
  cbn [pydict_get];
  repeat match goal with
         | |- context [String.eqb ?a k] => destruct (String.eqb_spec a k) as [<-|]
         end;
  repeat match goal with
         | |- context [String.eqb ?a ?b] =>
             let r := eval vm_compute in (String.eqb a b) in
             change (String.eqb a b) with r
         end;
  cbn [pydict_get].

(** ** The liquidity filter *)

Section liquidity_filter.
Implicit Types (cfg : Config) (t : ticker) (symbol exchange : string).
Implicit Types (filtered : gmap string (gset string)).

Lemma ticker_get_Some key t v : t !! key = Some v → ticker_get key t = v.
Proof. unfold ticker_get. by intros ->. Qed.

(** What a ticker that reaches [filtered[exchange].add(symbol)] looks like. *)
Lemma passes_filters_true cfg symbol t :
  passes_filters cfg symbol t = Return true →
  ∃ quote_vol bid ask base quote,
    ticker_get "quoteVolume" t = PyNum quote_vol ∧
    ticker_get "bid" t = PyNum bid ∧ ticker_get "ask" t = PyNum ask ∧
    str_split slash symbol = [base; quote] ∧ quote ∈ quote_currencies cfg ∧
    PrimFloat.ltb quote_vol (min_volume_usd cfg) = false ∧
    PrimFloat.leb bid 0 = false ∧ PrimFloat.leb ask 0 = false ∧
    PrimFloat.ltb (max_spread_percent cfg) ((ask - bid) / bid * 100) = false.
Proof.
  unfold passes_filters.
  destruct (Nat.eqb (size t) 0); [done|].
  destruct (ticker_get "quoteVolume" t) as [|quote_vol|]; [done| |done].
  destruct (negb (str_contains slash symbol)); [done|].
  destruct (split_pair symbol) as [[base quote]|] eqn:Hsplit; simpl; [|done].
  apply split_pair_Return in Hsplit.
  destruct (bool_decide (quote ∈ quote_currencies cfg)) eqn:Hquote; simpl; [|done].
  apply bool_decide_eq_true_1 in Hquote.
  destruct (PrimFloat.ltb quote_vol _) eqn:Hvol; [done|].
  destruct (ticker_get "bid" t) as [|bid|]; [done| |];
    (destruct (ticker_get "ask" t) as [|ask|]; [done| |]); simpl; try done;
    try (by destruct (PrimFloat.leb bid 0)).
  destruct (PrimFloat.leb bid 0) eqn:Hbid; [done|].
  destruct (PrimFloat.leb ask 0) eqn:Hask; [done|].
  rewrite (py_div_pos _ _ Hbid). simpl.
  destruct (PrimFloat.ltb (max_spread_percent cfg) _) eqn:Hspread; [done|].
  intros _. by exists quote_vol, bid, ask, base, quote.
Qed.

(** The converse: such a ticker reaches the [add]. *)
Lemma passes_filters_accepts cfg symbol t quote_vol bid ask base quote :
  t !! "quoteVolume" = Some (PyNum quote_vol) →
  t !! "bid" = Some (PyNum bid) → t !! "ask" = Some (PyNum ask) →
  str_split slash symbol = [base; quote] → quote ∈ quote_currencies cfg →
  PrimFloat.ltb quote_vol (min_volume_usd cfg) = false →
  PrimFloat.leb bid 0 = false → PrimFloat.leb ask 0 = false →
  PrimFloat.ltb (max_spread_percent cfg) ((ask - bid) / bid * 100) = false →
  passes_filters cfg symbol t = Return true.
Proof.
  intros Hvol Hbid Hask Hsplit Hquote Hmin Hb Ha Hspread. unfold passes_filters.
  assert (size t ≠ 0) as Hsize.
  { intros ->%map_size_empty_inv. by rewrite lookup_empty in Hbid. }
  apply Nat.eqb_neq in Hsize. rewrite Hsize.
  rewrite (ticker_get_Some _ _ _ Hvol), (ticker_get_Some _ _ _ Hbid),
    (ticker_get_Some _ _ _ Hask).
  rewrite (str_split_pair_contains _ _ _ Hsplit). simpl.
  apply split_pair_Return in Hsplit. rewrite Hsplit. simpl.
  rewrite (bool_decide_eq_true_2 _ Hquote). simpl.
  rewrite Hmin, Hb, Ha, (py_div_pos _ _ Hb). simpl. by rewrite Hspread.
Qed.

(** On a well-formed ticker the checks do not raise. *)
Lemma passes_filters_returns cfg symbol t :
  well_formed_ticker symbol t = true → ∃ pass, passes_filters cfg symbol t = Return pass.
Proof.
  unfold well_formed_ticker, passes_filters.
  intros [[Hlen%Nat.leb_le Hbid%negb_true_iff]%andb_prop Hask%negb_true_iff]%andb_prop.
  destruct (Nat.eqb (size t) 0); [by eexists|].
  destruct (ticker_get "quoteVolume" t) as [|quote_vol|]; try by eexists.
  destruct (str_contains slash symbol) eqn:Hc; simpl; [|by eexists].
  destruct (split_pair_returns symbol Hc Hlen) as (base & quote & ->). simpl.
  destruct (negb _); [by eexists|].
  destruct (PrimFloat.ltb quote_vol _); [by eexists|].
  destruct (ticker_get "bid" t) as [|bid|]; [by eexists| |done].
  destruct (ticker_get "ask" t) as [|ask|]; [by eexists| |done]. simpl.
  destruct (PrimFloat.leb bid 0) eqn:Hb; [by eexists|].
  destruct (PrimFloat.leb ask 0); [by eexists|].
  rewrite (py_div_pos _ _ Hb). simpl.
  destruct (PrimFloat.ltb _ _); by eexists.
Qed.

Lemma add_pair_elem exchange symbol filtered ex sym :
  sym ∈ filtered_get ex (add_pair exchange symbol filtered) ↔
  (ex = exchange ∧ sym = symbol) ∨ sym ∈ filtered_get ex filtered.
Proof.
  unfold add_pair, filtered_get at 1.
  destruct (decide (exchange = ex)) as [->|Hne].
  - rewrite lookup_insert_eq. simpl. set_solver.
  - rewrite lookup_insert_ne by done. fold (filtered_get ex filtered). naive_solver.
Qed.
End liquidity_filter.

Section liquidity_filter_run.
Implicit Types (cfg : Config) (t : ticker) (symbol exchange : string).
Implicit Types (filtered : gmap string (gset string)).
Implicit Types (tickers : list (string * ticker)).
Implicit Types (all_tickers : list (string * list (string * ticker))).

(** The inner loop: the symbols of one venue. *)
Lemma filter_symbols_spec cfg exchange tickers filtered0 filtered :
  fold_items tickers filtered0 (λ symbol t filtered,
    pass <-? passes_filters cfg symbol t ;;
    Return (if pass then add_pair exchange symbol filtered else filtered))
  = Return filtered →
  ∀ ex sym,
    sym ∈ filtered_get ex filtered ↔
    sym ∈ filtered_get ex filtered0 ∨
    (ex = exchange ∧ ∃ t, (sym, t) ∈ tickers ∧ passes_filters cfg sym t = Return true).
Proof.
  revert filtered0.
  induction tickers as [|[symbol t] tickers IH]; intros filtered0 Hrun ex sym;
    simpl in Hrun.
  - injection Hrun as <-. split; [by left|].
    intros [?|(_ & t & Ht & _)]; [done|]. by apply elem_of_nil in Ht.
  - destruct (passes_filters cfg symbol t) as [pass|e] eqn:Hpass; simpl in Hrun; [|done].
    rewrite (IH _ Hrun). destruct pass.
    + rewrite add_pair_elem. split.
      * intros [[[-> ->]|?]|(-> & t' & Ht' & ?)].
        -- right. split; [done|]. exists t. split; [left|done].
        -- by left.
        -- right. split; [done|]. exists t'. split; [by right|done].
      * intros [?|(-> & t' & Ht' & ?)]; [by left; right|].
        apply elem_of_cons in Ht' as [[= -> ->]|Ht'].
        -- left. by left.
        -- right. eauto.
    + split.
      * intros [?|(-> & t' & Ht' & ?)]; [by left|].
        right. split; [done|]. exists t'. split; [by right|done].
      * intros [?|(-> & t' & Ht' & Hpass')]; [by left|].
        apply elem_of_cons in Ht' as [[= -> ->]|Ht']; [congruence|].
        right. eauto.
Qed.

(** The two loops, from the pairs already listed: a symbol is listed for a
    venue exactly when it was, or its ticker on that venue reaches the
    [add]. *)
Lemma filter_loops_spec_from cfg all_tickers filtered0 filtered :
  fold_items all_tickers filtered0 (λ exchange tickers filtered,
    fold_items tickers filtered (λ symbol t filtered,
      pass <-? passes_filters cfg symbol t ;;
      Return (if pass then add_pair exchange symbol filtered else filtered)))
  = Return filtered →
  ∀ exchange symbol,
    symbol ∈ filtered_get exchange filtered ↔
    symbol ∈ filtered_get exchange filtered0 ∨
    ∃ tickers t, (exchange, tickers) ∈ all_tickers ∧ (symbol, t) ∈ tickers ∧
                 passes_filters cfg symbol t = Return true.
Proof.
  revert filtered0.
  induction all_tickers as [|[ex tickers] all_tickers IH];
    intros filtered0 Hrun exchange symbol; simpl in Hrun.
  - injection Hrun as <-. split; [by left|].
    intros [?|(tickers & t & Hex & _)]; [done|]. by apply elem_of_nil in Hex.
  - destruct (fold_items tickers filtered0 _) as [acc|e] eqn:Hinner; simpl in Hrun; [|done].
    rewrite (IH _ Hrun), (filter_symbols_spec _ _ _ _ _ Hinner). split.
    + intros [[?|(-> & t & ? & ?)]|(tickers' & t & ? & ? & ?)].
      * by left.
      * right. exists tickers, t. split_and!; [left|done..].
      * right. exists tickers', t. split_and!; [by right|done..].
    + intros [?|(tickers' & t & Hex & ? & ?)]; [by left; left|].
      apply elem_of_cons in Hex as [[= -> ->]|Hex].
      * left. right. eauto.
      * right. eauto.
Qed.

Lemma filter_loops_spec cfg all_tickers filtered :
  fold_items all_tickers ∅ (λ exchange tickers filtered,
    fold_items tickers filtered (λ symbol t filtered,
      pass <-? passes_filters cfg symbol t ;;
      Return (if pass then add_pair exchange symbol filtered else filtered)))
  = Return filtered →
  ∀ exchange symbol,
    symbol ∈ filtered_get exchange filtered ↔
    ∃ tickers t, (exchange, tickers) ∈ all_tickers ∧ (symbol, t) ∈ tickers ∧
                 passes_filters cfg symbol t = Return true.
Proof.
  intros Hrun exchange symbol. rewrite (filter_loops_spec_from _ _ _ _ Hrun).
  unfold filtered_get at 1. rewrite lookup_empty. simpl. split; [|by right].
  intros [Hin|?]; [|done]. by apply not_elem_of_empty in Hin.
Qed.

(** The loops run to their end when no check raises, and only then. *)
Lemma filter_symbols_return cfg exchange tickers filtered0 :
  (∀ symbol t, (symbol, t) ∈ tickers → ∃ pass, passes_filters cfg symbol t = Return pass) →
  ∃ filtered,
    fold_items tickers filtered0 (λ symbol t filtered,
      pass <-? passes_filters cfg symbol t ;;
      Return (if pass then add_pair exchange symbol filtered else filtered))
    = Return filtered.
Proof.
  revert filtered0.
  induction tickers as [|[symbol t] tickers IH]; intros filtered0 Hall; simpl;
    [by eexists|].
  destruct (Hall symbol t ltac:(left)) as [pass ->]. simpl.
  apply IH. intros sym t' Hin. apply Hall. by right.
Qed.

Lemma filter_loops_return_from cfg all_tickers filtered0 :
  (∀ exchange tickers symbol t,
     (exchange, tickers) ∈ all_tickers → (symbol, t) ∈ tickers →
     ∃ pass, passes_filters cfg symbol t = Return pass) →
  ∃ filtered,
    fold_items all_tickers filtered0 (λ exchange tickers filtered,
      fold_items tickers filtered (λ symbol t filtered,
        pass <-? passes_filters cfg symbol t ;;
        Return (if pass then add_pair exchange symbol filtered else filtered)))
    = Return filtered.
Proof.
  revert filtered0.
  induction all_tickers as [|[ex tickers] all_tickers IH]; intros filtered0 Hall; simpl;
    [by eexists|].
  destruct (filter_symbols_return cfg ex tickers filtered0) as [acc ->].
  { intros symbol t Hin. by apply (Hall ex tickers); [left|]. }
  simpl. apply IH. intros exchange tickers' symbol t Hex Hsym.
  apply (Hall exchange tickers'); [by right|done].
Qed.

Lemma filter_symbols_returned cfg exchange tickers filtered0 filtered symbol t :
  fold_items tickers filtered0 (λ symbol t filtered,
    pass <-? passes_filters cfg symbol t ;;
    Return (if pass then add_pair exchange symbol filtered else filtered))
  = Return filtered →
  (symbol, t) ∈ tickers → ∃ pass, passes_filters cfg symbol t = Return pass.
Proof.
  revert filtered0.
  induction tickers as [|[sym t'] tickers IH]; intros filtered0 Hrun Hin; simpl in Hrun.
  { by apply elem_of_nil in Hin. }
  destruct (passes_filters cfg sym t') as [pass|e] eqn:Hpass; simpl in Hrun; [|done].
  apply elem_of_cons in Hin as [[= -> ->]|Hin]; [by eexists|].
  by eapply IH.
Qed.

Lemma filter_loops_returned cfg all_tickers filtered0 filtered exchange tickers symbol t :
  fold_items all_tickers filtered0 (λ exchange tickers filtered,
    fold_items tickers filtered (λ symbol t filtered,
      pass <-? passes_filters cfg symbol t ;;
      Return (if pass then add_pair exchange symbol filtered else filtered)))
  = Return filtered →
  (exchange, tickers) ∈ all_tickers → (symbol, t) ∈ tickers →
  ∃ pass, passes_filters cfg symbol t = Return pass.
Proof.
  revert filtered0.
  induction all_tickers as [|[ex tickers'] all_tickers IH];
    intros filtered0 Hrun Hex Hsym; simpl in Hrun.
  { by apply elem_of_nil in Hex. }
  destruct (fold_items tickers' filtered0 _) as [acc|e] eqn:Hinner; simpl in Hrun; [|done].
  apply elem_of_cons in Hex as [[= -> ->]|Hex].
  - by eapply filter_symbols_returned.
  - by eapply IH.
Qed.

(** On well-formed tickers the loops run to their end. *)
Lemma filter_loops_return cfg all_tickers :
  well_formed_tickers all_tickers →
  ∃ filtered,
    fold_items all_tickers ∅ (λ exchange tickers filtered,
      fold_items tickers filtered (λ symbol t filtered,
        pass <-? passes_filters cfg symbol t ;;
        Return (if pass then add_pair exchange symbol filtered else filtered)))
    = Return filtered.
Proof.
  intros [_ Hwf]. apply filter_loops_return_from.
  intros exchange tickers symbol t Hex Hsym. apply passes_filters_returns.
  rewrite Forall_forall in Hwf. specialize (Hwf _ Hex). simpl in Hwf.
  rewrite Forall_forall in Hwf. exact (Hwf _ Hsym).
Qed.

Lemma add_pair_lookup exchange symbol filtered ex pairs :
  add_pair exchange symbol filtered !! ex = Some pairs →
  (ex = exchange ∧ symbol ∈ pairs) ∨ filtered !! ex = Some pairs.
Proof.
  unfold add_pair. destruct (decide (exchange = ex)) as [->|Hne].
  - rewrite lookup_insert_eq. intros [= <-]. left. split; [done|set_solver].
  - rewrite lookup_insert_ne by done. by right.
Qed.

(** The loops never leave a venue with an empty set. *)
Lemma filter_loops_nonempty_from cfg all_tickers filtered0 filtered :
  (∀ exchange pairs, filtered0 !! exchange = Some pairs → ∃ symbol, symbol ∈ pairs) →
  fold_items all_tickers filtered0 (λ exchange tickers filtered,
    fold_items tickers filtered (λ symbol t filtered,
      pass <-? passes_filters cfg symbol t ;;
      Return (if pass then add_pair exchange symbol filtered else filtered)))
  = Return filtered →
  ∀ exchange pairs, filtered !! exchange = Some pairs → ∃ symbol, symbol ∈ pairs.
Proof.
  revert filtered0.
  induction all_tickers as [|[ex tickers] all_tickers IH]; intros filtered0 Hinit Hrun;
    simpl in Hrun.
  { by injection Hrun as <-. }
  destruct (fold_items tickers filtered0 _) as [acc|e] eqn:Hinner; simpl in Hrun; [|done].
  apply (IH acc); [|done]. clear IH Hrun. revert filtered0 Hinit Hinner.
  induction tickers as [|[symbol t] tickers IH]; intros filtered0 Hinit Hinner;
    simpl in Hinner.
  { by injection Hinner as <-. }
  destruct (passes_filters cfg symbol t) as [[]|e]; simpl in Hinner; [| |done].
  - apply (IH (add_pair ex symbol filtered0)); [|done].
    intros exchange pairs [[_ ?]|?]%add_pair_lookup; [by eexists|by eapply Hinit].
  - by apply (IH filtered0).
Qed.

Lemma filter_loops_nonempty cfg all_tickers filtered :
  fold_items all_tickers ∅ (λ exchange tickers filtered,
    fold_items tickers filtered (λ symbol t filtered,
      pass <-? passes_filters cfg symbol t ;;
      Return (if pass then add_pair exchange symbol filtered else filtered)))
  = Return filtered →
  ∀ exchange pairs, filtered !! exchange = Some pairs → ∃ symbol, symbol ∈ pairs.
Proof.
  apply filter_loops_nonempty_from. intros exchange pairs. by rewrite lookup_empty.
Qed.

(** The shape of a run of the filter: it reads the configuration, leaves
    the bot as it is and, unless a check raised, logs the counts. *)
Lemma filter_pairs_run all_tickers self :
  filter_pairs_by_liquidity all_tickers self =
  match fold_items all_tickers ∅ (λ exchange tickers filtered,
          fold_items tickers filtered (λ symbol t filtered,
            pass <-? passes_filters (config self) symbol t ;;
            Return (if pass then add_pair exchange symbol filtered else filtered))) with
  | Return filtered => (Return filtered, self, [LogFiltered (size <$> filtered)])
  | Raise e => (Raise e, self, [])
  end.
Proof.
  unfold filter_pairs_by_liquidity. rewrite bind_get_self.
  unfold bind, lift, emit, ret. by destruct (fold_items _ _ _).
Qed.

Lemma filter_pairs_loops all_tickers self filtered :
  result_of (filter_pairs_by_liquidity all_tickers self) = Return filtered →
  fold_items all_tickers ∅ (λ exchange tickers filtered,
    fold_items tickers filtered (λ symbol t filtered,
      pass <-? passes_filters (config self) symbol t ;;
      Return (if pass then add_pair exchange symbol filtered else filtered)))
  = Return filtered.
Proof.
  rewrite filter_pairs_run. intros Hrun.
  by destruct (fold_items _ _ _) as [f|e]; simplify_eq/=.
Qed.

(** What is listed, by the items of the tickers. *)
Lemma filter_pairs_items all_tickers self filtered :
  result_of (filter_pairs_by_liquidity all_tickers self) = Return filtered →
  ∀ exchange symbol,
    symbol ∈ filtered_get exchange filtered ↔
    ∃ tickers t, (exchange, tickers) ∈ all_tickers ∧ (symbol, t) ∈ tickers ∧
                 passes_filters (config self) symbol t = Return true.
Proof. intros Hrun. by apply filter_loops_spec, filter_pairs_loops. Qed.

(** In tickers that are a [dict] of [dict]s, the items are what the lookups
    give. *)
Lemma tickers_wf_lookup all_tickers exchange tickers symbol t :
  tickers_wf all_tickers →
  (exchange, tickers) ∈ all_tickers ∧ (symbol, t) ∈ tickers ↔
  pydict_get exchange all_tickers = Some tickers ∧ pydict_get symbol tickers = Some t.
Proof.
  intros [Hvenues Hsymbols]. split.
  - intros [Hex Hsym]. split; [by apply pydict_elem_get|].
    apply pydict_elem_get; [|done].
    rewrite Forall_forall in Hsymbols. exact (Hsymbols _ Hex).
  - intros [Hex Hsym]. split; by apply pydict_get_elem.
Qed.

(** What is listed, by the lookups in the tickers. *)
Lemma filter_pairs_spec all_tickers self filtered :
  tickers_wf all_tickers →
  result_of (filter_pairs_by_liquidity all_tickers self) = Return filtered →
  ∀ exchange symbol,
    symbol ∈ filtered_get exchange filtered ↔
    ∃ tickers t, pydict_get exchange all_tickers = Some tickers ∧
                 pydict_get symbol tickers = Some t ∧
                 passes_filters (config self) symbol t = Return true.
Proof.
  intros Hwf Hrun exchange symbol. rewrite (filter_pairs_items _ _ _ Hrun). split.
  - intros (tickers & t & Hex & Hsym & ?). exists tickers, t.
    destruct (proj1 (tickers_wf_lookup _ _ _ _ _ Hwf) (conj Hex Hsym)). done.
  - intros (tickers & t & Hex & Hsym & ?). exists tickers, t.
    destruct (proj2 (tickers_wf_lookup _ _ _ _ _ Hwf) (conj Hex Hsym)). done.
Qed.

Lemma same_tickers_sym all_tickers1 all_tickers2 :
  same_tickers all_tickers1 all_tickers2 → same_tickers all_tickers2 all_tickers1.
Proof.
  apply same_dict_sym. intros tickers1 tickers2. apply same_dict_sym. congruence.
Qed.

(** An item of tickers is an item of the tickers equal to them. *)
Lemma same_tickers_item all_tickers1 all_tickers2 exchange tickers1 symbol t :
  tickers_wf all_tickers1 → same_tickers all_tickers1 all_tickers2 →
  (exchange, tickers1) ∈ all_tickers1 → (symbol, t) ∈ tickers1 →
  ∃ tickers2, (exchange, tickers2) ∈ all_tickers2 ∧ (symbol, t) ∈ tickers2.
Proof.
  intros Hwf Hsame Hex Hsym.
  destruct (proj1 (tickers_wf_lookup _ _ _ _ _ Hwf) (conj Hex Hsym)) as [Hget Hget'].
  specialize (Hsame exchange). rewrite Hget in Hsame.
  destruct (pydict_get exchange all_tickers2) as [tickers2|] eqn:Hget2;
    inversion_clear Hsame as [? ? Hsame'|].
  specialize (Hsame' symbol). rewrite Hget' in Hsame'.
  destruct (pydict_get symbol tickers2) as [t'|] eqn:Hget2';
    inversion_clear Hsame' as [? ? Heq|]. subst t'.
  exists tickers2. split; by apply pydict_get_elem.
Qed.

(** The order of insertion does not show in what the loops return. *)
Lemma filter_loops_same_tickers cfg all_tickers1 all_tickers2 filtered :
  tickers_wf all_tickers1 → tickers_wf all_tickers2 →
  same_tickers all_tickers1 all_tickers2 →
  fold_items all_tickers1 ∅ (λ exchange tickers filtered,
    fold_items tickers filtered (λ symbol t filtered,
      pass <-? passes_filters cfg symbol t ;;
      Return (if pass then add_pair exchange symbol filtered else filtered)))
  = Return filtered →
  fold_items all_tickers2 ∅ (λ exchange tickers filtered,
    fold_items tickers filtered (λ symbol t filtered,
      pass <-? passes_filters cfg symbol t ;;
      Return (if pass then add_pair exchange symbol filtered else filtered)))
  = Return filtered.
Proof.
  intros Hwf1 Hwf2 Hsame Hrun1.
  pose proof (same_tickers_sym _ _ Hsame) as Hsame'.
  destruct (filter_loops_return_from cfg all_tickers2 ∅) as [filtered2 Hrun2].
  { intros exchange tickers2 symbol t Hex Hsym.
    destruct (same_tickers_item _ _ _ _ _ _ Hwf2 Hsame' Hex Hsym) as (tickers1 & ? & ?).
    by eapply filter_loops_returned. }
  rewrite Hrun2. f_equal. apply map_eq. intros exchange.
  assert (filtered_get exchange filtered2 = filtered_get exchange filtered) as Hsets.
  { apply set_eq. intros symbol.
    rewrite (filter_loops_spec _ _ _ Hrun1), (filter_loops_spec _ _ _ Hrun2).
    split; intros (tickers & t & Hex & Hsym & Hpass).
    - destruct (same_tickers_item _ _ _ _ _ _ Hwf2 Hsame' Hex Hsym) as (tickers1 & ? & ?).
      by exists tickers1, t.
    - destruct (same_tickers_item _ _ _ _ _ _ Hwf1 Hsame Hex Hsym) as (tickers2 & ? & ?).
      by exists tickers2, t. }
  pose proof (filter_loops_nonempty _ _ _ Hrun1 exchange) as Hne1.
  pose proof (filter_loops_nonempty _ _ _ Hrun2 exchange) as Hne2.
  unfold filtered_get in Hsets.
  destruct (filtered !! exchange) as [pairs1|], (filtered2 !! exchange) as [pairs2|];
    simpl in Hsets.
  - by rewrite Hsets.
  - destruct (Hne1 pairs1 eq_refl) as [symbol Hin]. rewrite <- Hsets in Hin.
    by apply not_elem_of_empty in Hin.
  - destruct (Hne2 pairs2 eq_refl) as [symbol Hin]. rewrite Hsets in Hin.
    by apply not_elem_of_empty in Hin.
  - done.
Qed.
End liquidity_filter_run.

(** Which exception leaves the filter does depend on the order of
    insertion: of two faulty tickers the first one met raises. *)
Example filter_raises_the_first_fault :
  same_tickers tickers_two_faults tickers_two_faults_reordered ∧
  result_of (filter_pairs_by_liquidity tickers_two_faults (bot_of CONFIG []))
    = Raise ValueError ∧
  result_of (filter_pairs_by_liquidity tickers_two_faults_reordered (bot_of CONFIG []))
    = Raise TypeError.
Proof.
  split; [|split; reflexivity].
  intros exchange. unfold tickers_two_faults, tickers_two_faults_reordered.
  lookup_cases exchange; constructor.
  intros symbol. lookup_cases symbol; by constructor.
Qed.

(** C7. The liquidity filter is a function of the tickers and of the
    configuration only.  Take tickers that are equal as dictionaries (the
    same venues, symbols and tickers, inserted in whatever order) and bots
    that agree on their configuration, whatever else the bots hold.  Then one
    run returns a filtered set exactly when the other run returns it, the
    same set of symbols for every venue; neither run changes its bot; and
    when the tickers were also inserted in the same order, the two runs give
    the same result, the exception included, and the same log line. *)
Theorem filter_depends_on_tickers_and_config
    (tickers1 tickers2 : list (string * list (string * ticker)))
    (self1 self2 : ArbitrageBot) :
  tickers_wf tickers1 → tickers_wf tickers2 →
  same_tickers tickers1 tickers2 →
  config self1 = config self2 →
  (∀ filtered : gmap string (gset string),
     result_of (filter_pairs_by_liquidity tickers1 self1) = Return filtered ↔
     result_of (filter_pairs_by_liquidity tickers2 self2) = Return filtered) ∧
  state_of (filter_pairs_by_liquidity tickers1 self1) = self1 ∧
  state_of (filter_pairs_by_liquidity tickers2 self2) = self2 ∧
  (tickers1 = tickers2 →
   result_of (filter_pairs_by_liquidity tickers1 self1)
     = result_of (filter_pairs_by_liquidity tickers2 self2) ∧
   trace_of (filter_pairs_by_liquidity tickers1 self1)
     = trace_of (filter_pairs_by_liquidity tickers2 self2)).
Proof.
  intros Hwf1 Hwf2 Hsame Hconfig. split_and!.
  - intros filtered. split; intros Hrun%filter_pairs_loops.
    + rewrite Hconfig in Hrun.
      apply (filter_loops_same_tickers _ _ _ _ Hwf1 Hwf2 Hsame) in Hrun.
      by rewrite filter_pairs_run, Hrun.
    + rewrite <- Hconfig in Hrun.
      apply (filter_loops_same_tickers _ _ _ _ Hwf2 Hwf1 (same_tickers_sym _ _ Hsame))
        in Hrun.
      by rewrite filter_pairs_run, Hrun.
  - rewrite filter_pairs_run. by destruct (fold_items _ _ _).
  - rewrite filter_pairs_run. by destruct (fold_items _ _ _).
  - intros <-. rewrite !filter_pairs_run, Hconfig. by destruct (fold_items _ _ _).
Qed.

Lemma filter_depends_on_tickers_and_config_witness :
  result_of (filter_pairs_by_liquidity tickers_two_venues_reordered
               (bot_of CONFIG store_triangle))
  = Return filtered_two_venues.
Proof.
  assert (tickers_wf tickers_two_venues) as Hwf1.
  { split; [|repeat constructor]; apply (bool_decide_unpack _); vm_compute; exact I. }
  assert (tickers_wf tickers_two_venues_reordered) as Hwf2.
  { split; [|repeat constructor]; apply (bool_decide_unpack _); vm_compute; exact I. }
  assert (same_tickers tickers_two_venues tickers_two_venues_reordered) as Hsame.
  { intros exchange.
    unfold tickers_two_venues, tickers_two_venues_reordered, tickers_binance.
    lookup_cases exchange; constructor.
    all: intros symbol; lookup_cases symbol; by constructor. }
  apply (proj1 (proj1 (filter_depends_on_tickers_and_config
                         tickers_two_venues tickers_two_venues_reordered
                         (bot_of CONFIG store_example) (bot_of CONFIG store_triangle)
                         Hwf1 Hwf2 Hsame eq_refl)
                  filtered_two_venues)).
  reflexivity.
Defined.

(** C8. On well-formed tickers the filter returns, and a symbol whose
    [quoteVolume] is below the configured minimum is in the filtered set of
    no venue that quotes it so. *)
Theorem low_volume_is_never_listed
    (all_tickers : list (string * list (string * ticker))) (self : ArbitrageBot) :
  well_formed_tickers all_tickers →
  ∃ filtered,
    result_of (filter_pairs_by_liquidity all_tickers self) = Return filtered ∧
    ∀ (exchange symbol : string) (tickers : list (string * ticker)) (t : ticker)
      (quote_vol : float),
      pydict_get exchange all_tickers = Some tickers → pydict_get symbol tickers = Some t →
      t !! "quoteVolume" = Some (PyNum quote_vol) →
      PrimFloat.ltb quote_vol (min_volume_usd (config self)) = true →
      symbol ∉ filtered_get exchange filtered.
Proof.
  intros Hwf.
  destruct (filter_loops_return (config self) all_tickers Hwf) as [filtered Hrun].
  exists filtered.
  assert (result_of (filter_pairs_by_liquidity all_tickers self) = Return filtered)
    as Hres by (by rewrite filter_pairs_run, Hrun).
  split; [done|].
  intros exchange symbol tickers t quote_vol Htickers Ht Hvol Hlow Hin.
  apply (filter_pairs_spec _ _ _ (proj1 Hwf) Hres) in Hin
    as (tickers' & t' & ? & ? & Hpass).
  simplify_eq.
  apply passes_filters_true in Hpass
    as (quote_vol' & ? & ? & ? & ? & Hvol' & _ & _ & _ & _ & Hmin & _).
  rewrite (ticker_get_Some _ _ _ Hvol) in Hvol'. injection Hvol' as <-. congruence.
Qed.

Lemma low_volume_is_never_listed_witness :
  ∃ filtered,
    result_of (filter_pairs_by_liquidity tickers_example (bot_of CONFIG []))
      = Return filtered ∧
    "ETH/USDT" ∉ filtered_get "binance" filtered.
Proof.
  destruct (low_volume_is_never_listed tickers_example (bot_of CONFIG []))
    as (filtered & Hres & Habsent).
  { split; [split|]; repeat constructor;
      try (apply (bool_decide_unpack _); vm_compute; exact I). }
  exists filtered. split; [exact Hres|].
  apply (Habsent "binance" "ETH/USDT" tickers_binance
           (ticker_of 500000 100 100.1) 500000%float);
    reflexivity.
Defined.

(** C6. For a ticker with numeric [bid] and [ask], let spread% be
    (ask - bid) / bid x 100.  If the ticker passes the earlier checks of the
    filter and its spread% equals the configured maximum, the symbol is in
    the filtered set of its venue; if its spread% is above the maximum, the
    symbol is not.  (The tickers are a [dict] of [dict]s: the ticker is the
    only one of its symbol on its venue.) *)
Theorem spread_boundary
    (all_tickers : list (string * list (string * ticker))) (self : ArbitrageBot)
    (filtered : gmap string (gset string))
    (exchange symbol : string) (tickers : list (string * ticker)) (t : ticker)
    (bid ask : float) :
  tickers_wf all_tickers →
  result_of (filter_pairs_by_liquidity all_tickers self) = Return filtered →
  pydict_get exchange all_tickers = Some tickers → pydict_get symbol tickers = Some t →
  t !! "bid" = Some (PyNum bid) → t !! "ask" = Some (PyNum ask) →
  let spread_pct := ((ask - bid) / bid * 100)%float in
  (∀ (base quote : string) (quote_vol : float),
     t !! "quoteVolume" = Some (PyNum quote_vol) →
     str_split slash symbol = [base; quote] →
     quote ∈ quote_currencies (config self) →
     PrimFloat.ltb quote_vol (min_volume_usd (config self)) = false →
     PrimFloat.leb bid 0 = false → PrimFloat.leb ask 0 = false →
     PrimFloat.eqb spread_pct (max_spread_percent (config self)) = true →
     symbol ∈ filtered_get exchange filtered) ∧
  (PrimFloat.ltb (max_spread_percent (config self)) spread_pct = true →
   symbol ∉ filtered_get exchange filtered).
Proof.
  intros Hwf Hres Htickers Ht Hbid Hask spread_pct. split.
  - intros base quote quote_vol Hvol Hsplit Hquote Hmin Hb Ha Heq.
    apply (filter_pairs_spec _ _ _ Hwf Hres). exists tickers, t. split_and!; [done..|].
    eapply passes_filters_accepts; eauto.
    by apply float_eqb_not_gt.
  - intros Hwide Hin.
    apply (filter_pairs_spec _ _ _ Hwf Hres) in Hin as (tickers' & t' & ? & ? & Hpass).
    simplify_eq.
    apply passes_filters_true in Hpass
      as (? & bid' & ask' & ? & ? & _ & Hbid' & Hask' & _ & _ & _ & _ & _ & Hspread).
    rewrite (ticker_get_Some _ _ _ Hbid) in Hbid'.
    rewrite (ticker_get_Some _ _ _ Hask) in Hask'.
    injection Hbid' as <-. injection Hask' as <-.
    unfold spread_pct in Hwide. congruence.
Qed.

Lemma spread_boundary_witness :
  "BTC/USDT" ∈ filtered_get "binance" filtered_example ∧
  "SOL/USDT" ∉ filtered_get "binance" filtered_example.
Proof.
  split.
  - apply (proj1 (spread_boundary tickers_example (bot_of CONFIG []) filtered_example
             "binance" "BTC/USDT" tickers_binance
             (ticker_of 2000000 100 100.5) 100%float 100.5%float
             ltac:(split; repeat constructor; apply (bool_decide_unpack _);
                   vm_compute; exact I)
             ltac:(reflexivity) ltac:(reflexivity)
             ltac:(reflexivity) ltac:(reflexivity)
             ltac:(reflexivity))
           "BTC" "USDT" 2000000%float);
      try (reflexivity).
    apply (bool_decide_unpack _). vm_compute. exact I.
  - apply (proj2 (spread_boundary tickers_example (bot_of CONFIG []) filtered_example
             "binance" "SOL/USDT" tickers_binance
             (ticker_of 2000000 100 101) 100%float 101%float
             ltac:(split; repeat constructor; apply (bool_decide_unpack _);
                   vm_compute; exact I)
             ltac:(reflexivity) ltac:(reflexivity)
             ltac:(reflexivity) ltac:(reflexivity)
             ltac:(reflexivity))).
    reflexivity.
Defined.

(** ** The order-book store *)

Section store.
Context {V : Type}.
Implicit Types (d : list (string * V)) (k : string) (v : V).

Lemma pydict_get_set_eq k v d : pydict_get k (pydict_set k v d) = Some v.
Proof.
  induction d as [|[k' v'] d IH]; simpl.
  - by rewrite String.eqb_refl.
  - destruct (String.eqb k' k) eqn:Hk; simpl; by rewrite Hk.
Qed.

Lemma pydict_get_set_ne k k' v d :
  k ≠ k' → pydict_get k' (pydict_set k v d) = pydict_get k' d.
Proof.
  intros Hne. induction d as [|[k0 v0] d IH]; simpl.
  - by apply String.eqb_neq in Hne as ->.
  - destruct (String.eqb k0 k) eqn:Hk; simpl; [|by rewrite IH].
    apply String.eqb_eq in Hk as ->. by apply String.eqb_neq in Hne as ->.
Qed.

Lemma pydict_set_set k v v' d :
  pydict_set k v (pydict_set k v' d) = pydict_set k v d.
Proof.
  induction d as [|[k0 v0] d IH]; simpl.
  - by rewrite String.eqb_refl.
  - destruct (String.eqb k0 k) eqn:Hk; simpl; rewrite Hk; [done|]. by rewrite IH.
Qed.
End store.

Section watch_book.
Implicit Types (self s : ArbitrageBot) (exchange symbol : string) (book : orderbook).

Lemma orderbooks_getitem_present exchange s ex_books :
  pydict_get exchange (orderbooks s) = Some ex_books →
  orderbooks_getitem exchange s = (Return ex_books, s, []).
Proof.
  intros Hget. unfold orderbooks_getitem. rewrite bind_get_self. by rewrite Hget.
Qed.

(** One received snapshot: the turn returns (an exception of the detection
    is an [Exception], caught and logged) and the snapshot is written under
    its key, whatever was there. *)
Lemma _watch_book_turn_run exchange symbol book s :
  ∃ log,
    _watch_book_turn exchange symbol (Return book) s =
    (Return tt,
     set_orderbooks
       (pydict_set exchange
          (pydict_set symbol book (default [] (pydict_get exchange (orderbooks s))))
          (orderbooks s)) s,
     log).
Proof.
  unfold _watch_book_turn, try_except. rewrite bind_lift_return.
  unfold orderbooks_getitem. unfold bind at 1. rewrite bind_get_self.
  destruct (pydict_get exchange (orderbooks s)) as [ex_books|] eqn:Hget; simpl.
  - rewrite bind_get_self, bind_put_self.
    pose proof (detect_opportunities_state symbol
      (set_orderbooks (pydict_set exchange (pydict_set symbol book ex_books) (orderbooks s)) s))
      as Hdetect.
    pose proof (detect_opportunities_raises symbol
      (set_orderbooks (pydict_set exchange (pydict_set symbol book ex_books) (orderbooks s)) s))
      as Hraise.
    destruct (detect_opportunities_for_symbol symbol _) as [[[[]|e] s'] log];
      unfold state_of, result_of in *; simpl in *; subst; [by eexists|].
    rewrite (Hraise e eq_refl). simpl. by eexists.
  - rewrite bind_get_self, bind_put_self. simpl. rewrite pydict_set_set.
    pose proof (detect_opportunities_state symbol
      (set_orderbooks (pydict_set exchange (pydict_set symbol book []) (orderbooks s)) s))
      as Hdetect.
    pose proof (detect_opportunities_raises symbol
      (set_orderbooks (pydict_set exchange (pydict_set symbol book []) (orderbooks s)) s))
      as Hraise.
    destruct (detect_opportunities_for_symbol symbol _) as [[[[]|e] s'] log];
      unfold state_of, result_of in *; simpl in *; subst; [by eexists|].
    rewrite (Hraise e eq_refl). simpl. by eexists.
Qed.

Lemma _watch_book_turn_state exchange symbol book s :
  state_of (_watch_book_turn exchange symbol (Return book) s) =
  set_orderbooks
    (pydict_set exchange
       (pydict_set symbol book (default [] (pydict_get exchange (orderbooks s))))
       (orderbooks s)) s.
Proof. by destruct (_watch_book_turn_run exchange symbol book s) as [log ->]. Qed.

(** A failure of the feed changes nothing: an [Exception] is logged, what
    is not an [Exception] leaves the turn. *)
Lemma _watch_book_turn_raise exchange symbol e s :
  _watch_book_turn exchange symbol (Raise e) s =
  if is_Exception e then (Return tt, s, [LogWatchError exchange symbol e])
  else (Raise e, s, []).
Proof.
  unfold _watch_book_turn, try_except. rewrite bind_lift_raise.
  by destruct (is_Exception e).
Qed.

Lemma get_book_after_set exchange symbol book (obs : list (string * list (string * orderbook))) :
  get_book exchange symbol
    (pydict_set exchange (pydict_set symbol book (default [] (pydict_get exchange obs))) obs)
  = Some book.
Proof. unfold get_book. rewrite pydict_get_set_eq. simpl. apply pydict_get_set_eq. Qed.

(** X9. After a feed, while the bot is running, the snapshot stored under
    the key of a watcher is the last one its feed delivered to it, whatever
    the ages of the snapshots; failures of the feed in between that are
    [Exception]s change nothing (what is not an [Exception] ends the
    watcher: nothing after it is delivered). *)
Lemma watch_book_stores_last exchange symbol (feed : list (outcome orderbook)) s :
  running s = true →
  get_book exchange symbol (orderbooks (state_of (_watch_book exchange symbol feed s))) =
  match last (received_books feed) with
  | Some book => Some book
  | None => get_book exchange symbol (orderbooks s)
  end.
Proof.
  unfold _watch_book. revert s.
  induction feed as [|received feed IH]; intros s Hrun; [done|].
  rewrite for_cons, bind_get_self, Hrun.
  destruct received as [book|e].
  - destruct (_watch_book_turn_run exchange symbol book s) as [log ->].
    set (s1 := set_orderbooks _ s).
    specialize (IH s1 Hrun).
    destruct (for_ feed _ s1) as [[r s2] log2]. unfold state_of in *. simpl in *.
    rewrite IH, last_cons.
    destruct (last (received_books feed)); [done|].
    apply get_book_after_set.
  - rewrite _watch_book_turn_raise. simpl. destruct (is_Exception e); [|done].
    specialize (IH s Hrun).
    destruct (for_ feed _ s) as [[r s2] log2]. unfold state_of in *. simpl in *.
    by rewrite IH.
Qed.
End watch_book.

(** C3 as the specification states it does not hold: the snapshot stored
    for Binance's BTC/USDT carries the timestamp 2000, a snapshot with the
    timestamp 1000 arrives, and it replaces the stored one. *)
Lemma update_stores_an_older_snapshot :
  ¬ (∀ (self : ArbitrageBot) (exchange symbol : string) (incoming stored stored' : orderbook),
       get_book exchange symbol (orderbooks self) = Some stored →
       get_book exchange symbol
         (orderbooks (state_of (_watch_book_turn exchange symbol (Return incoming) self)))
         = Some stored' →
       spec_not_older stored' stored).
Proof.
  intros Hmonotonic.
  specialize (Hmonotonic (bot_of CONFIG store_stamped) "binance" "BTC/USDT"
                (book_of 100 101 1000) (book_of 100 101 2000) (book_of 100 101 1000)
                eq_refl eq_refl).
  vm_compute in Hmonotonic. by apply Hmonotonic.
Qed.

(** C3, amended.  An update writes the incoming snapshot under its
    (venue, symbol) key whatever the age of the snapshot stored there, and
    leaves the snapshot of every other key as it was. *)
Theorem update_replaces_unconditionally
    (self : ArbitrageBot) (exchange symbol : string) (incoming : orderbook) :
  let self' := state_of (_watch_book_turn exchange symbol (Return incoming) self) in
  get_book exchange symbol (orderbooks self') = Some incoming ∧
  ∀ exchange' symbol' : string,
    (exchange', symbol') ≠ (exchange, symbol) →
    get_book exchange' symbol' (orderbooks self')
      = get_book exchange' symbol' (orderbooks self).
Proof.
  cbv zeta. rewrite _watch_book_turn_state. unfold get_book. simpl. split.
  - rewrite pydict_get_set_eq. simpl. apply pydict_get_set_eq.
  - intros exchange' symbol' Hne.
    destruct (decide (exchange = exchange')) as [<-|Hex].
    + rewrite pydict_get_set_eq. simpl.
      rewrite pydict_get_set_ne by congruence.
      by destruct (pydict_get exchange (orderbooks self)).
    + by rewrite pydict_get_set_ne.
Qed.

Lemma update_replaces_unconditionally_witness :
  let self' := state_of (_watch_book_turn "binance" "BTC/USDT"
                           (Return (book_of 100 101 1000)) (bot_of CONFIG store_example)) in
  get_book "binance" "BTC/USDT" (orderbooks self') = Some (book_of 100 101 1000) ∧
  get_book "bybit" "BTC/USDT" (orderbooks self')
    = get_book "bybit" "BTC/USDT" (orderbooks (bot_of CONFIG store_example)).
Proof.
  destruct (update_replaces_unconditionally (bot_of CONFIG store_example)
              "binance" "BTC/USDT" (book_of 100 101 1000)) as [Hnew Hothers].
  split; [exact Hnew|].
  apply (Hothers "bybit" "BTC/USDT"). intros Hsame. discriminate Hsame.
Defined.

(** ** The order of coins *)

Section coin_order.
Implicit Types (a b c : string).

(** [not (b <= a)] is [a < b]. *)
Lemma str_leb_false_ltb a b : String.leb b a = false ↔ String.ltb a b = true.
Proof.
  unfold String.leb, String.ltb. rewrite (String.compare_antisym a b).
  destruct (String.compare b a); simpl; naive_solver.
Qed.

Lemma str_ltb_le a b : String.ltb a b = true → String.le a b.
Proof.
  unfold String.le, String.leb, String.ltb.
  by destruct (String.compare a b).
Qed.

(** Two increasing triples over the same three coins are the same triple. *)
Lemma increasing_triple_unique a b c a' b' c' :
  String.ltb a b = true → String.ltb b c = true →
  String.ltb a' b' = true → String.ltb b' c' = true →
  [a; b; c] ≡ₚ [a'; b'; c'] → (a, b, c) = (a', b', c').
Proof.
  intros Hab Hbc Hab' Hbc' Hperm.
  assert ([a; b; c] = [a'; b'; c']) as [= -> -> ->]; [|done].
  apply (Sorted_unique String.le); [..|done];
    repeat first [apply Sorted_nil | apply Sorted_cons | apply HdRel_nil
                 | apply HdRel_cons]; by apply str_ltb_le.
Qed.

Lemma coin_triples_elem (coins : list string) a b c :
  (a, b, c) ∈ coin_triples coins ↔
  a ∈ coins ∧ b ∈ coins ∧ c ∈ coins ∧
  String.ltb a b = true ∧ String.ltb b c = true.
Proof.
  unfold coin_triples. rewrite <- !str_leb_false_ltb. split.
  - intros (x & Hin & Hx)%list_elem_of_bind.
    apply list_elem_of_bind in Hin as (y & Hin & Hy).
    destruct (String.leb y x) eqn:Hyx; [by apply elem_of_nil in Hin|].
    apply list_elem_of_bind in Hin as (z & Hin & Hz).
    destruct (String.leb z y) eqn:Hzy; [by apply elem_of_nil in Hin|].
    apply list_elem_of_singleton in Hin as [= -> -> ->]. done.
  - intros (Ha & Hb & Hc & Hba & Hcb).
    apply list_elem_of_bind. exists a. split; [|done].
    apply list_elem_of_bind. exists b. split; [|done]. rewrite Hba.
    apply list_elem_of_bind. exists c. split; [|done]. rewrite Hcb.
    by apply list_elem_of_singleton.
Qed.

(** Over coins without repetition no triple is reached twice. *)
Lemma coin_triples_NoDup (coins : list string) :
  NoDup coins → NoDup (coin_triples coins).
Proof.
  intros Hcoins. unfold coin_triples.
  apply NoDup_bind; [| |done].
  - intros x1 x2 [[a b] c] _ _ (y1 & Hin1 & _)%list_elem_of_bind
      (y2 & Hin2 & _)%list_elem_of_bind.
    destruct (String.leb y1 x1); [by apply elem_of_nil in Hin1|].
    destruct (String.leb y2 x2); [by apply elem_of_nil in Hin2|].
    apply list_elem_of_bind in Hin1 as (z1 & Hin1 & _).
    apply list_elem_of_bind in Hin2 as (z2 & Hin2 & _).
    destruct (String.leb z1 y1); [by apply elem_of_nil in Hin1|].
    destruct (String.leb z2 y2); [by apply elem_of_nil in Hin2|].
    apply list_elem_of_singleton in Hin1, Hin2. congruence.
  - intros x _. apply NoDup_bind; [| |done].
    + intros y1 y2 [[a b] c] _ _ Hin1 Hin2.
      destruct (String.leb y1 x); [by apply elem_of_nil in Hin1|].
      destruct (String.leb y2 x); [by apply elem_of_nil in Hin2|].
      apply list_elem_of_bind in Hin1 as (z1 & Hin1 & _).
      apply list_elem_of_bind in Hin2 as (z2 & Hin2 & _).
      destruct (String.leb z1 y1); [by apply elem_of_nil in Hin1|].
      destruct (String.leb z2 y2); [by apply elem_of_nil in Hin2|].
      apply list_elem_of_singleton in Hin1, Hin2. congruence.
    + intros y _. destruct (String.leb y x); [apply NoDup_nil_2|].
      apply NoDup_bind; [| |done].
      * intros z1 z2 [[a b] c] _ _ Hin1 Hin2.
        destruct (String.leb z1 y); [by apply elem_of_nil in Hin1|].
        destruct (String.leb z2 y); [by apply elem_of_nil in Hin2|].
        apply list_elem_of_singleton in Hin1, Hin2. congruence.
      * intros z _. destruct (String.leb z y); [apply NoDup_nil_2|].
        apply NoDup_singleton.
Qed.
End coin_order.

(** ** The triangle scan *)

Section triangle_scan.
Implicit Types (self s : ArbitrageBot) (exchange a b c : string).

Lemma bind_run {A B : Type} (m : M A) (f : A → M B) s (x : A) s' log :
  m s = (Return x, s', log) →
  bind m f s = (let '(r, s'', log') := f x s' in (r, s'', log ++ log')).
Proof. intros Hm. unfold bind. by rewrite Hm. Qed.

Lemma bind_raise {A B : Type} (m : M A) (f : A → M B) s e s' log :
  m s = (Raise e, s', log) → bind m f s = (Raise e, s', log).
Proof. intros Hm. unfold bind. by rewrite Hm. Qed.

(** Reading [self.orderbooks[name]] logs nothing and does not raise. *)
Lemma orderbooks_getitem_run exchange s :
  ∃ ex_books s', orderbooks_getitem exchange s = (Return ex_books, s', []).
Proof.
  unfold orderbooks_getitem. rewrite bind_get_self.
  destruct (pydict_get exchange (orderbooks s)) as [ex_books|]; [by eexists _, _|].
  rewrite bind_put_self. by eexists _, _.
Qed.

Lemma _find_pair_run exchange a b s :
  ∃ r s', _find_pair exchange a b s = (r, s', []).
Proof.
  unfold _find_pair.
  destruct (orderbooks_getitem_run exchange s) as (ex_books & s' & Hget).
  rewrite (bind_run _ _ _ _ _ _ Hget). unfold lift. by eexists _, _.
Qed.

Lemma _evaluate_triangle_run exchange a b c pair_ab pair_bc pair_ca s :
  ∃ s' log,
    _evaluate_triangle exchange a b c pair_ab pair_bc pair_ca s = (Return tt, s', log) ∧
    (log = [] ∨ log = [LogTriangle exchange a b c pair_ab pair_bc pair_ca]).
Proof.
  unfold _evaluate_triangle.
  destruct (orderbooks_getitem_run exchange s) as (books1 & s1 & Hget1).
  rewrite (bind_run _ _ _ _ _ _ Hget1).
  destruct (orderbooks_getitem_run exchange s1) as (books2 & s2 & Hget2).
  rewrite (bind_run _ _ _ _ _ _ Hget2).
  destruct (orderbooks_getitem_run exchange s2) as (books3 & s3 & Hget3).
  rewrite (bind_run _ _ _ _ _ _ Hget3).
  destruct (pydict_get pair_ab books1), (pydict_get pair_bc books2),
    (pydict_get pair_ca books3); simpl; eexists _, _; split; eauto.
Qed.

(** A visit of a triple logs at most the one line that names it. *)
Lemma visit_triple_trace exchange a b c s :
  trace_of (visit_triple exchange a b c s) = [] ∨
  ∃ pair_ab pair_bc pair_ca,
    trace_of (visit_triple exchange a b c s) =
      [LogTriangle exchange a b c pair_ab pair_bc pair_ca].
Proof.
  unfold visit_triple.
  destruct (_find_pair_run exchange a b s) as ([pair_ab|e] & s1 & Hab);
    [rewrite (bind_run _ _ _ _ _ _ Hab)|rewrite (bind_raise _ _ _ _ _ _ Hab); by left].
  destruct (_find_pair_run exchange b c s1) as ([pair_bc|e] & s2 & Hbc);
    [rewrite (bind_run _ _ _ _ _ _ Hbc)|rewrite (bind_raise _ _ _ _ _ _ Hbc); by left].
  destruct (_find_pair_run exchange c a s2) as ([pair_ca|e] & s3 & Hca);
    [rewrite (bind_run _ _ _ _ _ _ Hca)|rewrite (bind_raise _ _ _ _ _ _ Hca); by left].
  destruct (found pair_ab && found pair_bc && found pair_ca); [|by left].
  destruct (_evaluate_triangle_run exchange a b c
              (default "" pair_ab) (default "" pair_bc) (default "" pair_ca) s3)
    as (s4 & log & -> & [->| ->]); [by left|right; by eexists _, _, _].
Qed.

(** The triples a scan logs are among the increasing triples of the scanned
    coins, in the order of the loops. *)
Lemma scan_triangles_sublist exchange s :
  triangles (trace_of (detect_triangular_opportunities exchange s))
    `sublist_of` coin_triples (elements (scanned_coins exchange s)).
Proof.
  unfold detect_triangular_opportunities, scanned_coins. rewrite bind_get_self.
  destruct (Nat.ltb _ 3); [apply sublist_nil_l|].
  destruct (coins_of _ ∅) as [coins|e]; [|apply sublist_nil_l].
  rewrite bind_lift_return. unfold triangles, coin_triples.
  apply for_trace_sublist. intros coin_a s1 _.
  apply for_trace_sublist. intros coin_b s2 _.
  destruct (String.leb coin_b coin_a); [apply sublist_nil_l|].
  apply for_trace_sublist. intros coin_c s3 _.
  destruct (String.leb coin_c coin_b); [apply sublist_nil_l|].
  destruct (visit_triple_trace exchange coin_a coin_b coin_c s3)
    as [->|(pair_ab & pair_bc & pair_ca & ->)]; [apply sublist_nil_l|done].
Qed.

(** A scan logs triangles and nothing else. *)
Lemma scan_logs_triangles_only exchange s ev :
  ev ∈ trace_of (detect_triangular_opportunities exchange s) →
  ∃ a b c pair_ab pair_bc pair_ca,
    ev = LogTriangle exchange a b c pair_ab pair_bc pair_ca.
Proof.
  unfold detect_triangular_opportunities. rewrite bind_get_self.
  destruct (Nat.ltb _ 3); [by intros ?%elem_of_nil|].
  destruct (coins_of _ ∅) as [coins|e]; [|by intros ?%elem_of_nil].
  rewrite bind_lift_return. intros Hev.
  apply (for_elem_inv (λ _, True)) in Hev as (coin_a & s1 & _ & _ & Hev); [|done..].
  apply (for_elem_inv (λ _, True)) in Hev as (coin_b & s2 & _ & _ & Hev); [|done..].
  destruct (String.leb coin_b coin_a); [by apply elem_of_nil in Hev|].
  apply (for_elem_inv (λ _, True)) in Hev as (coin_c & s3 & _ & _ & Hev); [|done..].
  destruct (String.leb coin_c coin_b); [by apply elem_of_nil in Hev|].
  destruct (visit_triple_trace exchange coin_a coin_b coin_c s3)
    as [Hlog|(pair_ab & pair_bc & pair_ca & Hlog)]; rewrite Hlog in Hev.
  - by apply elem_of_nil in Hev.
  - apply list_elem_of_singleton in Hev as ->. by eexists _, _, _, _, _, _.
Qed.
End triangle_scan.

Section scanned.
Implicit Types (symbols : list string) (x : string).

Lemma coins_of_elem symbols (acc coins : gset string) x :
  coins_of symbols acc = Return coins → x ∈ coins → x ∈ acc ∨ names_coin symbols x.
Proof.
  revert acc. induction symbols as [|symbol symbols IH]; intros acc; simpl.
  - intros [= <-]. by left.
  - destruct (str_contains slash symbol).
    + destruct (split_pair symbol) as [[base quote]|] eqn:Hsplit; simpl; [|done].
      apply split_pair_Return in Hsplit.
      intros Hcoins Hx. destruct (IH _ Hcoins Hx) as [Hacc|(sym & b & q & ? & ? & ?)].
      * apply elem_of_union in Hacc as [->%elem_of_singleton|Hacc].
        { right. exists symbol, base, quote. split_and!; [left|done|by right]. }
        apply elem_of_union in Hacc as [->%elem_of_singleton|Hacc]; [|by left].
        right. exists symbol, base, quote. split_and!; [left|done|by left].
      * right. exists sym, b, q. split_and!; [by right|done..].
    + intros Hcoins Hx. destruct (IH _ Hcoins Hx) as [?|(sym & b & q & ? & ? & ?)];
        [by left|].
      right. exists sym, b, q. split_and!; [by right|done..].
Qed.

(** A scanned coin is a common coin that a symbol of the venue names. *)
Lemma scanned_coins_spec exchange s x :
  x ∈ scanned_coins exchange s →
  names_coin (pydict_keys (default [] (pydict_get exchange (orderbooks s)))) x ∧
  x ∈ common_coins.
Proof.
  unfold scanned_coins.
  destruct (coins_of _ ∅) as [coins|e] eqn:Hcoins; [|by intros ?%not_elem_of_empty].
  intros [Hx ?]%elem_of_intersection. split; [|done].
  by destruct (coins_of_elem _ _ _ _ Hcoins Hx) as [?%not_elem_of_empty|?].
Qed.
End scanned.

(** C5. In a scan of a venue, every coin of a triple the triangle detector
    evaluates is named by a symbol of the venue and is on the list of common
    coins; every evaluated triple is increasing, a < b < c; no triple is
    evaluated twice, and no two evaluations are of triples that are
    permutations of each other. *)
Theorem triples_are_scanned_once (self : ArbitrageBot) (exchange_name : string) :
  let evaluated := triangles (trace_of (detect_triangular_opportunities exchange_name self)) in
  let symbols := pydict_keys (default [] (pydict_get exchange_name (orderbooks self))) in
  (∀ a b c : string, (a, b, c) ∈ evaluated →
     (∀ x : string, x ∈ [a; b; c] → names_coin symbols x ∧ x ∈ common_coins) ∧
     String.ltb a b = true ∧ String.ltb b c = true) ∧
  NoDup evaluated ∧
  (∀ (i j : nat) (a b c a' b' c' : string),
     evaluated !! i = Some (a, b, c) → evaluated !! j = Some (a', b', c') →
     [a; b; c] ≡ₚ [a'; b'; c'] → i = j).
Proof.
  intros evaluated symbols.
  pose proof (scan_triangles_sublist exchange_name self) as Hsub. fold evaluated in Hsub.
  assert (∀ a b c : string, (a, b, c) ∈ evaluated →
            a ∈ scanned_coins exchange_name self ∧ b ∈ scanned_coins exchange_name self ∧
            c ∈ scanned_coins exchange_name self ∧
            String.ltb a b = true ∧ String.ltb b c = true) as Helem.
  { intros a b c Hin. eapply elem_of_sublist in Hin; [|exact Hsub].
    apply coin_triples_elem in Hin. by rewrite !elem_of_elements in Hin. }
  assert (NoDup evaluated) as Hnodup.
  { eapply sublist_NoDup; [|exact Hsub]. apply coin_triples_NoDup, NoDup_elements. }
  split_and!; [|done|].
  - intros a b c (? & ? & ? & ? & ?)%Helem. split_and!; [|done..].
    intros x. rewrite !elem_of_cons, elem_of_nil.
    intros [->|[->|[->|[]]]]; by apply scanned_coins_spec.
  - intros i j a b c a' b' c' Hi Hj Hperm.
    pose proof (list_elem_of_lookup_2 _ _ _ Hi) as (_ & _ & _ & ? & ?)%Helem.
    pose proof (list_elem_of_lookup_2 _ _ _ Hj) as (_ & _ & _ & ? & ?)%Helem.
    assert ((a, b, c) = (a', b', c')) as Heq by by apply increasing_triple_unique.
    rewrite <- Heq in Hj. by eapply NoDup_lookup.
Qed.

Lemma triples_are_scanned_once_witness :
  (∀ x : string, x ∈ ["BTC"; "ETH"; "USDT"] →
     names_coin ["BTC/USDT"; "ETH/BTC"; "ETH/USDT"] x ∧ x ∈ common_coins) ∧
  String.ltb "BTC" "ETH" = true ∧ String.ltb "ETH" "USDT" = true.
Proof.
  apply (proj1 (triples_are_scanned_once (bot_of CONFIG store_triangle) "binance")
           "BTC" "ETH" "USDT").
  vm_compute. left.
Defined.

(** ** Triangles that the scan must log *)

Section triangle_scan_complete.
Implicit Types (self s : ArbitrageBot) (exchange a b c : string).

(** A loop whose turns return and leave the bot as it is returns, leaves
    the bot as it is, and logs what its turns log. *)
Lemma for_quiet_turns {A : Type} (xs : list A) (body : A → M unit) s :
  (∀ x, x ∈ xs → ∃ log, body x s = (Return tt, s, log)) →
  ∃ log, for_ xs body s = (Return tt, s, log) ∧
         ∀ x ev, x ∈ xs → ev ∈ trace_of (body x s) → ev ∈ log.
Proof.
  induction xs as [|x xs IH]; intros Hbody.
  - exists []. split; [done|]. by intros x ev ?%elem_of_nil.
  - destruct (Hbody x ltac:(left)) as [log Hx].
    destruct IH as (log' & Hrest & Hin).
    { intros y Hy. apply Hbody. by right. }
    exists (log ++ log'). rewrite for_cons, Hx, Hrest. split; [done|].
    intros y ev [->|Hy]%elem_of_cons Hev; apply elem_of_app.
    + left. by rewrite Hx in Hev.
    + right. eauto.
Qed.

Lemma pydict_get_is_Some {V : Type} (d : list (string * V)) (k : string) :
  k ∈ pydict_keys d → is_Some (pydict_get k d).
Proof.
  unfold pydict_keys. induction d as [|[k' v] d IH]; simpl.
  - by intros ?%elem_of_nil.
  - intros [->|Hin]%elem_of_cons.
    + rewrite String.eqb_refl. by eexists.
    + destruct (String.eqb k' k); [by eexists|auto].
Qed.

(** What [_find_pair] returns is a symbol of the venue that joins the two
    coins. *)
Lemma _find_pair_loop_Some a b (symbols : list string) sym :
  _find_pair_loop a b symbols = Return (Some sym) →
  sym ∈ symbols ∧ str_contains slash sym = true ∧
  ∃ base quote, split_pair sym = Return (base, quote) ∧
                ((base = a ∧ quote = b) ∨ (base = b ∧ quote = a)).
Proof.
  induction symbols as [|sym' symbols IH]; simpl; [done|].
  destruct (str_contains slash sym') eqn:Hslash.
  - destruct (split_pair sym') as [[base quote]|] eqn:Hsplit; simpl; [|done].
    destruct ((String.eqb base a && String.eqb quote b)
              || (String.eqb base b && String.eqb quote a)) eqn:Hjoin.
    + intros [= ->]. split_and!; [by left|done|]. exists base, quote. split; [done|].
      apply orb_prop in Hjoin as [Hj|Hj]; apply andb_prop in Hj as [H1 H2];
        apply String.eqb_eq in H1, H2; auto.
    + intros (? & ? & ?)%IH. split_and!; [by right|done..].
  - intros (? & ? & ?)%IH. split_and!; [by right|done..].
Qed.

(** If the first loop of the scan got through the symbols, the searches
    for pairs do too. *)
Lemma coins_of_find_pair (symbols : list string) (acc coins : gset string) a b :
  coins_of symbols acc = Return coins → ∃ r, _find_pair_loop a b symbols = Return r.
Proof.
  revert acc. induction symbols as [|sym symbols IH]; intros acc; simpl; [by eexists|].
  destruct (str_contains slash sym); [|by apply IH].
  destruct (split_pair sym) as [[base quote]|]; simpl; [|done].
  destruct (_ || _); [by eexists|]. by apply IH.
Qed.

Lemma _find_pair_present exchange a b s ex_books :
  pydict_get exchange (orderbooks s) = Some ex_books →
  _find_pair exchange a b s = (_find_pair_loop a b (pydict_keys ex_books), s, []).
Proof.
  intros Hget. unfold _find_pair.
  rewrite (bind_run _ _ _ _ _ _ (orderbooks_getitem_present _ _ _ Hget)).
  unfold lift. done.
Qed.

Lemma _evaluate_triangle_present exchange a b c pair_ab pair_bc pair_ca s ex_books :
  pydict_get exchange (orderbooks s) = Some ex_books →
  is_Some (pydict_get pair_ab ex_books) → is_Some (pydict_get pair_bc ex_books) →
  is_Some (pydict_get pair_ca ex_books) →
  _evaluate_triangle exchange a b c pair_ab pair_bc pair_ca s =
    (Return tt, s, [LogTriangle exchange a b c pair_ab pair_bc pair_ca]).
Proof.
  intros Hget [? Hab] [? Hbc] [? Hca]. unfold _evaluate_triangle.
  rewrite !(bind_run _ _ _ _ _ _ (orderbooks_getitem_present _ _ _ Hget)).
  by rewrite Hab, Hbc, Hca.
Qed.

Lemma found_symbol sym : str_contains slash sym = true → found (Some sym) = true.
Proof. by destruct sym. Qed.

(** On a venue whose symbols all unpack, a visit returns, leaves the bot as
    it is, and logs the triangle when the three pairs are found. *)
Lemma visit_triple_present exchange a b c s ex_books coins :
  pydict_get exchange (orderbooks s) = Some ex_books →
  coins_of (pydict_keys ex_books) ∅ = Return coins →
  ∃ log, visit_triple exchange a b c s = (Return tt, s, log) ∧
    ∀ pair_ab pair_bc pair_ca,
      _find_pair_loop a b (pydict_keys ex_books) = Return (Some pair_ab) →
      _find_pair_loop b c (pydict_keys ex_books) = Return (Some pair_bc) →
      _find_pair_loop c a (pydict_keys ex_books) = Return (Some pair_ca) →
      log = [LogTriangle exchange a b c pair_ab pair_bc pair_ca].
Proof.
  intros Hget Hcoins. unfold visit_triple.
  destruct (coins_of_find_pair _ _ _ a b Hcoins) as [pair_ab Hab].
  destruct (coins_of_find_pair _ _ _ b c Hcoins) as [pair_bc Hbc].
  destruct (coins_of_find_pair _ _ _ c a Hcoins) as [pair_ca Hca].
  pose proof (_find_pair_present _ a b _ _ Hget) as Hrun_ab. rewrite Hab in Hrun_ab.
  pose proof (_find_pair_present _ b c _ _ Hget) as Hrun_bc. rewrite Hbc in Hrun_bc.
  pose proof (_find_pair_present _ c a _ _ Hget) as Hrun_ca. rewrite Hca in Hrun_ca.
  rewrite (bind_run _ _ _ _ _ _ Hrun_ab), (bind_run _ _ _ _ _ _ Hrun_bc),
    (bind_run _ _ _ _ _ _ Hrun_ca).
  destruct pair_ab as [pair_ab|];
    [|simpl; eexists; split; [done|intros; congruence]].
  destruct pair_bc as [pair_bc|];
    [|rewrite andb_false_r; simpl; eexists; split; [done|intros; congruence]].
  destruct pair_ca as [pair_ca|];
    [|rewrite andb_false_r; simpl; eexists; split; [done|intros; congruence]].
  pose proof (_find_pair_loop_Some _ _ _ _ Hab) as (Hin_ab & Hsab & _).
  pose proof (_find_pair_loop_Some _ _ _ _ Hbc) as (Hin_bc & Hsbc & _).
  pose proof (_find_pair_loop_Some _ _ _ _ Hca) as (Hin_ca & Hsca & _).
  rewrite !found_symbol by done. simpl.
  rewrite (_evaluate_triangle_present _ _ _ _ _ _ _ _ _ Hget)
    by by apply pydict_get_is_Some.
  eexists. split; [done|]. intros. congruence.
Qed.
End triangle_scan_complete.

Section triangle_scan_present.
Implicit Types (self s : ArbitrageBot) (exchange a b c : string).

Lemma str_ltb_irrefl a : String.ltb a a = false.
Proof.
  unfold String.ltb. pose proof (String.compare_antisym a a) as Hanti.
  by destruct (String.compare a a).
Qed.

Lemma str_ltb_ne a b : String.ltb a b = true → a ≠ b.
Proof. intros Hlt ->. by rewrite str_ltb_irrefl in Hlt. Qed.

Lemma str_ltb_asym a b : String.ltb a b = true → String.ltb b a = true → False.
Proof.
  intros Hab Hba. apply (str_ltb_ne a b Hab).
  apply (anti_symm String.le); by apply str_ltb_le.
Qed.

(** The three symbols of a triangle are three different symbols, so the
    venue holds at least three books. *)
Lemma triangle_needs_three_books a b c (symbols : list string) pair_ab pair_bc pair_ca :
  String.ltb a b = true → String.ltb b c = true →
  _find_pair_loop a b symbols = Return (Some pair_ab) →
  _find_pair_loop b c symbols = Return (Some pair_bc) →
  _find_pair_loop c a symbols = Return (Some pair_ca) →
  (3 ≤ length symbols)%nat.
Proof.
  intros Hab Hbc Hfab Hfbc Hfca.
  apply _find_pair_loop_Some in Hfab as (Hin_ab & _ & x1 & y1 & Hs1 & Hj1).
  apply _find_pair_loop_Some in Hfbc as (Hin_bc & _ & x2 & y2 & Hs2 & Hj2).
  apply _find_pair_loop_Some in Hfca as (Hin_ca & _ & x3 & y3 & Hs3 & Hj3).
  pose proof (str_ltb_ne _ _ Hab) as Hne_ab.
  pose proof (str_ltb_ne _ _ Hbc) as Hne_bc.
  assert (a ≠ c) as Hne_ac.
  { intros ->. by apply (str_ltb_asym c b). }
  assert (pair_ab ≠ pair_bc) as Hne1.
  { intros ->. rewrite Hs1 in Hs2. injection Hs2 as <- <-.
    destruct Hj1 as [[? ?]|[? ?]], Hj2 as [[? ?]|[? ?]]; congruence. }
  assert (pair_ab ≠ pair_ca) as Hne2.
  { intros ->. rewrite Hs1 in Hs3. injection Hs3 as <- <-.
    destruct Hj1 as [[? ?]|[? ?]], Hj3 as [[? ?]|[? ?]]; congruence. }
  assert (pair_bc ≠ pair_ca) as Hne3.
  { intros ->. rewrite Hs2 in Hs3. injection Hs3 as <- <-.
    destruct Hj2 as [[? ?]|[? ?]], Hj3 as [[? ?]|[? ?]]; congruence. }
  change 3 with (length [pair_ab; pair_bc; pair_ca]).
  apply submseteq_length, NoDup_submseteq.
  - repeat apply NoDup_cons_2; try apply NoDup_nil_2;
      rewrite ?elem_of_cons, ?elem_of_nil; naive_solver.
  - intros sym. rewrite !elem_of_cons, elem_of_nil. naive_solver.
Qed.

(** On a venue whose symbols all unpack, the scan returns, leaves the bot
    as it is and logs every increasing triple of scanned coins whose three
    pairs are found. *)
Lemma scan_present exchange s ex_books coins :
  pydict_get exchange (orderbooks s) = Some ex_books →
  (3 ≤ length ex_books)%nat →
  coins_of (pydict_keys ex_books) ∅ = Return coins →
  ∃ log, detect_triangular_opportunities exchange s = (Return tt, s, log) ∧
    ∀ a b c pair_ab pair_bc pair_ca,
      a ∈ coins ∩ common_coins → b ∈ coins ∩ common_coins → c ∈ coins ∩ common_coins →
      String.ltb a b = true → String.ltb b c = true →
      _find_pair_loop a b (pydict_keys ex_books) = Return (Some pair_ab) →
      _find_pair_loop b c (pydict_keys ex_books) = Return (Some pair_bc) →
      _find_pair_loop c a (pydict_keys ex_books) = Return (Some pair_ca) →
      LogTriangle exchange a b c pair_ab pair_bc pair_ca ∈ log.
Proof.
  intros Hget Hlen Hcoins. unfold detect_triangular_opportunities.
  rewrite bind_get_self, Hget. simpl.
  assert (Nat.ltb (length ex_books) 3 = false) as -> by (apply Nat.ltb_ge; lia).
  rewrite Hcoins, bind_lift_return.
  set (xs := elements (coins ∩ common_coins)).
  set (body_c := λ coin_a coin_b coin_c : string,
         if String.leb coin_c coin_b then ret tt
         else visit_triple exchange coin_a coin_b coin_c).
  set (body_b := λ coin_a coin_b : string,
         if String.leb coin_b coin_a then ret tt else for_ xs (body_c coin_a coin_b)).
  assert (∀ coin_a coin_b coin_c, ∃ log,
            body_c coin_a coin_b coin_c s = (Return tt, s, log)) as Hc.
  { intros coin_a coin_b coin_c. unfold body_c.
    destruct (String.leb coin_c coin_b); [by eexists|].
    destruct (visit_triple_present exchange coin_a coin_b coin_c s ex_books coins)
      as (log & ? & _); eauto. }
  assert (∀ coin_a coin_b, ∃ log, body_b coin_a coin_b s = (Return tt, s, log)) as Hb.
  { intros coin_a coin_b. unfold body_b.
    destruct (String.leb coin_b coin_a); [by eexists|].
    destruct (for_quiet_turns xs (body_c coin_a coin_b) s) as (log & ? & _); eauto. }
  destruct (for_quiet_turns xs (λ coin_a, for_ xs (body_b coin_a)) s)
    as (log & Hrun & Hlog).
  { intros coin_a _.
    destruct (for_quiet_turns xs (body_b coin_a) s) as (log & ? & _); eauto. }
  exists log. split; [exact Hrun|].
  intros a b c pair_ab pair_bc pair_ca Ha Hb' Hc' Hab Hbc Hfab Hfbc Hfca.
  apply (Hlog a); [by apply elem_of_elements|].
  destruct (for_quiet_turns xs (body_b a) s) as (log_a & -> & Hlog_a); [eauto|].
  apply (Hlog_a b); [by apply elem_of_elements|].
  unfold body_b. apply str_leb_false_ltb in Hab as ->.
  destruct (for_quiet_turns xs (body_c a b) s) as (log_b & -> & Hlog_b); [eauto|].
  apply (Hlog_b c); [by apply elem_of_elements|].
  unfold body_c. apply str_leb_false_ltb in Hbc as ->.
  destruct (visit_triple_present exchange a b c s ex_books coins Hget Hcoins)
    as (log_c & -> & Hlog_c).
  rewrite (Hlog_c _ _ _ Hfab Hfbc Hfca). by apply list_elem_of_singleton.
Qed.
End triangle_scan_present.

(** C1 as the specification states it does not hold.  On Binance the books
    of ETH/BTC, ETH/USDT and BTC/USDT are present; BTC < ETH < USDT is a
    triple of the scan; the conversion factors of BTC -> ETH -> USDT -> BTC
    are 1/0.05, 2200 and 1/40000, so that the net% of the specification is
    above 9, far above the minimum of 0.2; the scan logs the triangle and
    reports no opportunity. *)
Lemma profitable_triangle_is_not_reported :
  let self := bot_of CONFIG store_triangle in
  let f_ab := (1 / 0.05)%float in
  let f_bc := 2200%float in
  let f_ca := (1 / 40000)%float in
  ("BTC", "ETH", "USDT") ∈ coin_triples (elements (scanned_coins "binance" self)) ∧
  (get_book "binance" "ETH/BTC" (orderbooks self)
     ≫= spec_conversion_factor "BTC" "ETH/BTC") = Some f_ab ∧
  (get_book "binance" "ETH/USDT" (orderbooks self)
     ≫= spec_conversion_factor "ETH" "ETH/USDT") = Some f_bc ∧
  (get_book "binance" "BTC/USDT" (orderbooks self)
     ≫= spec_conversion_factor "USDT" "BTC/USDT") = Some f_ca ∧
  PrimFloat.leb 9 (spec_triangle_net_pct (fee_of "binance") f_ab f_bc f_ca) = true ∧
  PrimFloat.leb (arbitrage_min_profit_percent (config self))
    (spec_triangle_net_pct (fee_of "binance") f_ab f_bc f_ca) = true ∧
  trace_of (detect_triangular_opportunities "binance" self)
    = [LogTriangle "binance" "BTC" "ETH" "USDT" "ETH/BTC" "ETH/USDT" "BTC/USDT"] ∧
  existsb is_opportunity (trace_of (detect_triangular_opportunities "binance" self)) = false.
Proof.
  cbv zeta. split.
  - apply coin_triples_elem. rewrite !elem_of_elements.
    split_and!; by vm_compute.
  - vm_compute. by repeat split.
Qed.

(** C1, amended.  A scan of a venue only logs potential triangles: every
    event of it is such a log line, none reports or dispatches an
    opportunity, whatever the prices and the minimum profit.  And for every
    increasing triple a < b < c of scanned coins for which a symbol of the
    venue joins a with b, b with c and c with a, the scan returns, leaves
    the bot as it is and logs the line that names the triple and the three
    symbols. *)
Theorem triangle_scan_only_logs (self : ArbitrageBot) (exchange_name : string) :
  (∀ ev : event, ev ∈ trace_of (detect_triangular_opportunities exchange_name self) →
     is_opportunity ev = false ∧
     ∃ a b c pair_ab pair_bc pair_ca : string,
       ev = LogTriangle exchange_name a b c pair_ab pair_bc pair_ca) ∧
  (∀ a b c pair_ab pair_bc pair_ca : string,
     let symbols := pydict_keys (default [] (pydict_get exchange_name (orderbooks self))) in
     a ∈ scanned_coins exchange_name self → b ∈ scanned_coins exchange_name self →
     c ∈ scanned_coins exchange_name self →
     String.ltb a b = true → String.ltb b c = true →
     _find_pair_loop a b symbols = Return (Some pair_ab) →
     _find_pair_loop b c symbols = Return (Some pair_bc) →
     _find_pair_loop c a symbols = Return (Some pair_ca) →
     result_of (detect_triangular_opportunities exchange_name self) = Return tt ∧
     state_of (detect_triangular_opportunities exchange_name self) = self ∧
     LogTriangle exchange_name a b c pair_ab pair_bc pair_ca
       ∈ trace_of (detect_triangular_opportunities exchange_name self)).
Proof.
  split.
  - intros ev Hev.
    apply scan_logs_triangles_only in Hev as (a & b & c & ab & bc & ca & ->).
    split; [done|]. by eexists _, _, _, _, _, _.
  - intros a b c pair_ab pair_bc pair_ca symbols Ha Hb Hc Hab Hbc Hfab Hfbc Hfca.
    pose proof (triangle_needs_three_books _ _ _ _ _ _ _ Hab Hbc Hfab Hfbc Hfca) as Hlen.
    unfold scanned_coins in Ha, Hb, Hc. fold symbols in Ha, Hb, Hc.
    destruct (coins_of symbols ∅) as [coins|e] eqn:Hcoins;
      [|by apply not_elem_of_empty in Ha].
    subst symbols.
    destruct (pydict_get exchange_name (orderbooks self)) as [ex_books|] eqn:Hget;
      simpl in *; [|lia].
    unfold pydict_keys in Hlen. rewrite length_fmap in Hlen.
    destruct (scan_present exchange_name self ex_books coins Hget Hlen Hcoins)
      as (log & -> & Hlog).
    split_and!; [done..|]. by apply Hlog.
Qed.

Lemma triangle_scan_only_logs_witness :
  result_of (detect_triangular_opportunities "binance" (bot_of CONFIG store_triangle))
    = Return tt ∧
  state_of (detect_triangular_opportunities "binance" (bot_of CONFIG store_triangle))
    = bot_of CONFIG store_triangle ∧
  LogTriangle "binance" "BTC" "ETH" "USDT" "ETH/BTC" "ETH/USDT" "BTC/USDT"
    ∈ trace_of (detect_triangular_opportunities "binance" (bot_of CONFIG store_triangle)).
Proof.
  apply (proj2 (triangle_scan_only_logs (bot_of CONFIG store_triangle) "binance")
           "BTC" "ETH" "USDT" "ETH/BTC" "ETH/USDT" "BTC/USDT");
    by vm_compute.
Defined.

(** * More of the code *)

(** ** Loops, once more *)

Section loops_more.
Context {A : Type}.
Implicit Types (xs : list A) (body : A → M unit) (s : ArbitrageBot).

(** The turn that emitted an event of a loop emitted all of its events into
    the loop. *)
Lemma for_elem_inv_whole (I : ArbitrageBot → Prop) xs body :
  (∀ x s, x ∈ xs → I s → I (state_of (body x s))) →
  ∀ s ev, I s → ev ∈ trace_of (for_ xs body s) →
  ∃ x s', x ∈ xs ∧ I s' ∧ ev ∈ trace_of (body x s') ∧
          ∀ ev', ev' ∈ trace_of (body x s') → ev' ∈ trace_of (for_ xs body s).
Proof.
  induction xs as [|x xs IH]; intros Hbody s ev Hs Hev.
  { by apply elem_of_nil in Hev. }
  rewrite for_cons in Hev |- *.
  pose proof (Hbody x s ltac:(left) Hs) as Hx.
  destruct (body x s) as [[[[]|e] s'] log] eqn:Hrun.
  - unfold state_of in Hx; simpl in Hx.
    destruct (for_ xs body s') as [[r s''] log'] eqn:Hrest.
    unfold trace_of in Hev |- *; simpl in Hev |- *.
    apply elem_of_app in Hev as [Hev|Hev].
    + exists x, s. rewrite Hrun. split_and!; [left|done|done|].
      intros ev' Hev'. apply elem_of_app. by left.
    + destruct (IH (λ y t Hy, Hbody y t (list_elem_of_further _ _ _ Hy)) s' ev Hx)
        as (y & t & Hy & Ht & Hin & Hall).
      { by rewrite Hrest. }
      exists y, t. split_and!; [by right|done|done|].
      intros ev' Hev'. apply elem_of_app. right.
      specialize (Hall ev' Hev'). by rewrite Hrest in Hall.
  - exists x, s. rewrite Hrun. split_and!; [left|done|done|done].
Qed.

(** A loop returns, or raises what one of its turns raised. *)
Lemma for_result_inv (I : ArbitrageBot → Prop) xs body :
  (∀ x s, x ∈ xs → I s → I (state_of (body x s))) →
  ∀ s, I s →
  result_of (for_ xs body s) = Return tt ∨
  ∃ x s' e, x ∈ xs ∧ I s' ∧ result_of (body x s') = Raise e ∧
            result_of (for_ xs body s) = Raise e.
Proof.
  induction xs as [|x xs IH]; intros Hbody s Hs; [by left|].
  rewrite for_cons.
  pose proof (Hbody x s ltac:(left) Hs) as Hx.
  destruct (body x s) as [[[[]|e] s'] log] eqn:Hrun.
  - unfold state_of in Hx; simpl in Hx.
    destruct (IH (λ y t Hy, Hbody y t (list_elem_of_further _ _ _ Hy)) s' Hx)
      as [Hret|(y & t & e & Hy & Ht & Hraise & Hres)].
    + left. by destruct (for_ xs body s') as [[r s''] log'].
    + right. exists y, t, e. split_and!; [by right|done..|].
      by destruct (for_ xs body s') as [[r s''] log'].
  - right. exists x, s, e. rewrite Hrun. split_and!; [left|done..].
Qed.

(** In a loop that returns and whose turns leave the bot as it is, every
    turn returned and its events are events of the loop. *)
Lemma for_returns_inv xs body s x :
  (∀ y, y ∈ xs → state_of (body y s) = s) →
  result_of (for_ xs body s) = Return tt →
  x ∈ xs →
  result_of (body x s) = Return tt ∧
  ∀ ev, ev ∈ trace_of (body x s) → ev ∈ trace_of (for_ xs body s).
Proof.
  induction xs as [|y xs IH]; intros Hst Hret Hx.
  { by apply elem_of_nil in Hx. }
  rewrite for_cons in Hret |- *.
  pose proof (Hst y ltac:(left)) as Hy.
  destruct (body y s) as [[[[]|e] s'] log] eqn:Hrun; [|done].
  unfold state_of in Hy; simpl in Hy; subst s'.
  destruct (for_ xs body s) as [[r s''] log'] eqn:Hrest.
  unfold result_of in Hret; simpl in Hret; subst r.
  apply elem_of_cons in Hx as [->|Hx].
  - rewrite Hrun. split; [done|]. intros ev Hev.
    unfold trace_of; simpl. apply elem_of_app. by left.
  - destruct IH as [Hres Hin]; [|done..|].
    { intros z Hz. apply Hst. by right. }
    split; [done|]. intros ev Hev. unfold trace_of; simpl.
    apply elem_of_app. right. by apply Hin.
Qed.
End loops_more.

(** ** The pairwise detector: exceptions, pairs of events, completeness *)

Section pairwise_more.
Implicit Types (self s : ArbitrageBot) (symbol : string).


(** A comparison that returns, of a bid above an ask with enough net
    profit, reports and dispatches. *)
Lemma compare_books_fires symbol ex_a book_a ex_b book_b s bid_a ask_b net :
  best_bid book_a = Some bid_a → best_ask book_b = Some ask_b →
  PrimFloat.ltb ask_b bid_a = true →
  profit_net_pct ask_b bid_a (fee_of ex_b) (fee_of ex_a)
    (trade_amount_btc (config s)) = Return net →
  PrimFloat.leb (arbitrage_min_profit_percent (config s)) net = true →
  result_of (compare_books symbol (ex_a, book_a) (ex_b, book_b) s) = Return tt →
  ExecuteArbitrage ex_b ex_a symbol "buy" "sell" ask_b bid_a
    (trade_amount_btc (config s))
    ∈ trace_of (compare_books symbol (ex_a, book_a) (ex_b, book_b) s).
Proof.
  unfold compare_books, best_bid, best_ask.
  destruct (bids book_a) as [|[bid_a' ?] ?]; [done|].
  destruct (asks book_b) as [|[ask_b' ?] ?]; [done|]. simpl.
  intros [= ->] [= ->] Hgt Hnet Hmin. rewrite Hgt.
  unfold bind, lift, get_self, emit, execute_arbitrage, ret, result_of, trace_of; simpl.
  destruct (py_div _ ask_b) as [q|e]; simpl; [|done].
  rewrite Hnet. simpl. rewrite Hmin. simpl. intros _. right. left.
Qed.

(** The events of a detection come from comparisons, each with all of its
    events. *)
Lemma detect_opportunities_events_whole symbol s ev :
  ev ∈ trace_of (detect_opportunities_for_symbol symbol s) →
  ∃ i j a b,
    books_for symbol (orderbooks s) !! i = Some a ∧
    books_for symbol (orderbooks s) !! j = Some b ∧ i < j ∧
    ev ∈ trace_of (compare_books symbol a b s) ∧
    ∀ ev', ev' ∈ trace_of (compare_books symbol a b s) →
           ev' ∈ trace_of (detect_opportunities_for_symbol symbol s).
Proof.
  unfold detect_opportunities_for_symbol. rewrite bind_get_self.
  destruct (Nat.ltb _ 2); [by intros ?%elem_of_nil|].
  intros Hev.
  apply (for_elem_inv_whole (λ s', s' = s)) in Hev
    as ([i a] & ? & Hia & -> & Hev & Hall);
    [|intros [i a] s' _ ->;
      apply (for_state_inv (λ s', s' = s)); [|done];
      intros b s' _ ->; apply compare_books_state
     |done].
  apply (for_elem_inv_whole (λ s', s' = s)) in Hev as (b & ? & Hb & -> & Hev & Hall');
    [|intros b' s' _ ->; apply compare_books_state|done].
  apply elem_of_lookup_imap in Hia as (i' & a' & [= <- <-] & Hi).
  apply list_elem_of_lookup in Hb as [k Hk]. rewrite lookup_drop in Hk.
  exists i, (S i + k), a, b. split_and!; [done..|lia|done|]. auto.
Qed.

(** The venues of [books] are venues of the store, in its order. *)
Lemma books_for_keys symbol (obs : list (string * list (string * orderbook))) :
  (books_for symbol obs).*1 `sublist_of` pydict_keys obs.
Proof.
  unfold books_for, pydict_keys. induction obs as [|[ex ex_books] obs IH]; [done|].
  simpl. destruct (pydict_get symbol ex_books); simpl.
  - by apply sublist_skip.
  - by apply sublist_cons.
Qed.
End pairwise_more.


(** X2. Reports and dispatches go in pairs.  Every opportunity a detection
    logs is for the detected symbol and is dispatched with the venues and
    prices logged, the sides "buy" and "sell" and the configured amount; and
    every dispatch has these sides and this amount and was logged so. *)
Theorem reports_and_dispatches_pair_up (self : ArbitrageBot) (symbol : string) :
  (∀ (sym ex_b ex_a : string) (ask_b bid_a net gross : float),
     LogOpportunity sym ex_b ask_b ex_a bid_a net gross
       ∈ trace_of (detect_opportunities_for_symbol symbol self) →
     sym = symbol ∧
     ExecuteArbitrage ex_b ex_a symbol "buy" "sell" ask_b bid_a
       (trade_amount_btc (config self))
       ∈ trace_of (detect_opportunities_for_symbol symbol self)) ∧
  (∀ (exchange_buy exchange_sell sym side_buy side_sell : string)
     (price_buy price_sell amount : float),
     ExecuteArbitrage exchange_buy exchange_sell sym side_buy side_sell
         price_buy price_sell amount
       ∈ trace_of (detect_opportunities_for_symbol symbol self) →
     sym = symbol ∧ side_buy = "buy" ∧ side_sell = "sell" ∧
     amount = trade_amount_btc (config self) ∧
     ∃ net gross,
       LogOpportunity symbol exchange_buy price_buy exchange_sell price_sell net gross
         ∈ trace_of (detect_opportunities_for_symbol symbol self)).
Proof.
  split.
  - intros sym ex_b ex_a ask_b bid_a net gross Hev.
    apply detect_opportunities_events_whole in Hev
      as (i & j & [ex_a' book_a] & [ex_b' book_b] & _ & _ & _ & Hev & Hall).
    pose proof Hev as Hin.
    apply compare_books_events in Hev
      as (bid_a' & ask_b' & net' & gross' & _ & _ & _ & _ & _ & Htrace).
    rewrite Htrace in Hin, Hall.
    apply elem_of_cons in Hin as [Heq|Hin];
      [|by apply list_elem_of_singleton in Hin].
    injection Heq as -> -> -> -> -> -> ->. split; [done|].
    apply Hall. right. left.
  - intros exchange_buy exchange_sell sym side_buy side_sell price_buy price_sell
      amount Hev.
    apply detect_opportunities_events_whole in Hev
      as (i & j & [ex_a' book_a] & [ex_b' book_b] & _ & _ & _ & Hev & Hall).
    pose proof Hev as Hin.
    apply compare_books_events in Hev
      as (bid_a' & ask_b' & net' & gross' & _ & _ & _ & _ & _ & Htrace).
    rewrite Htrace in Hin, Hall.
    apply elem_of_cons in Hin as [Heq|Hin]; [done|].
    apply list_elem_of_singleton in Hin.
    injection Hin as -> -> -> -> -> -> -> ->. split_and!; [done..|].
    exists net', gross'. apply Hall. left.
Qed.

Lemma reports_and_dispatches_pair_up_witness :
  "BTC/USDT" = "BTC/USDT" ∧
  ExecuteArbitrage "bybit" "binance" "BTC/USDT" "buy" "sell" 100 101
    (trade_amount_btc (config (bot_of CONFIG store_example)))
    ∈ trace_of (detect_opportunities_for_symbol "BTC/USDT" (bot_of CONFIG store_example)).
Proof.
  apply (proj1 (reports_and_dispatches_pair_up (bot_of CONFIG store_example) "BTC/USDT")
           "BTC/USDT" "bybit" "binance" 100 101 0.79820179820181469 1)%float.
  vm_compute. left.
Defined.

(** X3. In a store that names no venue twice, no trade is dispatched that
    buys and sells on the same venue. *)
Theorem dispatch_is_between_two_venues (self : ArbitrageBot)
    (symbol exchange_buy exchange_sell sym side_buy side_sell : string)
    (price_buy price_sell amount : float) :
  NoDup (pydict_keys (orderbooks self)) →
  ExecuteArbitrage exchange_buy exchange_sell sym side_buy side_sell
      price_buy price_sell amount
    ∈ trace_of (detect_opportunities_for_symbol symbol self) →
  exchange_buy ≠ exchange_sell.
Proof.
  intros Hnodup Hev.
  apply detect_opportunities_events in Hev
    as (i & j & [ex_a book_a] & [ex_b book_b] & Ha & Hb & Hij & Hev).
  pose proof Hev as Hin.
  apply compare_books_events in Hev
    as (bid_a & ask_b & net & gross & _ & _ & _ & _ & _ & Htrace).
  rewrite Htrace in Hin.
  apply elem_of_cons in Hin as [?|Hin]; [done|].
  apply list_elem_of_singleton in Hin.
  injection Hin as -> -> -> -> -> -> -> ->.
  intros ->.
  assert (NoDup (books_for symbol (orderbooks self)).*1) as Hnames.
  { eapply sublist_NoDup; [exact Hnodup|apply books_for_keys]. }
  assert (i = j); [|lia].
  eapply (NoDup_lookup _ i j ex_a Hnames); rewrite list_lookup_fmap.
  - by rewrite Ha.
  - by rewrite Hb.
Qed.

Lemma dispatch_is_between_two_venues_witness : "bybit" ≠ "binance".
Proof.
  apply (dispatch_is_between_two_venues (bot_of CONFIG store_example)
           "BTC/USDT" "bybit" "binance" "BTC/USDT" "buy" "sell" 100 101 0.01).
  - apply (bool_decide_unpack _). vm_compute. exact I.
  - vm_compute. right. left.
Defined.

(** X4. The direction that is tested is reported.  If a venue stored before
    another bids above the other's ask, the net profit of buying on the
    later and selling on the earlier is at least the minimum, and the
    detection returns, then that trade is dispatched. *)
Theorem tested_direction_is_dispatched (self : ArbitrageBot) (symbol : string)
    (i j : nat) (ex_a ex_b : string) (book_a book_b : orderbook)
    (bid_a ask_b net : float) :
  books_for symbol (orderbooks self) !! i = Some (ex_a, book_a) →
  books_for symbol (orderbooks self) !! j = Some (ex_b, book_b) →
  i < j →
  best_bid book_a = Some bid_a → best_ask book_b = Some ask_b →
  PrimFloat.ltb ask_b bid_a = true →
  profit_net_pct ask_b bid_a (fee_of ex_b) (fee_of ex_a)
    (trade_amount_btc (config self)) = Return net →
  PrimFloat.leb (arbitrage_min_profit_percent (config self)) net = true →
  result_of (detect_opportunities_for_symbol symbol self) = Return tt →
  ExecuteArbitrage ex_b ex_a symbol "buy" "sell" ask_b bid_a
    (trade_amount_btc (config self))
    ∈ trace_of (detect_opportunities_for_symbol symbol self).
Proof.
  intros Ha Hb Hij Hbid Hask Hgt Hnet Hmin.
  unfold detect_opportunities_for_symbol. rewrite bind_get_self.
  set (books := books_for symbol (orderbooks self)) in *.
  assert (Nat.ltb (length books) 2 = false) as ->.
  { apply Nat.ltb_ge. apply lookup_lt_Some in Hb. lia. }
  intros Hret.
  destruct (for_returns_inv (imap (λ i a, (i, a)) books)
              (λ '(i, a), for_ (drop (S i) books) (λ b, compare_books symbol a b))
              self (i, (ex_a, book_a))) as [Hret_a Hin_a]; [|done| |].
  { intros [i' a] _. apply (for_state_inv (λ s', s' = self)); [|done].
    intros b s' _ ->. apply compare_books_state. }
  { apply elem_of_lookup_imap. by exists i, (ex_a, book_a). }
  apply Hin_a.
  destruct (for_returns_inv (drop (S i) books)
              (λ b, compare_books symbol (ex_a, book_a) b)
              self (ex_b, book_b)) as [Hret_b Hin_b]; [|done| |].
  { intros b _. apply compare_books_state. }
  { apply list_elem_of_lookup. exists (j - S i). rewrite lookup_drop.
    by replace (S i + (j - S i)) with j by lia. }
  apply Hin_b. by eapply compare_books_fires.
Qed.

Lemma tested_direction_is_dispatched_witness :
  ExecuteArbitrage "bybit" "binance" "BTC/USDT" "buy" "sell" 100 101
    (trade_amount_btc (config (bot_of CONFIG store_example)))
    ∈ trace_of (detect_opportunities_for_symbol "BTC/USDT" (bot_of CONFIG store_example)).
Proof.
  apply (tested_direction_is_dispatched (bot_of CONFIG store_example) "BTC/USDT"
           0 1 "binance" "bybit" (book_of 101 102 1) (book_of 99 100 1)
           101 100 0.79820179820181469);
    vm_compute; reflexivity.
Defined.

(** ** The liquidity filter: what is listed, what is not, what aborts it *)

Section filter_more.
Implicit Types (cfg : Config) (t : ticker) (symbol exchange : string).
Implicit Types (filtered : gmap string (gset string)).

Lemma ticker_get_PyNum key t x : ticker_get key t = PyNum x ↔ t !! key = Some (PyNum x).
Proof.
  unfold ticker_get. destruct (t !! key) as [v|]; simpl; [|done].
  split; by intros; simplify_eq.
Qed.

(** The checks, read as one condition on the ticker. *)
Lemma passes_filters_iff cfg symbol t :
  passes_filters cfg symbol t = Return true ↔
  ∃ quote_vol bid ask base quote,
    t !! "quoteVolume" = Some (PyNum quote_vol) ∧
    t !! "bid" = Some (PyNum bid) ∧ t !! "ask" = Some (PyNum ask) ∧
    str_split slash symbol = [base; quote] ∧ quote ∈ quote_currencies cfg ∧
    PrimFloat.ltb quote_vol (min_volume_usd cfg) = false ∧
    PrimFloat.leb bid 0 = false ∧ PrimFloat.leb ask 0 = false ∧
    PrimFloat.ltb (max_spread_percent cfg) ((ask - bid) / bid * 100) = false.
Proof.
  split.
  - intros (quote_vol & bid & ask & base & quote & Hvol & Hbid & Hask & ?)%passes_filters_true.
    apply ticker_get_PyNum in Hvol, Hbid, Hask.
    by exists quote_vol, bid, ask, base, quote.
  - intros (quote_vol & bid & ask & base & quote & ? & ? & ? & ? & ? & ? & ? & ? & ?).
    by eapply passes_filters_accepts.
Qed.

End filter_more.

Section filter_raises.
Implicit Types (cfg : Config) (t : ticker) (symbol exchange : string).

(** A ticker with a numeric volume under a symbol of more than two parts
    stops at the unpacking. *)
Lemma passes_filters_malformed cfg symbol t quote_vol :
  t !! "quoteVolume" = Some (PyNum quote_vol) →
  (2 < length (str_split slash symbol))%nat →
  passes_filters cfg symbol t = Raise ValueError.
Proof.
  intros Hvol Hlen. unfold passes_filters.
  assert (size t ≠ 0) as Hsize.
  { intros ->%map_size_empty_inv. by rewrite lookup_empty in Hvol. }
  apply Nat.eqb_neq in Hsize. rewrite Hsize, (ticker_get_Some _ _ _ Hvol).
  destruct (str_contains slash symbol) eqn:Hc; simpl.
  - unfold split_pair.
    by destruct (str_split slash symbol) as [|? [|? [|??]]]; simpl in *; try lia.
  - rewrite (str_split_no_sep _ _ Hc) in Hlen. simpl in Hlen. lia.
Qed.

(** One ticker on which the checks raise makes the loops raise: that
    exception, or the one of a ticker met before. *)
Lemma filter_loops_raise cfg (all_tickers : list (string * list (string * ticker)))
    exchange (tickers : list (string * ticker)) symbol t e :
  (exchange, tickers) ∈ all_tickers → (symbol, t) ∈ tickers →
  passes_filters cfg symbol t = Raise e →
  ∃ e',
    fold_items all_tickers ∅ (λ exchange tickers filtered,
      fold_items tickers filtered (λ symbol t filtered,
        pass <-? passes_filters cfg symbol t ;;
        Return (if pass then add_pair exchange symbol filtered else filtered)))
    = Raise e'.
Proof.
  intros Hex Hsym Hraise.
  destruct (fold_items all_tickers ∅ _) as [filtered|e'] eqn:Hrun; [|by eexists].
  destruct (filter_loops_returned _ _ _ _ _ _ _ _ Hrun Hex Hsym) as [pass Hpass].
  congruence.
Qed.
End filter_raises.

(** X5. When the filter returns, a symbol is in the set of a venue exactly
    when the venue's ticker for it has numeric [quoteVolume], [bid] and
    [ask], the symbol is "base/quote" with an allowed quote, the volume is
    not below the minimum, neither price is [<= 0], and the spread in
    percent is not above the maximum.  (The tickers are a [dict] of
    [dict]s.) *)
Theorem filtered_iff_every_check_passes
    (all_tickers : list (string * list (string * ticker))) (self : ArbitrageBot)
    (filtered : gmap string (gset string)) (exchange symbol : string) :
  tickers_wf all_tickers →
  result_of (filter_pairs_by_liquidity all_tickers self) = Return filtered →
  symbol ∈ filtered_get exchange filtered ↔
  ∃ (tickers : list (string * ticker)) (t : ticker) (quote_vol bid ask : float)
    (base quote : string),
    pydict_get exchange all_tickers = Some tickers ∧ pydict_get symbol tickers = Some t ∧
    t !! "quoteVolume" = Some (PyNum quote_vol) ∧
    t !! "bid" = Some (PyNum bid) ∧ t !! "ask" = Some (PyNum ask) ∧
    str_split slash symbol = [base; quote] ∧
    quote ∈ quote_currencies (config self) ∧
    PrimFloat.ltb quote_vol (min_volume_usd (config self)) = false ∧
    PrimFloat.leb bid 0 = false ∧ PrimFloat.leb ask 0 = false ∧
    PrimFloat.ltb (max_spread_percent (config self)) ((ask - bid) / bid * 100) = false.
Proof.
  intros Hwf Hres. rewrite (filter_pairs_spec _ _ _ Hwf Hres). split.
  - intros (tickers & t & ? & ? &
             (quote_vol & bid & ask & base & quote & ?)%passes_filters_iff).
    by exists tickers, t, quote_vol, bid, ask, base, quote.
  - intros (tickers & t & quote_vol & bid & ask & base & quote & ? & ? & Hchecks).
    exists tickers, t. split_and!; [done..|].
    apply passes_filters_iff. by exists quote_vol, bid, ask, base, quote.
Qed.

Lemma filtered_iff_every_check_passes_witness :
  "BTC/USDT" ∈ filtered_get "binance" filtered_example ↔
  ∃ (tickers : list (string * ticker)) (t : ticker) (quote_vol bid ask : float)
    (base quote : string),
    pydict_get "binance" tickers_example = Some tickers ∧
    pydict_get "BTC/USDT" tickers = Some t ∧
    t !! "quoteVolume" = Some (PyNum quote_vol) ∧
    t !! "bid" = Some (PyNum bid) ∧ t !! "ask" = Some (PyNum ask) ∧
    str_split slash "BTC/USDT" = [base; quote] ∧
    quote ∈ quote_currencies CONFIG ∧
    PrimFloat.ltb quote_vol (min_volume_usd CONFIG) = false ∧
    PrimFloat.leb bid 0 = false ∧ PrimFloat.leb ask 0 = false ∧
    PrimFloat.ltb (max_spread_percent CONFIG) ((ask - bid) / bid * 100) = false.
Proof.
  apply (filtered_iff_every_check_passes tickers_example (bot_of CONFIG [])
           filtered_example "binance" "BTC/USDT").
  - split; repeat constructor; apply (bool_decide_unpack _); vm_compute; exact I.
  - reflexivity.
Defined.

(** X6. The filter returns no venue with an empty set: a venue is a key of
    the result only if one of its symbols passed, and then it is a venue of
    the tickers. *)
Theorem filtered_has_no_empty_venue
    (all_tickers : list (string * list (string * ticker))) (self : ArbitrageBot)
    (filtered : gmap string (gset string)) (exchange : string) (pairs : gset string) :
  result_of (filter_pairs_by_liquidity all_tickers self) = Return filtered →
  filtered !! exchange = Some pairs →
  ∃ symbol, symbol ∈ pairs ∧ is_Some (pydict_get exchange all_tickers).
Proof.
  intros Hres Hlook.
  pose proof (filter_pairs_loops _ _ _ Hres) as Hfold.
  destruct (filter_loops_nonempty _ _ _ Hfold exchange pairs Hlook) as [symbol Hin].
  exists symbol. split; [done|].
  assert (symbol ∈ filtered_get exchange filtered) as Hget.
  { unfold filtered_get. by rewrite Hlook. }
  apply (filter_pairs_items _ _ _ Hres) in Hget as (tickers & _ & Hex & _).
  destruct (pydict_get exchange all_tickers) as [tickers'|] eqn:Hnone; [by eexists|].
  apply pydict_get_None_keys in Hnone. exfalso. apply Hnone.
  apply list_elem_of_fmap. by exists (exchange, tickers).
Qed.

Lemma filtered_has_no_empty_venue_witness :
  ∃ symbol, symbol ∈ ({[ "BTC/USDT" ]} : gset string) ∧
            is_Some (pydict_get "binance" tickers_example).
Proof.
  apply (filtered_has_no_empty_venue tickers_example (bot_of CONFIG [])
           filtered_example "binance" {[ "BTC/USDT" ]});
    reflexivity.
Defined.

(** X7. What the filter lists for a venue depends on the tickers of that
    venue only: two runs that return, under the same configuration, on
    tickers that agree on the venue, list the same symbols for it.  (The
    tickers are [dict]s of [dict]s.) *)
Theorem filter_venues_are_independent
    (tickers1 tickers2 : list (string * list (string * ticker)))
    (self1 self2 : ArbitrageBot)
    (filtered1 filtered2 : gmap string (gset string)) (exchange : string) :
  tickers_wf tickers1 → tickers_wf tickers2 →
  config self1 = config self2 →
  pydict_get exchange tickers1 = pydict_get exchange tickers2 →
  result_of (filter_pairs_by_liquidity tickers1 self1) = Return filtered1 →
  result_of (filter_pairs_by_liquidity tickers2 self2) = Return filtered2 →
  filtered_get exchange filtered1 = filtered_get exchange filtered2.
Proof.
  intros Hwf1 Hwf2 Hcfg Hex Hres1 Hres2. apply set_eq. intros symbol.
  rewrite (filter_pairs_spec _ _ _ Hwf1 Hres1), (filter_pairs_spec _ _ _ Hwf2 Hres2).
  by rewrite Hcfg, Hex.
Qed.

Lemma filter_venues_are_independent_witness :
  filtered_get "binance" filtered_example = filtered_get "binance" filtered_two_venues.
Proof.
  apply (filter_venues_are_independent tickers_example tickers_two_venues
           (bot_of CONFIG []) (bot_of CONFIG store_example)).
  - split; repeat constructor; apply (bool_decide_unpack _); vm_compute; exact I.
  - split; repeat constructor; apply (bool_decide_unpack _); vm_compute; exact I.
  - reflexivity.
  - reflexivity.
  - reflexivity.
  - reflexivity.
Defined.

(** X8. A malformed symbol is not skipped: one non-empty ticker with a
    numeric [quoteVolume] under a symbol with more than one slash makes the
    whole filter raise, for every venue, with nothing logged and the bot as
    it was. *)
Theorem malformed_symbol_aborts_filter
    (all_tickers : list (string * list (string * ticker))) (self : ArbitrageBot)
    (exchange symbol : string) (tickers : list (string * ticker)) (t : ticker)
    (quote_vol : float) :
  pydict_get exchange all_tickers = Some tickers → pydict_get symbol tickers = Some t →
  t !! "quoteVolume" = Some (PyNum quote_vol) →
  (2 < length (str_split slash symbol))%nat →
  ∃ e, filter_pairs_by_liquidity all_tickers self = (Raise e, self, []).
Proof.
  intros Htickers%pydict_get_elem Ht%pydict_get_elem Hvol Hlen. rewrite filter_pairs_run.
  destruct (filter_loops_raise (config self) all_tickers exchange tickers symbol t
              ValueError Htickers Ht) as [e ->]; [|by exists e].
  by eapply passes_filters_malformed.
Qed.

Lemma malformed_symbol_aborts_filter_witness :
  ∃ e, filter_pairs_by_liquidity tickers_malformed (bot_of CONFIG store_example)
       = (Raise e, bot_of CONFIG store_example, []).
Proof.
  apply (malformed_symbol_aborts_filter tickers_malformed (bot_of CONFIG store_example)
           "binance" "A/B/C"
           [("BTC/USDT", ticker_of 2000000 100 100.5);
            ("A/B/C", ticker_of 2000000 100 100.5)]
           (ticker_of 2000000 100 100.5) 2000000%float);
    [reflexivity..|vm_compute; lia].
Defined.

Lemma watch_book_stores_last_witness :
  get_book "binance" "BTC/USDT"
    (orderbooks (state_of (_watch_book "binance" "BTC/USDT"
       [Return (book_of 100 101 3000); Raise StreamError; Return (book_of 100 101 1000);
        Raise StreamError]
       (bot_of CONFIG store_stamped))))
  = Some (book_of 100 101 1000).
Proof.
  apply (watch_book_stores_last "binance" "BTC/USDT"
           [Return (book_of 100 101 3000); Raise StreamError;
            Return (book_of 100 101 1000); Raise StreamError]
           (bot_of CONFIG store_stamped)).
  reflexivity.
Defined.

(** ** The watcher: what it keeps, what it catches *)

Section store_more.
Context {V : Type}.
Implicit Types (d : list (string * V)) (k : string) (v : V).

(** Writing a key that is there keeps the keys and their order; a new key
    goes last. *)
Lemma pydict_keys_set k v d :
  pydict_keys (pydict_set k v d) =
  if bool_decide (k ∈ pydict_keys d) then pydict_keys d else pydict_keys d ++ [k].
Proof.
  unfold pydict_keys. induction d as [|[k' v'] d IH].
  - case_bool_decide as Hin; [by apply elem_of_nil in Hin|done].
  - cbn [pydict_set]. destruct (String.eqb k' k) eqn:Hk.
    + apply String.eqb_eq in Hk as ->. clear IH.
      case_bool_decide as Hin; [reflexivity|]. exfalso. apply Hin. rewrite fmap_cons. left.
    + apply String.eqb_neq in Hk. rewrite !fmap_cons, IH. cbn [fst].
      repeat case_bool_decide; try done.
      * exfalso. set_solver.
      * exfalso. set_solver.
Qed.

Lemma pydict_set_NoDup k v d :
  NoDup (pydict_keys d) → NoDup (pydict_keys (pydict_set k v d)).
Proof.
  intros Hd. rewrite pydict_keys_set. case_bool_decide as Hin; [done|].
  apply NoDup_app. split_and!; [done| |apply NoDup_singleton].
  intros x Hx ->%list_elem_of_singleton. done.
Qed.

Lemma pydict_set_Forall (P : V → Prop) k v d :
  Forall (λ entry, P entry.2) d → P v → Forall (λ entry, P entry.2) (pydict_set k v d).
Proof.
  intros Hd Hv. induction Hd as [|[k' v'] d Hv' Hd IH]; simpl.
  - by repeat constructor.
  - destruct (String.eqb k' k); by constructor.
Qed.
End store_more.

Section watch_more.
Implicit Types (self s : ArbitrageBot) (exchange symbol : string) (book : orderbook).

(** The store after a snapshot was written keeps the shape of a [dict] of
    [dict]s. *)
Lemma store_wf_set exchange symbol book (obs : list (string * list (string * orderbook))) :
  store_wf obs →
  store_wf (pydict_set exchange
              (pydict_set symbol book (default [] (pydict_get exchange obs))) obs).
Proof.
  intros [Hvenues Hsymbols]. split.
  - by apply pydict_set_NoDup.
  - apply (pydict_set_Forall (λ ex_books, NoDup (pydict_keys ex_books))); [done|].
    apply pydict_set_NoDup.
    destruct (pydict_get exchange obs) as [ex_books|] eqn:Hget; simpl.
    + apply pydict_get_elem in Hget.
      by apply (proj1 (Forall_forall _ _) Hsymbols (exchange, ex_books)).
    + apply NoDup_nil_2.
Qed.

(** A turn on a received snapshot, in full: the snapshot is stored, the
    detection runs on the store that holds it, and an exception of the
    detection is logged. *)
Lemma _watch_book_turn_eq exchange symbol book s :
  _watch_book_turn exchange symbol (Return book) s =
  (Return tt,
   set_orderbooks
     (pydict_set exchange
        (pydict_set symbol book (default [] (pydict_get exchange (orderbooks s))))
        (orderbooks s)) s,
   trace_of (detect_opportunities_for_symbol symbol
     (set_orderbooks
        (pydict_set exchange
           (pydict_set symbol book (default [] (pydict_get exchange (orderbooks s))))
           (orderbooks s)) s)) ++
   match result_of (detect_opportunities_for_symbol symbol
     (set_orderbooks
        (pydict_set exchange
           (pydict_set symbol book (default [] (pydict_get exchange (orderbooks s))))
           (orderbooks s)) s)) with
   | Return _ => []
   | Raise e => [LogWatchError exchange symbol e]
   end).
Proof.
  unfold _watch_book_turn, try_except. rewrite bind_lift_return.
  unfold orderbooks_getitem. unfold bind at 1. rewrite bind_get_self.
  destruct (pydict_get exchange (orderbooks s)) as [ex_books|] eqn:Hget; simpl.
  - rewrite bind_get_self, bind_put_self.
    match goal with
    | |- context [detect_opportunities_for_symbol symbol ?s1] =>
        pose proof (detect_opportunities_state symbol s1) as Hstate;
        pose proof (detect_opportunities_raises symbol s1) as Hraise;
        destruct (detect_opportunities_for_symbol symbol s1) as [[[[]|e] s'] log]
    end; unfold state_of, result_of, trace_of in *; simpl in *; subst s'.
    + by rewrite app_nil_r.
    + by rewrite (Hraise e eq_refl).
  - rewrite bind_get_self, bind_put_self. simpl. rewrite pydict_set_set.
    change (set_orderbooks ?obs (set_orderbooks _ s)) with (set_orderbooks obs s).
    match goal with
    | |- context [detect_opportunities_for_symbol symbol ?s1] =>
        pose proof (detect_opportunities_state symbol s1) as Hstate;
        pose proof (detect_opportunities_raises symbol s1) as Hraise;
        destruct (detect_opportunities_for_symbol symbol s1) as [[[[]|e] s'] log]
    end; unfold state_of, result_of, trace_of in *; simpl in *; subst s'.
    + by rewrite app_nil_r.
    + by rewrite (Hraise e eq_refl).
Qed.

(** The bot after a turn of the watcher, whatever it received. *)
Lemma _watch_book_turn_state_any exchange symbol received s :
  state_of (_watch_book_turn exchange symbol received s) =
  match received with
  | Return book =>
      set_orderbooks
        (pydict_set exchange
           (pydict_set symbol book (default [] (pydict_get exchange (orderbooks s))))
           (orderbooks s)) s
  | Raise _ => s
  end.
Proof.
  destruct received as [book|e]; [apply _watch_book_turn_state|].
  rewrite _watch_book_turn_raise. by destruct (is_Exception e).
Qed.
End watch_more.



(** X11. A turn of the watcher runs the detection on the store that already
    holds the received snapshot: its events are those of that detection,
    followed by one error line if the detection raised. *)
Theorem watch_turn_detects_on_updated_store (exchange_name symbol : string)
    (book : orderbook) (self : ArbitrageBot) :
  let updated :=
    set_orderbooks
      (pydict_set exchange_name
         (pydict_set symbol book
            (default [] (pydict_get exchange_name (orderbooks self))))
         (orderbooks self)) self in
  get_book exchange_name symbol (orderbooks updated) = Some book ∧
  trace_of (_watch_book_turn exchange_name symbol (Return book) self) =
    trace_of (detect_opportunities_for_symbol symbol updated) ++
    match result_of (detect_opportunities_for_symbol symbol updated) with
    | Return _ => []
    | Raise e => [LogWatchError exchange_name symbol e]
    end.
Proof.
  cbv zeta. split; [apply get_book_after_set|].
  by rewrite _watch_book_turn_eq.
Qed.

(** X12. The order of the venues in the store is the order of their first
    snapshots: a snapshot for a venue that is there leaves the order of the
    venues as it is, a snapshot for a new venue puts the venue last. *)
Theorem watch_turn_keeps_venue_order (exchange_name symbol : string)
    (book : orderbook) (self : ArbitrageBot) :
  pydict_keys (orderbooks (state_of (_watch_book_turn exchange_name symbol
                                       (Return book) self))) =
  if bool_decide (exchange_name ∈ pydict_keys (orderbooks self))
  then pydict_keys (orderbooks self)
  else pydict_keys (orderbooks self) ++ [exchange_name].
Proof. rewrite _watch_book_turn_state. simpl. apply pydict_keys_set. Qed.

(** X13. A watcher keeps the store a [dict] of [dict]s: if no venue is
    there twice and no symbol twice under a venue, the same holds after any
    feed. *)
Theorem watch_book_keeps_store_wf (exchange_name symbol : string)
    (feed : list (outcome orderbook)) (self : ArbitrageBot) :
  store_wf (orderbooks self) →
  store_wf (orderbooks (state_of (_watch_book exchange_name symbol feed self))).
Proof.
  unfold _watch_book. apply (for_state_inv (λ s, store_wf (orderbooks s))).
  intros received s _ Hwf. rewrite bind_get_self.
  destruct (running s); [|done].
  rewrite _watch_book_turn_state_any.
  destruct received as [book|e]; [|done].
  simpl. by apply store_wf_set.
Qed.

Lemma watch_book_keeps_store_wf_witness :
  store_wf (orderbooks (state_of (_watch_book "kraken" "ETH/USDT"
              [Return (book_of 100 101 3000); Raise StreamError;
               Return (book_of 100 101 1000)]
              (bot_of CONFIG store_example)))).
Proof.
  apply (watch_book_keeps_store_wf "kraken" "ETH/USDT"
           [Return (book_of 100 101 3000); Raise StreamError;
            Return (book_of 100 101 1000)]
           (bot_of CONFIG store_example)).
  split.
  - apply (bool_decide_unpack _). vm_compute. exact I.
  - repeat constructor; apply (bool_decide_unpack _); vm_compute; exact I.
Defined.

(** ** The triangle scan: searching pairs, raising, leaving the bot alone *)

Section triangle_more.
Implicit Types (self s : ArbitrageBot) (exchange a b c : string).

Lemma pydict_set_None {V : Type} (d : list (string * V)) (k : string) (v : V) :
  pydict_get k d = None → pydict_set k v d = d ++ [(k, v)].
Proof.
  induction d as [|[k' v'] d IH]; simpl; [done|].
  destruct (String.eqb k' k); [done|]. intros Hget. by rewrite IH.
Qed.

(** The search does not care which coin is named first. *)
Lemma _find_pair_loop_sym a b (symbols : list string) :
  _find_pair_loop a b symbols = _find_pair_loop b a symbols.
Proof.
  induction symbols as [|sym symbols IH]; simpl; [done|].
  destruct (str_contains slash sym); [|done].
  destruct (split_pair sym) as [[base quote]|]; simpl; [|done].
  rewrite (orb_comm (String.eqb base a && String.eqb quote b)). by rewrite IH.
Qed.

(** A search that finds nothing passed no symbol that joins the coins. *)
Lemma _find_pair_loop_None a b (symbols : list string) sym base quote :
  _find_pair_loop a b symbols = Return None →
  sym ∈ symbols → str_split slash sym = [base; quote] →
  ¬ ((base = a ∧ quote = b) ∨ (base = b ∧ quote = a)).
Proof.
  intros Hfind Hin Hsplit.
  induction symbols as [|sym' symbols IH]; [by apply elem_of_nil in Hin|].
  simpl in Hfind.
  assert (_find_pair_loop a b symbols = Return None ∧
          (sym' = sym → ¬ ((base = a ∧ quote = b) ∨ (base = b ∧ quote = a))))
    as [Hrest Hhere].
  { destruct (str_contains slash sym') eqn:Hc.
    - destruct (split_pair sym') as [[base' quote']|] eqn:Hsp; simpl in Hfind; [|done].
      destruct ((String.eqb base' a && String.eqb quote' b)
                || (String.eqb base' b && String.eqb quote' a)) eqn:Hjoin; [done|].
      split; [done|]. intros ->.
      apply split_pair_Return in Hsp. rewrite Hsplit in Hsp. injection Hsp as <- <-.
      intros [[-> ->]|[-> ->]]; by rewrite !String.eqb_refl, ?orb_true_r in Hjoin.
    - split; [done|]. intros ->.
      by rewrite (str_split_pair_contains _ _ _ Hsplit) in Hc. }
  apply elem_of_cons in Hin as [->|Hin]; [by apply Hhere|by apply IH].
Qed.

(** The first loop of the scan raises nothing but [ValueError]. *)
Lemma coins_of_raise (symbols : list string) (acc : gset string) e :
  coins_of symbols acc = Raise e → e = ValueError.
Proof.
  revert acc. induction symbols as [|sym symbols IH]; intros acc; simpl; [done|].
  destruct (str_contains slash sym); [|by apply IH].
  unfold split_pair.
  destruct (str_split slash sym) as [|? [|? [|??]]]; simpl;
    try (by intros [= <-]).
  by apply IH.
Qed.

(** A symbol of more than two parts stops the first loop of the scan. *)
Lemma coins_of_malformed (symbols : list string) (acc : gset string) sym :
  sym ∈ symbols → (2 < length (str_split slash sym))%nat →
  coins_of symbols acc = Raise ValueError.
Proof.
  intros Hin Hlen. revert acc.
  induction symbols as [|sym' symbols IH]; intros acc; [by apply elem_of_nil in Hin|].
  simpl. apply elem_of_cons in Hin as [<-|Hin].
  - destruct (str_contains slash sym) eqn:Hc.
    + unfold split_pair.
      by destruct (str_split slash sym) as [|? [|? [|??]]]; simpl in *; try lia.
    + rewrite (str_split_no_sep _ _ Hc) in Hlen. simpl in Hlen. lia.
  - destruct (str_contains slash sym'); [|by apply IH].
    destruct (split_pair sym') as [[base quote]|] eqn:Hsp; simpl; [by apply IH|].
    unfold split_pair in Hsp.
    destruct (str_split slash sym') as [|? [|? [|??]]]; congruence.
Qed.

(** The first loop of the scan collects every base and every quote. *)
Lemma coins_of_names (symbols : list string) (acc coins : gset string) x :
  coins_of symbols acc = Return coins →
  x ∈ acc ∨ names_coin symbols x → x ∈ coins.
Proof.
  revert acc. induction symbols as [|symbol symbols IH]; intros acc; simpl.
  - intros [= <-] [?|(sym & ? & ? & Hin & _)]; [done|by apply elem_of_nil in Hin].
  - destruct (str_contains slash symbol) eqn:Hc.
    + destruct (split_pair symbol) as [[base quote]|] eqn:Hsplit; simpl; [|done].
      apply split_pair_Return in Hsplit.
      intros Hcoins [Hacc|(sym & b' & q' & Hin & Hsp & Hx)]; apply (IH _ Hcoins).
      * left. set_solver.
      * apply elem_of_cons in Hin as [->|Hin].
        -- left. rewrite Hsplit in Hsp. injection Hsp as <- <-. set_solver.
        -- right. by exists sym, b', q'.
    + intros Hcoins [Hacc|(sym & b' & q' & Hin & Hsp & Hx)]; apply (IH _ Hcoins).
      * by left.
      * apply elem_of_cons in Hin as [->|Hin].
        -- by rewrite (str_split_pair_contains _ _ _ Hsp) in Hc.
        -- right. by exists sym, b', q'.
Qed.
End triangle_more.

(** X14. [_find_pair] asked about a venue that is not in the store answers
    [None], logs nothing and, reading the [defaultdict], adds the venue to
    the store, last and without books; the books of the other venues stay. *)
Theorem find_pair_creates_missing_venue (exchange_name coin1 coin2 : string)
    (self : ArbitrageBot) :
  pydict_get exchange_name (orderbooks self) = None →
  _find_pair exchange_name coin1 coin2 self =
  (Return None,
   set_orderbooks (orderbooks self ++ [(exchange_name, [])]) self, []).
Proof.
  intros Hget. unfold _find_pair, orderbooks_getitem.
  unfold bind at 1. rewrite bind_get_self, Hget, bind_put_self. simpl.
  by rewrite (pydict_set_None _ _ _ Hget).
Qed.

Lemma find_pair_creates_missing_venue_witness :
  _find_pair "kraken" "BTC" "USDT" (bot_of CONFIG store_triangle) =
  (Return None,
   set_orderbooks (store_triangle ++ [("kraken", [])]) (bot_of CONFIG store_triangle), []).
Proof.
  apply (find_pair_creates_missing_venue "kraken" "BTC" "USDT"
           (bot_of CONFIG store_triangle)).
  reflexivity.
Defined.

(** X15. The search for a pair, over symbols that unpack, does what its
    docstring says: the order of the two coins does not matter; a symbol it
    returns is a symbol of the venue whose base and quote are the two coins,
    in either order; and when it returns [None], no symbol of the venue is
    such. *)
Theorem find_pair_finds_a_joining_symbol (coin1 coin2 : string)
    (symbols : list string) (r : option string) :
  _find_pair_loop coin1 coin2 symbols = Return r →
  _find_pair_loop coin2 coin1 symbols = Return r ∧
  match r with
  | Some sym =>
      sym ∈ symbols ∧
      ∃ base quote, str_split slash sym = [base; quote] ∧
        ((base = coin1 ∧ quote = coin2) ∨ (base = coin2 ∧ quote = coin1))
  | None =>
      ∀ sym base quote, sym ∈ symbols → str_split slash sym = [base; quote] →
        ¬ ((base = coin1 ∧ quote = coin2) ∨ (base = coin2 ∧ quote = coin1))
  end.
Proof.
  intros Hfind. split; [by rewrite <- _find_pair_loop_sym|].
  destruct r as [sym|].
  - apply _find_pair_loop_Some in Hfind as (? & _ & base & quote & Hsp & ?).
    split; [done|]. exists base, quote. by apply split_pair_Return in Hsp.
  - intros sym base quote. by apply _find_pair_loop_None.
Qed.

Lemma find_pair_finds_a_joining_symbol_witness :
  _find_pair_loop "USDT" "ETH" ["BTC/USDT"; "ETH/BTC"; "ETH/USDT"]
    = Return (Some "ETH/USDT") ∧
  "ETH/USDT" ∈ ["BTC/USDT"; "ETH/BTC"; "ETH/USDT"] ∧
  ∃ base quote, str_split slash "ETH/USDT" = [base; quote] ∧
    ((base = "ETH" ∧ quote = "USDT") ∨ (base = "USDT" ∧ quote = "ETH")).
Proof.
  apply (find_pair_finds_a_joining_symbol "ETH" "USDT"
           ["BTC/USDT"; "ETH/BTC"; "ETH/USDT"] (Some "ETH/USDT")).
  reflexivity.
Defined.

(** The two ways a triangle scan ends: it returns with the bot as it was, or
    it raises [ValueError] with the bot as it was and nothing logged. *)
Lemma scan_cases (exchange_name : string) (self : ArbitrageBot) :
  (∃ log, detect_triangular_opportunities exchange_name self = (Return tt, self, log)) ∨
  detect_triangular_opportunities exchange_name self = (Raise ValueError, self, []).
Proof.
  destruct (pydict_get exchange_name (orderbooks self)) as [ex_books|] eqn:Hget.
  - destruct (Nat.ltb (length ex_books) 3) eqn:Hlen.
    + left. exists []. unfold detect_triangular_opportunities.
      rewrite bind_get_self, Hget. simpl. by rewrite Hlen.
    + apply Nat.ltb_ge in Hlen.
      destruct (coins_of (pydict_keys ex_books) ∅) as [coins|e] eqn:Hcoins.
      * destruct (scan_present exchange_name self ex_books coins Hget Hlen Hcoins)
          as (log & Hrun & _).
        left. by exists log.
      * right. apply Nat.ltb_ge in Hlen.
        unfold detect_triangular_opportunities. rewrite bind_get_self, Hget. simpl.
        rewrite Hlen, Hcoins, bind_lift_raise.
        by apply coins_of_raise in Hcoins as ->.
  - left. exists []. unfold detect_triangular_opportunities.
    by rewrite bind_get_self, Hget.
Qed.

(** X16. A triangle scan never changes the bot (it is guarded against the
    [defaultdict] of [_find_pair]), and it returns or raises [ValueError]
    before anything is logged, nothing else. *)
Theorem scan_never_changes_the_bot (exchange_name : string) (self : ArbitrageBot) :
  state_of (detect_triangular_opportunities exchange_name self) = self ∧
  (result_of (detect_triangular_opportunities exchange_name self) = Return tt ∨
   (result_of (detect_triangular_opportunities exchange_name self) = Raise ValueError ∧
    trace_of (detect_triangular_opportunities exchange_name self) = [])).
Proof.
  destruct (scan_cases exchange_name self) as [[log Hrun]|Hrun]; rewrite Hrun.
  - split; [done|by left].
  - split; [done|by right].
Qed.

(** X17. A malformed symbol is not skipped by the scan either: on a venue
    with at least three books, one book stored under a symbol with more than
    one slash makes the scan raise [ValueError], with nothing logged. *)
Theorem malformed_symbol_aborts_scan (exchange_name symbol : string)
    (ex_books : list (string * orderbook)) (self : ArbitrageBot) :
  pydict_get exchange_name (orderbooks self) = Some ex_books →
  (3 ≤ length ex_books)%nat →
  symbol ∈ pydict_keys ex_books →
  (2 < length (str_split slash symbol))%nat →
  detect_triangular_opportunities exchange_name self = (Raise ValueError, self, []).
Proof.
  intros Hget Hlen Hin Hparts.
  unfold detect_triangular_opportunities. rewrite bind_get_self, Hget. simpl.
  apply Nat.ltb_ge in Hlen. rewrite Hlen.
  by rewrite (coins_of_malformed _ _ _ Hin Hparts), bind_lift_raise.
Qed.

Lemma malformed_symbol_aborts_scan_witness :
  detect_triangular_opportunities "binance" (bot_of CONFIG store_malformed)
  = (Raise ValueError, bot_of CONFIG store_malformed, []).
Proof.
  apply (malformed_symbol_aborts_scan "binance" "A/B/C"
           [("BTC/USDT", book_of 39990 40000 1);
            ("ETH/BTC", book_of 0.0499 0.05 1);
            ("A/B/C", book_of 1 2 1)]
           (bot_of CONFIG store_malformed)).
  - reflexivity.
  - vm_compute. lia.
  - apply (bool_decide_unpack _). vm_compute. exact I.
  - vm_compute. lia.
Defined.

(** X18. One round of the triangle loop over any venues leaves the bot as
    it is, logs nothing but potential triangles of those venues, and returns
    or raises [ValueError]. *)
Theorem triangle_round_only_logs (exchanges_pro : list string) (self : ArbitrageBot) :
  state_of (triangle_loop_turn exchanges_pro self) = self ∧
  (∀ ev : event, ev ∈ trace_of (triangle_loop_turn exchanges_pro self) →
     ∃ exchange a b c pair_ab pair_bc pair_ca : string,
       exchange ∈ exchanges_pro ∧
       ev = LogTriangle exchange a b c pair_ab pair_bc pair_ca) ∧
  (result_of (triangle_loop_turn exchanges_pro self) = Return tt ∨
   result_of (triangle_loop_turn exchanges_pro self) = Raise ValueError).
Proof.
  unfold triangle_loop_turn.
  assert (∀ (x : string) (s : ArbitrageBot), x ∈ exchanges_pro → s = self →
            state_of (detect_triangular_opportunities x s) = self) as Hstate.
  { intros x s _ ->. by destruct (scan_cases x self) as [[log ->]| ->]. }
  split_and!.
  - by apply (for_state_inv (λ s, s = self)).
  - intros ev Hev.
    apply (for_elem_inv (λ s, s = self)) in Hev as (exchange & ? & Hin & -> & Hev);
      [|done..].
    apply scan_logs_triangles_only in Hev as (a & b & c & ab & bc & ca & ->).
    by exists exchange, a, b, c, ab, bc, ca.
  - destruct (for_result_inv (λ s, s = self) exchanges_pro
                detect_triangular_opportunities Hstate self eq_refl)
      as [?|(x & ? & e & _ & -> & Hraise & ->)]; [by left|].
    right. destruct (scan_cases x self) as [[log Hrun]|Hrun];
      rewrite Hrun in Hraise; unfold result_of in Hraise; simpl in Hraise;
      congruence.
Qed.

(** X19. The coins of the first loop of the scan are exactly the bases and
    the quotes of the symbols of the venue, when all its symbols unpack. *)
Theorem coins_are_bases_and_quotes (symbols : list string) (coins : gset string)
    (x : string) :
  coins_of symbols ∅ = Return coins →
  x ∈ coins ↔ names_coin symbols x.
Proof.
  intros Hcoins. split.
  - intros Hx. by destruct (coins_of_elem _ _ _ _ Hcoins Hx) as [?%not_elem_of_empty|?].
  - intros Hx. apply (coins_of_names _ _ _ _ Hcoins). by right.
Qed.

Lemma coins_are_bases_and_quotes_witness :
  "ETH" ∈ ({[ "BTC"; "USDT"; "ETH" ]} : gset string) ↔
  names_coin ["BTC/USDT"; "ETH/BTC"; "ETH/USDT"] "ETH".
Proof.
  apply (coins_are_bases_and_quotes ["BTC/USDT"; "ETH/BTC"; "ETH/USDT"]
           {[ "BTC"; "USDT"; "ETH" ]} "ETH").
  vm_compute. reflexivity.
Defined.

(** ** Unpacking a symbol *)

Section unpacking.
Implicit Types (sep : ascii) (s p q : string).

Lemma str_split_single sep s p :
  str_split sep s = [p] → s = p ∧ str_contains sep p = false.
Proof.
  revert p. induction s as [|a s IH]; intros p; simpl.
  - by intros [= <-].
  - destruct (Ascii.eqb a sep) eqn:Ha.
    + intros [= _ Hnil]. by apply str_split_not_nil in Hnil.
    + destruct (str_split sep s) as [|w ws] eqn:Hs; [by apply str_split_not_nil in Hs|].
      intros [= <- ->]. destruct (IH w eq_refl) as [-> Hw]. simpl. by rewrite Ha.
Qed.

Lemma str_split_cons sep s p q (rest : list string) :
  str_split sep s = p :: q :: rest →
  ∃ s', s = p +:+ String sep s' ∧ str_split sep s' = q :: rest ∧
        str_contains sep p = false.
Proof.
  revert p. induction s as [|a s IH]; intros p; simpl; [done|].
  destruct (Ascii.eqb a sep) eqn:Ha.
  - intros [= <- Hs]. apply Ascii.eqb_eq in Ha as ->. by exists s.
  - destruct (str_split sep s) as [|w ws] eqn:Hs; [done|].
    intros [= <- ->]. destruct (IH w eq_refl) as (s' & -> & ? & Hw).
    exists s'. simpl. by rewrite Ha.
Qed.

Lemma str_split_app_sep sep p s :
  str_contains sep p = false →
  str_split sep (p +:+ String sep s) = p :: str_split sep s.
Proof.
  induction p as [|a p IH]; simpl.
  - intros _. by rewrite Ascii.eqb_refl.
  - destruct (Ascii.eqb a sep); [done|]. intros Hp. by rewrite IH.
Qed.
End unpacking.

(** X20. A symbol unpacks into (base, quote) exactly when it is the base, one
    slash and the quote, with no slash in either; every other symbol with a
    slash raises. *)
Theorem split_pair_spec (symbol base quote : string) :
  split_pair symbol = Return (base, quote) ↔
  symbol = base +:+ "/" +:+ quote ∧
  str_contains slash base = false ∧ str_contains slash quote = false.
Proof.
  rewrite split_pair_Return. split.
  - intros (s' & -> & [-> ?]%str_split_single & ?)%str_split_cons. done.
  - intros (-> & Hbase & Hquote).
    change (base +:+ "/" +:+ quote) with (base +:+ String slash quote).
    by rewrite (str_split_app_sep _ _ _ Hbase), (str_split_no_sep _ _ Hquote).
Qed.

(** ** Fetching and refreshing *)

Section fetching.
Implicit Types (l : list (string * outcome (list (string * ticker)))) (name : string).

(** With venues named once, there is a task per venue, in their order. *)
Lemma fetch_tasks l (tasks : list (string * outcome (list (string * ticker)))) :
  NoDup (tasks.*1 ++ l.*1) →
  foldl (λ tasks '(name, answer), pydict_set name (_safe_fetch_tickers answer) tasks)
        tasks l
  = tasks ++ ((λ '(name, answer), (name, _safe_fetch_tickers answer)) <$> l).
Proof.
  revert tasks. induction l as [|[name answer] l IH]; intros tasks Hnodup; simpl.
  { by rewrite app_nil_r. }
  rewrite fmap_cons in Hnodup. simpl in Hnodup.
  rewrite pydict_set_fresh.
  - rewrite IH; [by rewrite <- app_assoc|].
    rewrite fmap_app. simpl. by rewrite <- app_assoc.
  - apply NoDup_app in Hnodup as (_ & Hdisj & _). intros Hin.
    apply (Hdisj name Hin). left.
Qed.

(** The results of the tasks: the tickers of a venue that answered,
    nothing for a venue whose call raised an [Exception]. *)
Lemma fetch_results l (results all_tickers : list (string * list (string * ticker))) :
  NoDup (results.*1 ++ l.*1) →
  fold_items ((λ '(name, answer), (name, _safe_fetch_tickers answer)) <$> l) results
    (λ name task results,
       otry (tickers <-? task ;; Return (pydict_set name tickers results))
            (λ _, Return (pydict_set name [] results)))
  = Return all_tickers →
  all_tickers =
  results ++ ((λ '(name, answer), (name, match answer with
                                         | Return tickers => tickers
                                         | Raise _ => []
                                         end)) <$> l).
Proof.
  revert results. induction l as [|[name answer] l IH]; intros results Hnodup Hrun;
    simpl in Hrun.
  { injection Hrun as <-. by rewrite app_nil_r. }
  rewrite fmap_cons in Hnodup. simpl in Hnodup.
  assert (name ∉ pydict_keys results) as Hfresh.
  { apply NoDup_app in Hnodup as (_ & Hdisj & _). intros Hin.
    apply (Hdisj name Hin). left. }
  assert (∀ tickers, NoDup ((results ++ [(name, tickers)]).*1 ++ l.*1)) as Hnext.
  { intros tickers. rewrite fmap_app. simpl. by rewrite <- app_assoc. }
  unfold _safe_fetch_tickers, otry in Hrun.
  destruct answer as [tickers|e]; [|destruct (is_Exception e) eqn:Hexc]; simpl in Hrun.
  - rewrite (pydict_set_fresh _ _ _ Hfresh) in Hrun.
    apply IH in Hrun; [|done]. rewrite Hrun. simpl. by rewrite <- app_assoc.
  - rewrite (pydict_set_fresh _ _ _ Hfresh) in Hrun.
    apply IH in Hrun; [|done]. rewrite Hrun. simpl. by rewrite <- app_assoc.
  - by rewrite Hexc in Hrun.
Qed.

Lemma fetch_all_tickers_spec l all_tickers :
  NoDup l.*1 → fetch_all_tickers l = Return all_tickers →
  all_tickers =
  (λ '(name, answer), (name, match answer with
                             | Return tickers => tickers
                             | Raise _ => []
                             end)) <$> l.
Proof.
  intros Hnodup. unfold fetch_all_tickers. rewrite (fetch_tasks l []) by done.
  intros Hrun. by apply (fetch_results l []) in Hrun.
Qed.

(** The entry of a venue that was asked: its tickers, or nothing when the
    call raised. *)
Lemma fetch_all_tickers_item l all_tickers name answer tickers :
  NoDup l.*1 → fetch_all_tickers l = Return all_tickers →
  (name, answer) ∈ l → (name, tickers) ∈ all_tickers →
  tickers = match answer with
            | Return tickers => tickers
            | Raise _ => []
            end.
Proof.
  intros Hnodup Hfetch Hin Hitem.
  apply fetch_all_tickers_spec in Hfetch as ->; [|done].
  apply list_elem_of_fmap in Hitem as ([name' answer'] & Heq & Hin').
  injection Heq as -> ->.
  apply (pydict_elem_get _ _ _ Hnodup) in Hin, Hin'.
  rewrite Hin in Hin'. by injection Hin' as ->.
Qed.

(** A round of the refresh, from the fetch and the run of the filter in
    it. *)
Lemma refresh_filtered_pairs_turn_run l (now : float) s :
  refresh_filtered_pairs_turn l now s =
  match fetch_all_tickers l with
  | Return all_tickers =>
      match result_of (filter_pairs_by_liquidity all_tickers s) with
      | Return filtered =>
          (Return tt, set_filtered_pairs filtered now s,
           trace_of (filter_pairs_by_liquidity all_tickers s))
      | Raise e => (Raise e, s, [])
      end
  | Raise e => (Raise e, s, [])
  end.
Proof.
  unfold refresh_filtered_pairs_turn.
  destruct (fetch_all_tickers l) as [all_tickers|e]; [|by rewrite bind_lift_raise].
  rewrite bind_lift_return. unfold bind at 1. rewrite !filter_pairs_run.
  destruct (fold_items _ _ _) as [filtered|e]; [|done].
  rewrite bind_get_self. unfold put_self, result_of, trace_of. simpl.
  by rewrite ?app_nil_r.
Qed.
End fetching.

(** X21. A venue whose ticker call failed loses its pairs: after a round of
    the refresh that returns, no symbol is listed for it, whatever was
    listed before; the round notes the time and leaves the order books as
    they are. *)
Theorem refresh_drops_failed_venue
    (exchanges_rest : list (string * outcome (list (string * ticker))))
    (now : float) (self : ArbitrageBot) (name : string) (e : exn) :
  NoDup exchanges_rest.*1 →
  (name, Raise e) ∈ exchanges_rest →
  result_of (refresh_filtered_pairs_turn exchanges_rest now self) = Return tt →
  let self' := state_of (refresh_filtered_pairs_turn exchanges_rest now self) in
  filtered_get name (filtered_pairs self') = ∅ ∧
  orderbooks self' = orderbooks self ∧
  last_filter_time self' = now.
Proof.
  intros Hnodup Hin. cbv zeta. rewrite refresh_filtered_pairs_turn_run.
  destruct (fetch_all_tickers exchanges_rest) as [all_tickers|e'] eqn:Hfetch; [|done].
  destruct (result_of (filter_pairs_by_liquidity _ self)) as [filtered|e'] eqn:Hres;
    [|done].
  intros _. unfold state_of. simpl. split_and!; [|done..].
  apply set_eq. intros symbol. rewrite (filter_pairs_items _ _ _ Hres). split.
  - intros (tickers & t & Hex & Ht & _).
    rewrite (fetch_all_tickers_item _ _ _ _ _ Hnodup Hfetch Hin Hex) in Ht.
    by apply elem_of_nil in Ht.
  - by intros ?%not_elem_of_empty.
Qed.

Lemma refresh_drops_failed_venue_witness :
  let self' := state_of (refresh_filtered_pairs_turn answers_example 1700000000
                           bot_filtered) in
  filtered_get "kraken" (filtered_pairs self') = ∅ ∧
  orderbooks self' = orderbooks bot_filtered ∧
  last_filter_time self' = 1700000000%float.
Proof.
  apply (refresh_drops_failed_venue answers_example 1700000000 bot_filtered
           "kraken" StreamError).
  - apply (bool_decide_unpack _). vm_compute. exact I.
  - right. left.
  - reflexivity.
Defined.

(** X22. One malformed symbol in the answer of one venue stops the refresh
    for all venues: the round raises, and the filtered pairs and the time of
    the last refresh stay what they were. *)
Theorem malformed_symbol_blocks_refresh
    (exchanges_rest : list (string * outcome (list (string * ticker))))
    (now : float) (self : ArbitrageBot) (name symbol : string)
    (tickers : list (string * ticker)) (t : ticker) (quote_vol : float) :
  NoDup exchanges_rest.*1 →
  (name, Return tickers) ∈ exchanges_rest →
  pydict_get symbol tickers = Some t →
  t !! "quoteVolume" = Some (PyNum quote_vol) →
  (2 < length (str_split slash symbol))%nat →
  ∃ e, refresh_filtered_pairs_turn exchanges_rest now self = (Raise e, self, []).
Proof.
  intros Hnodup Hin Ht%pydict_get_elem Hvol Hlen. rewrite refresh_filtered_pairs_turn_run.
  destruct (fetch_all_tickers exchanges_rest) as [all_tickers|e'] eqn:Hfetch;
    [|by eexists].
  rewrite filter_pairs_run.
  destruct (filter_loops_raise (config self) all_tickers name tickers symbol t ValueError)
    as [e ->]; [..|by exists e].
  - apply fetch_all_tickers_spec in Hfetch as ->; [|done].
    apply list_elem_of_fmap. by exists (name, Return tickers).
  - done.
  - by eapply passes_filters_malformed.
Qed.

Lemma malformed_symbol_blocks_refresh_witness :
  ∃ e, refresh_filtered_pairs_turn answers_malformed 1700000000 bot_filtered
       = (Raise e, bot_filtered, []).
Proof.
  apply (malformed_symbol_blocks_refresh answers_malformed 1700000000 bot_filtered
           "binance" "A/B/C" [("A/B/C", ticker_of 2000000 100 100.5)]
           (ticker_of 2000000 100 100.5) 2000000%float).
  - apply (bool_decide_unpack _). vm_compute. exact I.
  - left.
  - reflexivity.
  - reflexivity.
  - vm_compute. lia.
Defined.

(** ** Subscribing *)

Section subscribing.
Implicit Types (self s : ArbitrageBot) (exchange ex sym : string).

Lemma watch_pairs_tasks exchange (markets : gset string) (pairs : list string) ex sym :
  (ex, sym) ∈ (watch_pairs exchange markets pairs).1 ↔
  ex = exchange ∧ sym ∈ pairs ∧ sym ∈ markets.
Proof.
  induction pairs as [|symbol pairs IH]; simpl.
  - split; [by intros ?%elem_of_nil|by intros (_ & ?%elem_of_nil & _)].
  - destruct (watch_pairs exchange markets pairs) as [tasks log]. simpl in IH.
    case_bool_decide as Hin; simpl.
    + rewrite elem_of_cons, IH, elem_of_cons. split.
      * intros [[= -> ->]|(? & ? & ?)]; auto.
      * intros (-> & [->|?] & ?); auto.
    + rewrite IH, elem_of_cons. split.
      * intros (? & ? & ?); auto.
      * intros (-> & [->|?] & ?); done.
Qed.

Lemma watch_pairs_NoDup exchange (markets : gset string) (pairs : list string) :
  NoDup pairs → NoDup (watch_pairs exchange markets pairs).1.
Proof.
  induction 1 as [|symbol pairs Hfresh Hpairs IH]; simpl; [apply NoDup_nil_2|].
  pose proof (watch_pairs_tasks exchange markets pairs exchange symbol) as Htasks.
  destruct (watch_pairs exchange markets pairs) as [tasks log]. simpl in *.
  case_bool_decide; simpl; [|done].
  apply NoDup_cons. split; [|done]. intros (_ & ? & _)%Htasks. done.
Qed.

Lemma watch_pairs_log exchange (markets : gset string) (pairs : list string) :
  LogNoTasks ∉ (watch_pairs exchange markets pairs).2.
Proof.
  induction pairs as [|symbol pairs IH]; simpl; [apply not_elem_of_nil|].
  destruct (watch_pairs exchange markets pairs) as [tasks log]. simpl in *.
  case_bool_decide; simpl; [done|]. apply not_elem_of_cons. done.
Qed.

Lemma watch_exchanges_tasks (exchanges_pro : list (string * gset string)) s ex sym :
  (ex, sym) ∈ (watch_exchanges exchanges_pro s).1 ↔
  ∃ markets, (ex, markets) ∈ exchanges_pro ∧
             sym ∈ filtered_get ex (filtered_pairs s) ∧ sym ∈ markets.
Proof.
  induction exchanges_pro as [|[exchange markets] l IH]; simpl.
  - split; [by intros ?%elem_of_nil|by intros (? & ?%elem_of_nil & _)].
  - destruct (watch_exchanges l s) as [tasks log]. simpl in IH.
    case_bool_decide as Hempty; simpl.
    + rewrite IH. split.
      * intros (m & ? & ? & ?). exists m. split; [by right|done].
      * intros (m & [[= -> ->]|?]%elem_of_cons & Hsym & ?); [|by exists m].
        rewrite Hempty in Hsym. by apply not_elem_of_empty in Hsym.
    + pose proof (watch_pairs_tasks exchange markets
                    (elements (filtered_get exchange (filtered_pairs s))) ex sym)
        as Hpairs.
      destruct (watch_pairs exchange markets _) as [tasks' log']. simpl in *.
      rewrite elem_of_app, Hpairs, IH, elem_of_elements. split.
      * intros [(-> & ? & ?)|(m & ? & ? & ?)].
        -- exists markets. split; [left|done].
        -- exists m. split; [by right|done].
      * intros (m & [[= -> ->]|?]%elem_of_cons & ? & ?); [by left|].
        right. by exists m.
Qed.

Lemma watch_exchanges_NoDup (exchanges_pro : list (string * gset string)) s :
  NoDup exchanges_pro.*1 → NoDup (watch_exchanges exchanges_pro s).1.
Proof.
  induction exchanges_pro as [|[exchange markets] l IH]; simpl; [intros; apply NoDup_nil_2|].
  intros [Hfresh Hl]%NoDup_cons. specialize (IH Hl).
  pose proof (watch_exchanges_tasks l s) as Htasks.
  destruct (watch_exchanges l s) as [tasks log]. simpl in *.
  case_bool_decide as Hempty; simpl; [done|].
  pose proof (watch_pairs_NoDup exchange markets
                (elements (filtered_get exchange (filtered_pairs s))) (NoDup_elements _))
    as Hnodup.
  pose proof (watch_pairs_tasks exchange markets
                (elements (filtered_get exchange (filtered_pairs s)))) as Hpairs.
  destruct (watch_pairs exchange markets _) as [tasks' log']. simpl in *.
  apply NoDup_app. split_and!; [done| |done].
  intros [ex sym] (-> & _)%Hpairs (m & Hin & _)%Htasks.
  apply Hfresh. apply list_elem_of_fmap. by exists (exchange, m).
Qed.

Lemma watch_exchanges_log (exchanges_pro : list (string * gset string)) s :
  LogNoTasks ∉ (watch_exchanges exchanges_pro s).2.
Proof.
  induction exchanges_pro as [|[exchange markets] l IH]; simpl; [apply not_elem_of_nil|].
  destruct (watch_exchanges l s) as [tasks log]. simpl in *.
  case_bool_decide; simpl; [by apply not_elem_of_cons|].
  pose proof (watch_pairs_log exchange markets
                (elements (filtered_get exchange (filtered_pairs s)))) as Hlog.
  destruct (watch_pairs exchange markets _) as [tasks' log']. simpl in *.
  by apply not_elem_of_app.
Qed.

(** A loop whose turns return without events or changes does the same. *)
Lemma for_silent {A : Type} (xs : list A) (body : A → M unit) s :
  (∀ x, x ∈ xs → body x s = (Return tt, s, [])) →
  for_ xs body s = (Return tt, s, []).
Proof.
  induction xs as [|x xs IH]; intros Hbody; [done|].
  rewrite for_cons, (Hbody x ltac:(left)), IH; [done|].
  intros y Hy. apply Hbody. by right.
Qed.
End subscribing.

(** X23. [watch_order_books] starts a watcher for a (venue, symbol) exactly
    when the venue is one of its venues, the symbol is in the filtered pairs
    of the venue and in the markets of the venue; with venues named once it
    starts no watcher twice; and it logs that there are no tasks exactly
    when it starts none. *)
Theorem watchers_are_the_filtered_pairs_in_markets
    (exchanges_pro : list (string * gset string)) (self : ArbitrageBot) :
  (∀ exchange_name symbol : string,
     (exchange_name, symbol) ∈ (watch_order_books exchanges_pro self).1 ↔
     ∃ markets, (exchange_name, markets) ∈ exchanges_pro ∧
                symbol ∈ filtered_get exchange_name (filtered_pairs self) ∧
                symbol ∈ markets) ∧
  (NoDup exchanges_pro.*1 → NoDup (watch_order_books exchanges_pro self).1) ∧
  (LogNoTasks ∈ (watch_order_books exchanges_pro self).2 ↔
   (watch_order_books exchanges_pro self).1 = []).
Proof.
  unfold watch_order_books.
  pose proof (watch_exchanges_tasks exchanges_pro self) as Htasks.
  pose proof (watch_exchanges_NoDup exchanges_pro self) as Hnodup.
  pose proof (watch_exchanges_log exchanges_pro self) as Hlog.
  destruct (watch_exchanges exchanges_pro self) as [tasks log]. simpl in *.
  destruct tasks as [|task tasks]; simpl; split_and!; try done.
  split; [done|]. intros _. apply elem_of_app. right. left.
Qed.

Lemma watchers_are_the_filtered_pairs_in_markets_witness :
  NoDup (watch_order_books exchanges_pro_example bot_filtered).1.
Proof.
  apply (proj1 (proj2 (watchers_are_the_filtered_pairs_in_markets
                         exchanges_pro_example bot_filtered))).
  apply (bool_decide_unpack _). vm_compute. exact I.
Defined.

(** ** Stopping *)

Section stopping.
Implicit Types (self s : ArbitrageBot) (exchange symbol : string).

(** A comparison of two books does not look at the running flag. *)
Lemma compare_books_running symbol a b r s :
  compare_books symbol a b (set_running r s) =
  (result_of (compare_books symbol a b s), set_running r s,
   trace_of (compare_books symbol a b s)).
Proof.
  destruct a as [ex_a book_a], b as [ex_b book_b]. unfold compare_books.
  destruct (bids book_a) as [|[bid_a ?] ?]; [done|].
  destruct (asks book_b) as [|[ask_b ?] ?]; [done|].
  destruct (PrimFloat.ltb ask_b bid_a); [|done].
  unfold bind, lift, get_self, emit, execute_arbitrage, ret, result_of, trace_of; simpl.
  destruct (py_div _ ask_b); simpl; [|done].
  destruct (profit_net_pct _ _ _ _ _); simpl; [|done].
  by destruct (PrimFloat.leb _ _).
Qed.

(** Nor does a loop whose turns do not look at it and leave the bot as it
    is. *)
Lemma for_running {A : Type} (xs : list A) (body : A → M unit) r s :
  (∀ x, x ∈ xs → state_of (body x s) = s) →
  (∀ x, x ∈ xs →
     body x (set_running r s) =
     (result_of (body x s), set_running r s, trace_of (body x s))) →
  for_ xs body (set_running r s) =
  (result_of (for_ xs body s), set_running r s, trace_of (for_ xs body s)).
Proof.
  induction xs as [|x xs IH]; intros Hst Hrun; [done|].
  rewrite !for_cons, (Hrun x ltac:(left)).
  pose proof (Hst x ltac:(left)) as Hx.
  destruct (body x s) as [[[[]|e] s'] log];
    unfold state_of, result_of, trace_of in *; simpl in *; [|done].
  subst s'. rewrite IH.
  - by destruct (for_ xs body s) as [[r' s''] log'].
  - intros y Hy. apply Hst. by right.
  - intros y Hy. apply Hrun. by right.
Qed.

Lemma detect_opportunities_running symbol r s :
  detect_opportunities_for_symbol symbol (set_running r s) =
  (result_of (detect_opportunities_for_symbol symbol s), set_running r s,
   trace_of (detect_opportunities_for_symbol symbol s)).
Proof.
  unfold detect_opportunities_for_symbol. rewrite !bind_get_self.
  change (orderbooks (set_running r s)) with (orderbooks s).
  destruct (Nat.ltb _ 2); [done|].
  apply for_running.
  - intros [i a] _. apply (for_state_inv (λ s', s' = s)); [|done].
    intros b s' _ ->. apply compare_books_state.
  - intros [i a] _. apply for_running.
    + intros b _. apply compare_books_state.
    + intros b _. apply compare_books_running.
Qed.

(** A turn of the watcher does on a stopped bot what it does on a running
    one. *)
Lemma _watch_book_turn_running exchange symbol received r s :
  _watch_book_turn exchange symbol received (set_running r s) =
  (result_of (_watch_book_turn exchange symbol received s),
   set_running r (state_of (_watch_book_turn exchange symbol received s)),
   trace_of (_watch_book_turn exchange symbol received s)).
Proof.
  destruct received as [book|e].
  - rewrite !_watch_book_turn_eq.
    change (orderbooks (set_running r s)) with (orderbooks s).
    match goal with
    | |- context [detect_opportunities_for_symbol symbol
                    (set_orderbooks ?obs (set_running r s))] =>
        change (set_orderbooks obs (set_running r s))
          with (set_running r (set_orderbooks obs s))
    end.
    by rewrite detect_opportunities_running.
  - rewrite !_watch_book_turn_raise. by destruct (is_Exception e).
Qed.

(** On a stopped bot the loop of a watcher ends at its test. *)
Lemma _watch_book_stopped exchange symbol (feed : list (outcome orderbook)) s :
  running s = false → _watch_book exchange symbol feed s = (Return tt, s, []).
Proof.
  intros Hrun. unfold _watch_book. apply for_silent. intros answer _.
  by rewrite bind_get_self, Hrun.
Qed.
End stopping.

(** X24. [shutdown] clears the running flag and nothing else, and a watcher
    sees the flag only when it next tests it.  A watcher that was waiting for
    its feed when [shutdown] ran (the turn is run on the stopped bot) handles
    what the feed then delivers as on a running bot: the same result, the
    same events (a snapshot is stored, the detection runs on it and
    dispatches what it finds) and the same bot up to the flag.  After that
    turn it ends: whatever its feed still holds, nothing more is stored or
    logged. *)
Theorem shutdown_is_seen_at_the_next_test (exchange_name symbol : string)
    (received : outcome orderbook) (rest : list (outcome orderbook))
    (self : ArbitrageBot) :
  let stopped := state_of (shutdown self) in
  let turn := _watch_book_turn exchange_name symbol received in
  shutdown self = (Return tt, set_running false self, []) ∧
  turn stopped =
    (result_of (turn self), set_running false (state_of (turn self)),
     trace_of (turn self)) ∧
  _watch_book exchange_name symbol rest (state_of (turn stopped))
    = (Return tt, state_of (turn stopped), []).
Proof.
  cbv zeta.
  assert (shutdown self = (Return tt, set_running false self, [])) as Hstop.
  { unfold shutdown. by rewrite bind_get_self. }
  rewrite Hstop.
  change (state_of (Return tt, set_running false self, [])) with (set_running false self).
  rewrite _watch_book_turn_running. split_and!; [done..|].
  by apply _watch_book_stopped.
Qed.

Lemma shutdown_is_seen_at_the_next_test_witness :
  ExecuteArbitrage "bybit" "binance" "BTC/USDT" "buy" "sell" 100 101 0.01
  ∈ trace_of (_watch_book_turn "bybit" "BTC/USDT" (Return (book_of 99 100 2))
                (state_of (shutdown (bot_of CONFIG store_example)))).
Proof.
  destruct (shutdown_is_seen_at_the_next_test "bybit" "BTC/USDT"
              (Return (book_of 99 100 2)) [] (bot_of CONFIG store_example))
    as (_ & Hturn & _).
  cbv zeta in Hturn. rewrite Hturn. vm_compute. right. left.
Defined.

(** X25. On a bot as [__init__] leaves it, before any refresh has filled the
    filtered pairs, [watch_order_books] starts no watcher, whatever the
    venues and their markets, and logs that there are no tasks. *)
Theorem no_watcher_before_first_refresh
    (cfg : Config) (exchanges_pro : list (string * gset string)) :
  (watch_order_books exchanges_pro (new_bot cfg)).1 = [] ∧
  LogNoTasks ∈ (watch_order_books exchanges_pro (new_bot cfg)).2.
Proof.
  assert ((watch_exchanges exchanges_pro (new_bot cfg)).1 = []) as Hnone.
  { induction exchanges_pro as [|[exchange markets] l IH]; simpl; [done|].
    destruct (watch_exchanges l (new_bot cfg)) as [tasks log]. simpl in *.
    by rewrite bool_decide_eq_true_2 by done. }
  unfold watch_order_books.
  destruct (watch_exchanges exchanges_pro (new_bot cfg)) as [tasks log].
  simpl in Hnone. subst tasks. simpl. split; [done|].
  apply elem_of_app. right. left.
Qed.
